(** * CarrotSpeed: a persistent spatial cache of signed speed hints

    Shallow embedding of [selfdrive/carrot/carrot_speed.py] and the
    properties of its merge policy, query engine, invalidation and
    persistence codec.

    Conventions of the embedding:
    - a Python [float] is an IEEE-754 binary64 value, modelled by the
      executable specification [spec_float] of the standard library
      (precision 53, maximal exponent 1024, round to nearest even);
    - a Python [int] is a [Z];
    - an operation that can raise returns an [option]: [None] is the
      raised exception;
    - the wall clock is an input: every public operation takes the
      reading [now] of [int(time.time())] it works with;
    - the object's fields are a record that every operation threads. *)

From Stdlib Require Import ZArith Bool Lia Ascii String.
From Stdlib Require Import Floats.SpecFloat.
From Stdlib Require Import DecimalString DecimalZ.
From stdpp Require Import gmap strings list fin_maps.

Local Open Scope Z_scope.

(** ** Python floats *)

Module PyFloat.

Definition prec : Z := 53.
Definition emax : Z := 1024.

Abbreviation float := spec_float.

Definition fadd : float → float → float := SFadd prec emax.
Definition fsub : float → float → float := SFsub prec emax.
Definition fmul : float → float → float := SFmul prec emax.
Definition fdiv : float → float → float := SFdiv prec emax.
Definition feqb : float → float → bool := SFeqb.
Definition fltb : float → float → bool := SFltb.
Definition fleb : float → float → bool := SFleb.

(** [x > y] and [x >= y] are the mirrored comparisons (false on NaN). *)
Definition fgtb (x y : float) : bool := fltb y x.
Definition fgeb (x y : float) : bool := fleb y x.

(** The float nearest to an integer, and to a quotient of integers:
    what a literal such as [45.0], [1e4] or [0.5] denotes. *)
Definition of_Z (n : Z) : float := binary_normalize prec emax n 0 false.
Definition of_ratio (n : Z) (d : positive) : float :=
  match n with
  | Z0 => S754_zero false
  | Zpos p => fdiv (S754_finite false p 0) (S754_finite false d 0)
  | Zneg p => fdiv (S754_finite true p 0) (S754_finite false d 0)
  end.

Definition zero : float := S754_zero false.

(** Exact value of a finite float as a signed integer mantissa. *)
Definition signed (s : bool) (m : positive) : Z :=
  if s then Zneg m else Zpos m.

(** [math.floor(x)]: the integer floor, raising on NaN and infinities. *)
Definition py_floor (x : float) : option Z :=
  match x with
  | S754_zero _ => Some 0
  | S754_finite s m e =>
      Some (if 0 <=? e then signed s m * 2 ^ e
            else signed s m `div` 2 ^ (- e))
  | S754_infinity _ | S754_nan => None
  end.

(** [int(x)] on a float: truncation towards zero, raising on NaN and
    infinities. *)
Definition py_int (x : float) : option Z :=
  match x with
  | S754_zero _ => Some 0
  | S754_finite s m e =>
      Some (if 0 <=? e then signed s m * 2 ^ e
            else signed s m `quot` 2 ^ (- e))
  | S754_infinity _ | S754_nan => None
  end.

(** C's [floor] on doubles (the result is a double). *)
Definition c_floor (x : float) : float :=
  match x with
  | S754_finite s m e =>
      if 0 <=? e then x
      else match signed s m `div` 2 ^ (- e) with
           | Z0 => S754_zero s
           | q => binary_normalize prec emax q 0 false
           end
  | _ => x
  end.

(** C's [fmod]: the exact remainder of the truncated division, with the
    sign of the dividend. *)
Definition c_fmod (x y : float) : float :=
  match x, y with
  | S754_nan, _ | _, S754_nan => S754_nan
  | S754_infinity _, _ => S754_nan
  | _, S754_zero _ => S754_nan
  | _, S754_infinity _ => x
  | S754_zero _, _ => x
  | S754_finite sx mx ex, S754_finite _ my ey =>
      let e := Z.min ex ey in
      let X := Zpos mx * 2 ^ (ex - e) in
      let Y := Zpos my * 2 ^ (ey - e) in
      match X `rem` Y with
      | Z0 => S754_zero sx
      | Zpos r => binary_normalize prec emax (signed sx r) e false
      | Zneg _ => S754_nan
      end
  end.

(** [copysign(0.0, x)]. *)
Definition zero_with_sign_of (x : float) : float :=
  match x with
  | S754_zero s | S754_infinity s | S754_finite s _ _ => S754_zero s
  | S754_nan => S754_zero false
  end.

(** Truth value of a double in C: anything but a zero. *)
Definition nonzero (x : float) : bool :=
  match x with S754_zero _ => false | _ => true end.

(** Python's [x % w] on floats, for a divisor [w] that is not zero
    ([float_rem]): the remainder takes the sign of the divisor. *)
Definition py_mod (x w : float) : float :=
  let m := c_fmod x w in
  if nonzero m then
    if negb (Bool.eqb (fltb w zero) (fltb m zero)) then fadd m w else m
  else zero_with_sign_of w.

(** Python's [x // w] on floats, for a divisor [w] that is not zero
    ([_float_div_mod]). *)
Definition py_floordiv (x w : float) : float :=
  let m := c_fmod x w in
  let d := fdiv (fsub x m) w in
  let d := if nonzero m && negb (Bool.eqb (fltb w zero) (fltb m zero))
           then fsub d (of_Z 1) else d in
  if nonzero d then
    let f := c_floor d in
    if fgtb (fsub d f) (of_ratio 1 2) then fadd f (of_Z 1) else f
  else zero_with_sign_of (fdiv x w).

(** Python's [round(x, 1)]: the exact value of [x] is rounded to one
    decimal digit, ties to even, and the decimal result is converted
    back to the nearest float; NaN, infinities and zeros round to
    themselves, and the sign survives a result of zero. *)
Definition tenths (m : positive) (e : Z) : Z :=
  let p := 2 ^ (- e) in
  let q := (10 * Zpos m) `div` p in
  let r := (10 * Zpos m) `mod` p in
  match 2 * r ?= p with
  | Lt => q
  | Gt => q + 1
  | Eq => if Z.even q then q else q + 1
  end.

Definition round1 (x : float) : float :=
  match x with
  | S754_finite s m e =>
      if 0 <=? e then x
      else match tenths m e with
           | Zpos n => fdiv (S754_finite s n 0) (S754_finite false 10 0)
           | _ => S754_zero s
           end
  | _ => x
  end.

(** Python's [max(a, b)] on floats: [b] only when [b > a]. *)
Definition py_max (a b : float) : float := if fgtb b a then b else a.

(** Python compares an [int] with a [float] exactly: [n > x]. *)
Definition Z_gtb_float (n : Z) (x : float) : bool :=
  match x with
  | S754_nan => false
  | S754_infinity s => s
  | S754_zero _ => 0 <? n
  | S754_finite s m e =>
      if 0 <=? e then signed s m * 2 ^ e <? n
      else signed s m <? n * 2 ^ (- e)
  end.

End PyFloat.

Import PyFloat.

(** ** Python lists used as arrays *)

Section PyList.
Context {A : Type}.

(** [arr[i]] with Python's negative indices; [None] is [IndexError]. *)
Definition py_index (arr : list A) (i : Z) : option nat :=
  let n := Z.of_nat (length arr) in
  if (0 <=? i) && (i <? n) then Some (Z.to_nat i)
  else if (i <? 0) && (0 <=? n + i) then Some (Z.to_nat (n + i))
  else None.

Definition py_getitem (arr : list A) (i : Z) : option A :=
  k ← py_index arr i; arr !! k.

(** [arr[i] = x]: in-place store, [IndexError] out of range. *)
Definition py_setitem (arr : list A) (i : Z) (x : A) : option (list A) :=
  k ← py_index arr i; Some (<[k := x]> arr).
End PyList.

(** ** Geometry helpers *)

Definition quantize_1e4 (lat lon : float) : option (Z * Z) :=
  gy ← py_floor (fmul lat (of_Z 10000));
  gx ← py_floor (fmul lon (of_Z 10000));
  Some (gy, gx).

Definition heading_to_bucket (heading_deg : float) : option Z :=
  let step := of_Z 45 in
  i ← py_int (py_floordiv (py_mod heading_deg (of_Z 360)) step);
  Some (if i <? 0 then 0 else if 7 <? i then 7 else i).

(** [math.radians] and [math.degrees] multiply by the doubles nearest to
    pi/180 and 180/pi, computed from the double nearest to pi. *)
Definition math_pi : float := S754_finite false 7074237752028440 (-51).
Definition math_radians (x : float) : float :=
  fmul x (fdiv math_pi (of_Z 180)).
Definition math_degrees (x : float) : float :=
  fmul x (fdiv (of_Z 180) math_pi).

Section Trig.
(** The C library's [cos] and [sin] on doubles.  [math.cos] and [math.sin]
    raise on an infinite argument; the only argument that can be infinite
    here is [radians(lat)], and the quantizer then raises on the projected
    latitude as well, so the functions are taken as total. *)
Variables math_cos math_sin : float → float.

Definition project_point (lat lon heading_deg distance_m : float)
  : float * float :=
  if fleb distance_m zero then (lat, lon)
  else
    let R := of_Z 6371000 in
    let h := math_radians heading_deg in
    let dlat := fdiv (fmul distance_m (math_cos h)) R in
    let dlon := fdiv (fmul distance_m (math_sin h))
                     (fmul R (math_cos (math_radians lat))) in
    (fadd lat (math_degrees dlat), fadd lon (math_degrees dlon)).
End Trig.

Definition _is_gzip (data : list Byte.byte) : bool :=
  match data with
  | b0 :: b1 :: _ => Byte.eqb b0 Byte.x1f && Byte.eqb b1 Byte.x8b
  | _ => false
  end.

(** ** The libraries the module calls

    [math.cos], [math.sin], [int] and [float] on strings, the [json]
    text codec (composed with the UTF-8 codec of [str]) and [gzip] are not
    code of this repository: they are an interface the object is
    parameterised by.  A fallible call returns [None] when it raises. *)

#[warnings="-register-all"]
Inductive json : Type :=
| JNull
| JBool (b : bool)
| JInt (n : Z)
| JFloat (x : float)
| JStr (s : string)
| JList (l : list json)
| JObj (items : list (string * json)).

Class PyLib : Type := {
  math_cos : float → float;
  math_sin : float → float;
  int_of_str : string → option Z;
  float_of_str : string → option float;
  json_dumps : json → list Byte.byte;
  json_loads : list Byte.byte → option json;
  gzip_compress : list Byte.byte → Z → option (list Byte.byte);
  gzip_decompress : list Byte.byte → option (list Byte.byte)
}.

(** ** The grid and the object *)

(** A slot is the two-element list [[v, ts]]. *)
Abbreviation slot := (option float * option Z)%type.

Definition empty_slot : slot := (None, None).

Definition buckets : Z := 8.

(** Modelled from the spec: the persistent key-value store ([Params]) is
    not among the sources; under the single key the object uses it holds
    either nothing or the bytes last written, [get] reads them,
    [put_nonblocking] replaces them, and [remove] and [delete] both drop
    the key. *)
Abbreviation params := (option (list Byte.byte)).
Definition params_get (p : params) : option (list Byte.byte) := p.
Definition params_put_nonblocking (p : params) (v : list Byte.byte) : params :=
  Some v.
Definition params_remove (p : params) : params := None.
Definition params_delete (p : params) : params := None.

Record CarrotSpeed : Type := mkCarrotSpeed {
  neighbor_ring : Z;
  neighbor_old_threshold_s : Z;
  use_gzip : bool;
  gzip_level : Z;
  _cells : gmap (Z * Z) (list slot);
  _dirty : bool;
  _last_save : Z;
  _params : params;
  _last_hit : option (Z * Z * Z * Z);
  _last_hit_read_ms : Z
}.

Definition set_cells (self : CarrotSpeed) (c : gmap (Z * Z) (list slot))
  : CarrotSpeed :=
  mkCarrotSpeed (neighbor_ring self) (neighbor_old_threshold_s self)
    (use_gzip self) (gzip_level self) c (_dirty self) (_last_save self)
    (_params self) (_last_hit self) (_last_hit_read_ms self).

Definition set_dirty (self : CarrotSpeed) (d : bool) : CarrotSpeed :=
  mkCarrotSpeed (neighbor_ring self) (neighbor_old_threshold_s self)
    (use_gzip self) (gzip_level self) (_cells self) d (_last_save self)
    (_params self) (_last_hit self) (_last_hit_read_ms self).

Definition set_last_save (self : CarrotSpeed) (t : Z) : CarrotSpeed :=
  mkCarrotSpeed (neighbor_ring self) (neighbor_old_threshold_s self)
    (use_gzip self) (gzip_level self) (_cells self) (_dirty self) t
    (_params self) (_last_hit self) (_last_hit_read_ms self).

Definition set_params (self : CarrotSpeed) (p : params) : CarrotSpeed :=
  mkCarrotSpeed (neighbor_ring self) (neighbor_old_threshold_s self)
    (use_gzip self) (gzip_level self) (_cells self) (_dirty self)
    (_last_save self) p (_last_hit self) (_last_hit_read_ms self).

Definition set_last_hit (self : CarrotSpeed) (h : Z * Z * Z * Z) (ms : Z)
  : CarrotSpeed :=
  mkCarrotSpeed (neighbor_ring self) (neighbor_old_threshold_s self)
    (use_gzip self) (gzip_level self) (_cells self) (_dirty self)
    (_last_save self) (_params self) (Some h) ms.

(** [arr[b] = x] on the array stored under [(gy, gx)]: the array is the
    object held by the dictionary, so the store is seen through it. *)
Definition store_slot (self : CarrotSpeed) (gy gx : Z) (arr : list slot)
    (b : Z) (x : slot) : option CarrotSpeed :=
  arr' ← py_setitem arr b x;
  Some (set_cells self (<[(gy, gx) := arr']> (_cells self))).

Definition _ensure_cell (self : CarrotSpeed) (gy gx : Z)
  : CarrotSpeed * list slot :=
  match _cells self !! (gy, gx) with
  | Some arr => (self, arr)
  | None =>
      let arr := replicate (Z.to_nat buckets) empty_slot in
      (set_cells self (<[(gy, gx) := arr]> (_cells self)), arr)
  end.

(** [_now()] is the clock reading [now] that the operations take. *)
Definition _age (now : Z) (ts : option Z) : option Z :=
  match ts with
  | None => None
  | Some ts => Some (now - ts)
  end.

Definition _neighbor_indices (self : CarrotSpeed) (gy gx : Z) : list (Z * Z) :=
  let r := neighbor_ring self in
  if r <=? 0 then []
  else
    let rng := (λ k : nat, - r + Z.of_nat k) <$> seq 0 (Z.to_nat (2 * r + 1)) in
    dy ← rng; dx ← rng;
    if (dy =? 0) && (dx =? 0) then [] else [(gy + dy, gx + dx)].

Definition _neighbors_8 (gy gx : Z) : list (Z * Z) :=
  dy ← [-1; 0; 1]; dx ← [-1; 0; 1];
  if (dy =? 0) && (dx =? 0) then [] else [(gy + dy, gx + dx)].

(** The loop of [_try_cell_buckets_old] over the offsets still to try.
    The outer [option] is the [IndexError] of [arr[bi]]; the inner one is
    the [(None, None)] of the last line. *)
Fixpoint try_offsets (self : CarrotSpeed) (now : Z) (arr : list slot)
    (b : Z) (offs : list Z) : option (option (float * Z)) :=
  match offs with
  | [] => Some None
  | off :: rest =>
      let bi := (b + off) `mod` buckets in
      '(v, ts) ← py_getitem arr bi;
      match v, ts with
      | Some v, Some ts =>
          if now - ts <? neighbor_old_threshold_s self
          then try_offsets self now arr b rest
          else Some (Some (v, bi))
      | _, _ => try_offsets self now arr b rest
      end
  end.

Definition _try_cell_buckets_old (self : CarrotSpeed) (now : Z)
    (arr : list slot) (b : Z) : option (option (float * Z)) :=
  try_offsets self now arr b [0; -1; 1].

(** ** Public operations *)

Definition add_sample (self : CarrotSpeed) (now : Z)
    (lat lon heading_deg speed_signed : float) : option CarrotSpeed :=
  let v_in := round1 speed_signed in
  if feqb v_in zero then Some self
  else
    '(gy, gx) ← quantize_1e4 lat lon;
    b ← heading_to_bucket heading_deg;
    let '(self, arr) := _ensure_cell self gy gx in
    '(v_old, ts_old) ← py_getitem arr b;
    self ← match v_old with
           | None =>
               self ← store_slot self gy gx arr b (Some v_in, Some now);
               Some (set_dirty self true)
           | Some v_old =>
               let new_val := round1 (fdiv (fadd v_old v_in) (of_Z 2)) in
               if fgtb v_in zero then
                 if fltb v_old zero
                 then store_slot self gy gx arr b (Some v_in, ts_old)
                 else store_slot self gy gx arr b (Some new_val, ts_old)
               else store_slot self gy gx arr b (Some v_in, ts_old)
           end;
    Some (set_dirty self true).

(** A hit of the search: the value and the slot [(gy, gx, b_sel)]. *)
Abbreviation hit := (float * (Z * Z * Z))%type.

(** [self._cells.get(k)] followed by the truth test of the array: an
    absent cell and an empty array both fail it. *)
Definition nonempty_cell (self : CarrotSpeed) (k : Z * Z) : option (list slot) :=
  match _cells self !! k with
  | Some (s :: arr) => Some (s :: arr)
  | _ => None
  end.

(** The loop over the 8 neighbours of one candidate point. *)
Fixpoint scan_neighbors (self : CarrotSpeed) (now b : Z)
    (ns : list (Z * Z)) : option (option hit) :=
  match ns with
  | [] => Some None
  | (ny, nx) :: rest =>
      match nonempty_cell self (ny, nx) with
      | None => scan_neighbors self now b rest
      | Some arr2 =>
          r ← _try_cell_buckets_old self now arr2 b;
          match r with
          | Some (v2, b_sel2) => Some (Some (v2, (ny, nx, b_sel2)))
          | None => scan_neighbors self now b rest
          end
      end
  end.

(** One iteration of the loop over the candidate distances, for the cell
    [(gy, gx)] of the projected point. *)
Definition scan_point (self : CarrotSpeed) (now b : Z)
    (neighbor_fallback : bool) (gy gx : Z) : option (option hit) :=
  r ← match nonempty_cell self (gy, gx) with
      | Some arr => _try_cell_buckets_old self now arr b
      | None => Some None
      end;
  match r with
  | Some (v, b_sel) => Some (Some (v, (gy, gx, b_sel)))
  | None =>
      if negb neighbor_fallback then Some None
      else scan_neighbors self now b (_neighbors_8 gy gx)
  end.

(** The candidate distances built before the lock is taken. *)
Definition cand_ds (dist : float) : list float :=
  fold_left
    (λ acc off, let d2 := fadd dist off in
                if fgeb d2 zero then acc ++ [d2] else acc)
    [of_Z 3; of_Z (-3); of_Z 6; of_Z (-6)] [dist].

Section Operations.
Context `{PyLib}.

(** The loop over the candidate distances. *)
Fixpoint scan_cands (self : CarrotSpeed) (now b : Z)
    (neighbor_fallback : bool) (lat lon heading_deg : float)
    (ds : list float) : option (option hit) :=
  match ds with
  | [] => Some None
  | d :: rest =>
      let '(y, x) := project_point math_cos math_sin lat lon heading_deg d in
      '(gy, gx) ← quantize_1e4 y x;
      r ← scan_point self now b neighbor_fallback gy gx;
      match r with
      | Some h => Some (Some h)
      | None => scan_cands self now b neighbor_fallback lat lon heading_deg rest
      end
  end.

(** [now] is the reading of [int(time.time())] and [now_ms] that of
    [int(time.time() * 1000)]. *)
Definition query_target_dist (self : CarrotSpeed) (now now_ms : Z)
    (lat lon heading_deg dist : float) (neighbor_fallback : bool)
  : option (CarrotSpeed * float) :=
  b ← heading_to_bucket heading_deg;
  r ← scan_cands self now b neighbor_fallback lat lon heading_deg (cand_ds dist);
  match r with
  | Some (v, (gy, gx, b_sel)) =>
      Some (set_last_hit self (gy, gx, b_sel, now) now_ms, v)
  | None => Some (self, zero)
  end.

Definition query_target (self : CarrotSpeed) (now now_ms : Z)
    (lat lon heading_deg v_ego lookahead_s : float) (neighbor_fallback : bool)
  : option (CarrotSpeed * float) :=
  let dist := py_max zero (fmul v_ego lookahead_s) in
  query_target_dist self now now_ms lat lon heading_deg dist neighbor_fallback.
End Operations.

Definition invalidate_last_hit (self : CarrotSpeed) (now : Z)
    (window_s : float) (action : string) : option (CarrotSpeed * bool) :=
  match _last_hit self with
  | None => Some (self, false)
  | Some (gy, gx, b, read_ts) =>
      if Z_gtb_float (now - read_ts) window_s then Some (self, false)
      else
        match nonempty_cell self (gy, gx) with
        | None => Some (self, false)
        | Some arr =>
            '(v, ts) ← py_getitem arr b;
            if String.eqb action "clear" then
              self ← store_slot self gy gx arr b (None, None);
              Some (set_dirty self true, true)
            else
              match v with
              | Some v =>
                  self ← store_slot self gy gx arr b (Some v, Some now);
                  Some (set_dirty self true, true)
              | None => Some (self, false)
              end
        end
  end.

(** ** Serialization *)

(** [str] of an [int]: decimal digits, with a leading minus sign. *)
Definition py_str_of_int (z : Z) : string :=
  NilZero.string_of_int (Z.to_int z).

(** The f-string [f"{gy},{gx}"]. *)
Definition cell_key (gy gx : Z) : string :=
  py_str_of_int gy +:+ "," +:+ py_str_of_int gx.

(** [s.split(sep)] for a one-character separator. *)
Fixpoint py_split (sep : ascii) (s : string) : list string :=
  match s with
  | EmptyString => [EmptyString]
  | String c r =>
      if Ascii.eqb c sep then EmptyString :: py_split sep r
      else match py_split sep r with
           | h :: t => String c h :: t
           | [] => [String c EmptyString]
           end
  end.

Definition slot_json (s : slot) : json :=
  JList [ match s.1 with None => JNull | Some v => JFloat v end;
          match s.2 with None => JNull | Some ts => JInt ts end ].

(** The dictionary [{"format": "v4", "dir_buckets": 8, "cells": cells}]. *)
Definition payload_of_cells (cells : list (string * json)) : json :=
  JObj [ ("format"%string, JStr "v4");
         ("dir_buckets"%string, JInt buckets);
         ("cells"%string, JObj cells) ].

Definition cell_json (kv : Z * Z * list slot) : string * json :=
  (cell_key kv.1.1 kv.1.2, JList (slot_json <$> kv.2)).

(** The object handed to [json.dumps].  The cells are listed in the order
    of the map's enumeration; the loader does not depend on it. *)
Definition payload_obj (self : CarrotSpeed) : json :=
  payload_of_cells (cell_json <$> map_to_list (_cells self)).

(** [d.get(k, default)]; [None] is the [AttributeError] of a value that is
    not a dictionary. *)
Fixpoint assoc (k : string) (items : list (string * json)) : option json :=
  match items with
  | [] => None
  | (k', v) :: rest => if String.eqb k k' then Some v else assoc k rest
  end.

Definition dict_get (data : json) (k : string) (default : json) : option json :=
  match data with
  | JObj items => Some (from_option id default (assoc k items))
  | _ => None
  end.

(** [d.items()]. *)
Definition dict_items (data : json) : option (list (string * json)) :=
  match data with
  | JObj items => Some items
  | _ => None
  end.

(** [x != "v4"] for a decoded value [x]. *)
Definition differs_from_str (x : json) (s : string) : bool :=
  match x with
  | JStr s' => negb (String.eqb s' s)
  | _ => true
  end.

Section Codec.
Context `{PyLib}.

(** [int(x)] and [float(x)] on a decoded value. *)
Definition py_int_of_json (x : json) : option Z :=
  match x with
  | JInt n => Some n
  | JBool b => Some (if b then 1 else 0)
  | JFloat f => py_int f
  | JStr s => int_of_str s
  | JNull | JList _ | JObj _ => None
  end.

Definition py_float_of_json (x : json) : option float :=
  match x with
  | JInt n =>
      match of_Z n with
      | S754_infinity _ | S754_nan => None
      | f => Some f
      end
  | JBool b => Some (of_Z (if b then 1 else 0))
  | JFloat f => Some f
  | JStr s => float_of_str s
  | JNull | JList _ | JObj _ => None
  end.

Definition _encode_payload (self : CarrotSpeed) : option (list Byte.byte) :=
  let raw := json_dumps (payload_obj self) in
  if use_gzip self then gzip_compress raw (gzip_level self) else Some raw.

Definition save (self : CarrotSpeed) (now : Z) : option CarrotSpeed :=
  payload ← _encode_payload self;
  let self := set_params self (params_put_nonblocking (_params self) payload) in
  let self := set_last_save self now in
  Some (set_dirty self false).

Definition maybe_save (self : CarrotSpeed) (now interval_s : Z)
  : option CarrotSpeed :=
  if negb (_dirty self) || (now - _last_save self <? interval_s)
  then Some self
  else save self now.

Definition close (self : CarrotSpeed) (now : Z) : CarrotSpeed :=
  match (if _dirty self then save self now else Some self) with
  | Some self' => self'
  | None => self
  end.

(** The body of the inner loop of the loader: one stored pair. *)
Definition fix_pair (pair : json) : option slot :=
  match pair with
  | JList [v; ts] =>
      v2 ← match v with JNull => Some None | _ => Some <$> py_float_of_json v end;
      ts2 ← match ts with JNull => Some None | _ => Some <$> py_int_of_json ts end;
      Some (v2, ts2)
  | _ => Some empty_slot
  end.

Definition fix_cell (arr : json) : option (list slot) :=
  match arr with
  | JList l =>
      if Z.of_nat (length l) =? 8 then mapM fix_pair l
      else Some (replicate 8 empty_slot)
  | _ => Some (replicate 8 empty_slot)
  end.

(** [gy, gx = map(int, key.split(","))]. *)
Definition parse_key (key : string) : option (Z * Z) :=
  match py_split "," key with
  | [a; b] => gy ← int_of_str a; gx ← int_of_str b; Some (gy, gx)
  | _ => None
  end.

Fixpoint restore_cells (items : list (string * json))
    (restored : gmap (Z * Z) (list slot)) : option (gmap (Z * Z) (list slot)) :=
  match items with
  | [] => Some restored
  | (key, arr) :: rest =>
      '(gy, gx) ← parse_key key;
      fixed ← fix_cell arr;
      restore_cells rest (<[(gy, gx) := fixed]> restored)
  end.

Definition reset_removed (self : CarrotSpeed) : CarrotSpeed :=
  let self := set_params self (params_remove (_params self)) in
  set_dirty (set_cells self ∅) false.

Definition reset_deleted (self : CarrotSpeed) : CarrotSpeed :=
  let self := set_params self (params_delete (_params self)) in
  set_dirty (set_cells self ∅) false.

(** The first statements of the [try] block of the loader: the stored
bytes are decompressed when they start with the gzip magic number, and
decoded.  [None] is any exception raised. *)
Definition stored_object (raw : list Byte.byte) : option json :=
  data_bytes ← (if _is_gzip raw then gzip_decompress raw else Some raw);
  json_loads data_bytes.

(** The rest of the [try] block, on the decoded object. *)
Definition load_object (self : CarrotSpeed) (data : json) : option CarrotSpeed :=
  fmt ← dict_get data "format" JNull;
  if differs_from_str fmt "v4" then Some (reset_removed self)
  else
    d ← dict_get data "dir_buckets" (JInt 8);
    n ← py_int_of_json d;
    if negb (n =? 8) then Some (reset_removed self)
    else
      cells ← dict_get data "cells" (JObj []);
      items ← dict_items cells;
      restored ← restore_cells items ∅;
      Some (set_dirty (set_cells self restored) false).

(** The [try] block of the loader; [None] is any exception raised in it. *)
Definition load_try (self : CarrotSpeed) (raw : list Byte.byte)
  : option CarrotSpeed :=
  data ← stored_object raw;
  load_object self data.

Definition _load_from_params_if_exists (self : CarrotSpeed) : CarrotSpeed :=
  match params_get (_params self) with
  | None | Some [] => self
  | Some raw =>
      match load_try self raw with
      | Some self' => self'
      | None => reset_deleted self
      end
  end.

(** The constructor, given the store it opens. *)
Definition init (store : params) (ring threshold_s : Z)
    (gz : bool) (level : Z) : CarrotSpeed :=
  let self :=
    mkCarrotSpeed (Z.max 0 ring) threshold_s gz level ∅ false 0 store None 0 in
  let self := _load_from_params_if_exists self in
  mkCarrotSpeed (neighbor_ring self) (neighbor_old_threshold_s self)
    (use_gzip self) (gzip_level self) (_cells self) (_dirty self)
    (_last_save self) (_params self) None 0.
End Codec.

(** ** Vocabulary of the properties *)

(** The grid invariant: every cell holds exactly 8 slots. *)
Definition wf_grid (cells : gmap (Z * Z) (list slot)) : Prop :=
  map_Forall (λ _ arr, length arr = 8%nat) cells.

(** The content of the slot [(gy, gx, b)]; a cell that does not exist yet
    reads as never written. *)
Definition slot_at (self : CarrotSpeed) (gy gx b : Z) : slot :=
  match _cells self !! (gy, gx) with
  | Some arr => default empty_slot (arr !! Z.to_nat b)
  | None => empty_slot
  end.

(** The last-hit marker, when there is one, names one of the 8 buckets:
    queries are the only writers of the marker. *)
Definition wf_hit (self : CarrotSpeed) : Prop :=
  match _last_hit self with
  | Some (_, _, b, _) => 0 ≤ b < 8
  | None => True
  end.

(** A stored entry that is a two-element list, and a stored array that
    consists of exactly 8 of them. *)
Definition is_pair (pair : json) : bool :=
  match pair with
  | JList [_; _] => true
  | _ => false
  end.

Definition eight_pairs (arr : json) : bool :=
  match arr with
  | JList l => (Z.of_nat (length l) =? 8) && forallb is_pair l
  | _ => false
  end.

(** [x != 8] for a decoded value [x]. *)
Definition differs_from_8 (x : json) : bool :=
  match x with
  | JInt n => negb (n =? 8)
  | JFloat f => negb (feqb f (of_Z 8))
  | _ => true
  end.

(** The search of a query without the update of the last-hit marker:
    the hit found, if any. *)
Definition query_hit `{PyLib} (self : CarrotSpeed) (now : Z)
    (lat lon heading_deg dist : float) (neighbor_fallback : bool)
  : option (option hit) :=
  b ← heading_to_bucket heading_deg;
  scan_cands self now b neighbor_fallback lat lon heading_deg (cand_ds dist).

(** The cell of the point at [dist] ahead. *)
Definition cell_ahead `{PyLib} (lat lon heading_deg dist : float)
  : option (Z * Z) :=
  let '(y, x) := project_point math_cos math_sin lat lon heading_deg dist in
  quantize_1e4 y x.

(** *** The forward search, as its specification words it

    The candidate distances are [d, d+3, d-3 (if >= 0), d+6, d-6 (if >= 0)];
    at each candidate point the home cell comes first, then, with the
    neighbour fallback, the 8 adjacent cells row by row; in each cell
    the buckets [b], [b-1], [b+1] modulo 8; the first slot that holds a
    value old enough is returned, and 0.0 when there is none. *)

Definition spec_cand_ds (d : float) : list float :=
  [d; fadd d (of_Z 3)]
  ++ (if fgeb (fsub d (of_Z 3)) zero then [fsub d (of_Z 3)] else [])
  ++ [fadd d (of_Z 6)]
  ++ (if fgeb (fsub d (of_Z 6)) zero then [fsub d (of_Z 6)] else []).

Definition spec_buckets (b : Z) : list Z :=
  [b `mod` 8; (b - 1) `mod` 8; (b + 1) `mod` 8].

Definition spec_cells (gy gx : Z) (neighbor_fallback : bool) : list (Z * Z) :=
  (gy, gx) ::
  (if neighbor_fallback
   then [(gy - 1, gx - 1); (gy - 1, gx); (gy - 1, gx + 1);
         (gy, gx - 1); (gy, gx + 1);
         (gy + 1, gx - 1); (gy + 1, gx); (gy + 1, gx + 1)]
   else []).

(** The slots probed at one candidate point, in order. *)
Definition spec_probes (b : Z) (neighbor_fallback : bool) (gy gx : Z)
  : list (Z * Z * Z) :=
  c ← spec_cells gy gx neighbor_fallback;
  bi ← spec_buckets b;
  [(c.1, c.2, bi)].

(** The value of a slot that passes the gate. *)
Definition passes (self : CarrotSpeed) (now : Z) (p : Z * Z * Z) : option float :=
  match slot_at self p.1.1 p.1.2 p.2 with
  | (Some v, Some ts) =>
      if neighbor_old_threshold_s self <=? now - ts then Some v else None
  | _ => None
  end.

Fixpoint first_passing (self : CarrotSpeed) (now : Z) (ps : list (Z * Z * Z))
  : option hit :=
  match ps with
  | [] => None
  | p :: rest =>
      match passes self now p with
      | Some v => Some (v, p)
      | None => first_passing self now rest
      end
  end.

Fixpoint spec_scan `{PyLib} (self : CarrotSpeed) (now b : Z)
    (neighbor_fallback : bool) (lat lon heading_deg : float)
    (ds : list float) : option (option hit) :=
  match ds with
  | [] => Some None
  | d :: rest =>
      '(gy, gx) ← cell_ahead lat lon heading_deg d;
      match first_passing self now (spec_probes b neighbor_fallback gy gx) with
      | Some h => Some (Some h)
      | None => spec_scan self now b neighbor_fallback lat lon heading_deg rest
      end
  end.

Definition spec_query_target_dist `{PyLib} (self : CarrotSpeed)
    (now now_ms : Z) (lat lon heading_deg dist : float)
    (neighbor_fallback : bool) : option (CarrotSpeed * float) :=
  b ← heading_to_bucket heading_deg;
  r ← spec_scan self now b neighbor_fallback lat lon heading_deg
        (spec_cand_ds dist);
  match r with
  | Some (v, (gy, gx, b_sel)) =>
      Some (set_last_hit self (gy, gx, b_sel, now) now_ms, v)
  | None => Some (self, zero)
  end.

(** An object that was never written, as the constructor leaves it when
    the store holds nothing (default parameters). *)
Definition fresh : CarrotSpeed :=
  mkCarrotSpeed 1 120 true 5 ∅ false 0 None None 0.

(** ** A stand-in for the libraries

    An executable implementation of the interface [PyLib], used only to
    run the operations on concrete inputs: a JSON printer and parser for
    ASCII text (floats are printed with their exact decimal expansion and
    read back correctly rounded), plain decimal integer literals, Taylor
    polynomials for [cos] and [sin], and a framing that puts the gzip magic
    number in front of the data in place of the real compression. *)

Module TestLib.

Definition dq : ascii := "034"%char.

Definition quote (s : string) : string :=
  let fix esc (s : string) : string :=
    match s with
    | EmptyString => String dq EmptyString
    | String c r =>
        if Ascii.eqb c dq || Ascii.eqb c "\"
        then String "\" (String c (esc r))
        else String c (esc r)
    end in
  String dq (esc s).

Fixpoint trim_zeros (s : string) : string :=
  match s with
  | EmptyString => EmptyString
  | String c r =>
      match trim_zeros r with
      | EmptyString => if Ascii.eqb c "0" then EmptyString else String c EmptyString
      | r' => String c r'
      end
  end.

(** Exact decimal expansion of a float. *)
Definition float_repr (x : float) : string :=
  match x with
  | S754_nan => "NaN"
  | S754_infinity false => "Infinity"
  | S754_infinity true => "-Infinity"
  | S754_zero false => "0.0"
  | S754_zero true => "-0.0"
  | S754_finite s m e =>
      (if s then "-" else "") +:+
      (if 0 <=? e then py_str_of_int (Zpos m * 2 ^ e) +:+ ".0"
       else
         let k := - e in
         let n := Zpos m * 5 ^ k in
         py_str_of_int (n `div` 10 ^ k) +:+ "." +:+
         match py_str_of_int (10 ^ k + n `mod` 10 ^ k) with
         | String _ digits =>
             match trim_zeros digits with
             | EmptyString => "0"
             | d => d
             end
         | EmptyString => "0"
         end)
  end.

Fixpoint print (j : json) : string :=
  match j with
  | JNull => "null"
  | JBool true => "true"
  | JBool false => "false"
  | JInt n => py_str_of_int n
  | JFloat x => float_repr x
  | JStr s => quote s
  | JList l =>
      "[" +:+
      (fix go (l : list json) : string :=
         match l with
         | [] => ""
         | [x] => print x
         | x :: r => print x +:+ "," +:+ go r
         end) l +:+ "]"
  | JObj items =>
      "{" +:+
      (fix go (items : list (string * json)) : string :=
         match items with
         | [] => ""
         | [(k, v)] => quote k +:+ ":" +:+ print v
         | (k, v) :: r => quote k +:+ ":" +:+ print v +:+ "," +:+ go r
         end) items +:+ "}"
  end.

Definition is_ws (c : ascii) : bool :=
  Ascii.eqb c " " || Ascii.eqb c "009" || Ascii.eqb c "010" || Ascii.eqb c "013".

Fixpoint skip_ws (s : string) : string :=
  match s with
  | String c r => if is_ws c then skip_ws r else s
  | EmptyString => s
  end.

Definition digit_val (c : ascii) : option Z :=
  let n := Z.of_nat (nat_of_ascii c) in
  if (48 <=? n) && (n <=? 57) then Some (n - 48) else None.

(** The longest run of digits: its value, its length and what follows. *)
Fixpoint take_digits (s : string) (acc cnt : Z) : Z * Z * string :=
  match s with
  | String c r =>
      match digit_val c with
      | Some d => take_digits r (10 * acc + d) (cnt + 1)
      | None => (acc, cnt, s)
      end
  | EmptyString => (acc, cnt, s)
  end.

Fixpoint strip_prefix (p s : string) : option string :=
  match p, s with
  | EmptyString, _ => Some s
  | String a p', String b s' => if Ascii.eqb a b then strip_prefix p' s' else None
  | _, _ => None
  end.

(** The float nearest to [n * 10 ^ e10], with the sign [neg]. *)
Definition decimal_float (neg : bool) (n e10 : Z) : float :=
  match n with
  | Zpos p =>
      if 0 <=? e10
      then binary_normalize prec emax (signed neg (p * Z.to_pos (10 ^ e10))) 0 false
      else fdiv (S754_finite neg p 0) (S754_finite false (Z.to_pos (10 ^ (- e10))) 0)
  | _ => S754_zero neg
  end.

Definition parse_number (s : string) : option (json * string) :=
  let '(neg, s1) :=
    match s with
    | String "-" r => (true, r)
    | _ => (false, s)
    end in
  match strip_prefix "Infinity" s1, strip_prefix "NaN" s with
  | Some r, _ => Some (JFloat (S754_infinity neg), r)
  | None, Some r => Some (JFloat S754_nan, r)
  | None, None =>
      let '(ip, ic, s2) := take_digits s1 0 0 in
      if ic =? 0 then None
      else
        frac ← match s2 with
               | String "." r =>
                   let '(fp, fc, r') := take_digits r 0 0 in
                   if fc =? 0 then None else Some (fp, fc, r', true)
               | _ => Some (0, 0, s2, false)
               end;
        let '(fp, fc, s3, has_frac) := frac in
        ex ← match s3 with
             | String c r =>
                 if Ascii.eqb c "e" || Ascii.eqb c "E" then
                   let '(eneg, r1) :=
                     match r with
                     | String "-" r1 => (true, r1)
                     | String "+" r1 => (false, r1)
                     | _ => (false, r)
                     end in
                   let '(ev, ec, r2) := take_digits r1 0 0 in
                   if ec =? 0 then None
                   else Some (if eneg then - ev else ev, r2, true)
                 else Some (0, s3, false)
             | EmptyString => Some (0, s3, false)
             end;
        let '(ev, s4, has_exp) := ex in
        if has_frac || has_exp
        then Some (JFloat (decimal_float neg (ip * 10 ^ fc + fp) (ev - fc)), s4)
        else Some (JInt (if neg then - ip else ip), s4)
  end.

(** The characters of a string literal after its opening quote. *)
Fixpoint parse_string_body (s : string) : option (string * string) :=
  match s with
  | EmptyString => None
  | String c r =>
      if Ascii.eqb c dq then Some (EmptyString, r)
      else if Ascii.eqb c "\" then
        match r with
        | String c2 r2 =>
            if Ascii.eqb c2 dq || Ascii.eqb c2 "\" || Ascii.eqb c2 "/" then
              '(body, rest) ← parse_string_body r2; Some (String c2 body, rest)
            else None
        | EmptyString => None
        end
      else '(body, rest) ← parse_string_body r; Some (String c body, rest)
  end.

(** A later member replaces an earlier one of the same name, as in the
    dictionary [json.loads] builds. *)
Fixpoint dict_set (items : list (string * json)) (k : string) (v : json)
  : list (string * json) :=
  match items with
  | [] => [(k, v)]
  | (k', v') :: rest =>
      if String.eqb k k' then (k', v) :: rest else (k', v') :: dict_set rest k v
  end.

Fixpoint parse_value (fuel : nat) (s : string) : option (json * string) :=
  match fuel with
  | O => None
  | S f =>
      match skip_ws s with
      | EmptyString => None
      | String c r as s' =>
          if Ascii.eqb c "[" then
            match skip_ws r with
            | String "]" r' => Some (JList [], r')
            | _ => parse_elems f r []
            end
          else if Ascii.eqb c "{" then
            match skip_ws r with
            | String "}" r' => Some (JObj [], r')
            | _ => parse_members f r []
            end
          else if Ascii.eqb c dq then
            '(body, rest) ← parse_string_body r; Some (JStr body, rest)
          else
            match strip_prefix "null" s', strip_prefix "true" s',
                  strip_prefix "false" s' with
            | Some rest, _, _ => Some (JNull, rest)
            | _, Some rest, _ => Some (JBool true, rest)
            | _, _, Some rest => Some (JBool false, rest)
            | _, _, _ => parse_number s'
            end
      end
  end
with parse_elems (fuel : nat) (s : string) (acc : list json)
  : option (json * string) :=
  match fuel with
  | O => None
  | S f =>
      '(v, r) ← parse_value f s;
      match skip_ws r with
      | String "," r' => parse_elems f r' (acc ++ [v])
      | String "]" r' => Some (JList (acc ++ [v]), r')
      | _ => None
      end
  end
with parse_members (fuel : nat) (s : string) (acc : list (string * json))
  : option (json * string) :=
  match fuel with
  | O => None
  | S f =>
      match skip_ws s with
      | String c r =>
          if Ascii.eqb c dq then
            '(k, r1) ← parse_string_body r;
            match skip_ws r1 with
            | String ":" r2 =>
                '(v, r3) ← parse_value f r2;
                match skip_ws r3 with
                | String "," r' => parse_members f r' (dict_set acc k v)
                | String "}" r' => Some (JObj (dict_set acc k v), r')
                | _ => None
                end
            | _ => None
            end
          else None
      | EmptyString => None
      end
  end.

Definition is_ascii_byte (b : Byte.byte) : bool :=
  (Byte.to_nat b <? 128)%nat.

Definition dumps (j : json) : list Byte.byte :=
  list_byte_of_string (print j).

Definition loads (data : list Byte.byte) : option json :=
  if forallb is_ascii_byte data then
    let s := string_of_list_byte data in
    '(v, rest) ← parse_value (2 * String.length s + 2) s;
    match skip_ws rest with
    | EmptyString => Some v
    | _ => None
    end
  else None.

Definition int_of_string (s : string) : option Z :=
  Z.of_int <$> NilZero.int_of_string s.

Definition float_of_string (s : string) : option float :=
  match parse_number s with
  | Some (JFloat x, EmptyString) => Some x
  | Some (JInt n, EmptyString) => Some (of_Z n)
  | _ => None
  end.

(** [n] terms of the Taylor series, from the term [t] of index [k]. *)
Fixpoint taylor (n : nat) (x2 t : float) (k : Z) : float :=
  match n with
  | O => zero
  | S n' =>
      fadd t (taylor n' x2
                (fdiv (fmul (fsub zero t) x2) (of_Z ((k + 1) * (k + 2))))
                (k + 2))
  end.

Definition cos (x : float) : float := taylor 14 (fmul x x) (of_Z 1) 0.
Definition sin (x : float) : float := taylor 14 (fmul x x) x 1.

Definition gz_compress (data : list Byte.byte) (level : Z)
  : option (list Byte.byte) :=
  if (-1 <=? level) && (level <=? 9)
  then Some (Byte.x1f :: Byte.x8b :: data)
  else None.

Definition gz_decompress (data : list Byte.byte) : option (list Byte.byte) :=
  match data with
  | b0 :: b1 :: rest =>
      if Byte.eqb b0 Byte.x1f && Byte.eqb b1 Byte.x8b then Some rest else None
  | _ => None
  end.

#[export] Instance lib : PyLib := {|
  math_cos := cos;
  math_sin := sin;
  int_of_str := int_of_string;
  float_of_str := float_of_string;
  json_dumps := dumps;
  json_loads := loads;
  gzip_compress := gz_compress;
  gzip_decompress := gz_decompress
|}.

End TestLib.

(** ** Concrete objects used by the examples *)

(** One sample of 15.0 written at time 1000 at 37.5 N, 127.0 E, heading
    east: it lands in the slot [(375000, 1270000, 2)]. *)
Definition demo_written : CarrotSpeed :=
  default fresh
    (add_sample fresh 1000 (of_ratio 375 10) (of_Z 127) (of_Z 90) (of_Z 15)).

(** A stored payload whose only cell [(1, 2)] holds the pair [[5.0, null]]
    in bucket 0, and the object that loads it. *)
Definition demo_half_payload : json :=
  payload_of_cells
    [("1,2"%string,
      JList (JList [JFloat (of_Z 5); JNull]
             :: replicate 7 (JList [JNull; JNull])))].

Definition demo_half_stored : CarrotSpeed :=
  mkCarrotSpeed 1 120 true 5 ∅ false 0
    (Some (TestLib.dumps demo_half_payload)) None 0.

Definition demo_half_loaded : CarrotSpeed :=
  _load_from_params_if_exists (H := TestLib.lib) demo_half_stored.

(** The sample of [demo_written] is returned by a query at time 1121,
    and the hit is cleared at once; a second [invalidate_last_hit] follows
    one second later. *)
Definition demo_queried : CarrotSpeed :=
  default demo_written
    (fst <$> query_target_dist (H := TestLib.lib) demo_written 1121 1121000
               (of_ratio 375 10) (of_ratio 1269999 10000) (of_Z 90) (of_Z 10)
               true).

Definition demo_cleared : CarrotSpeed :=
  default demo_queried
    (fst <$> invalidate_last_hit demo_queried 1121 (of_Z 2) "clear").

(** A stored payload whose cell [(1, 2)] has 8 entries, the second of
    which is not a pair, and one that declares 8.5 buckets. *)
Definition demo_mixed_cell : json :=
  JList (JList [JFloat (of_Z 5); JInt 100] :: JList [JInt 1]
         :: replicate 6 (JList [JNull; JNull])).

Definition demo_mixed_stored : CarrotSpeed :=
  mkCarrotSpeed 1 120 true 5 ∅ false 0
    (Some (TestLib.dumps (payload_of_cells [("1,2"%string, demo_mixed_cell)])))
    None 0.

Definition demo_fractional_payload : json :=
  JObj [ ("format"%string, JStr "v4");
         ("dir_buckets"%string, JFloat (of_ratio 17 2));
         ("cells"%string,
          JObj [("1,2"%string,
                 JList (JList [JFloat (of_Z 5); JInt 100]
                        :: replicate 7 (JList [JNull; JNull])))]) ].

Definition demo_fractional_stored : CarrotSpeed :=
  mkCarrotSpeed 1 120 true 5 ∅ false 0
    (Some (TestLib.dumps demo_fractional_payload)) None 0.

(** A stored payload of an older format, and stored bytes that are not
    JSON at all. *)
Definition demo_v2_stored : CarrotSpeed :=
  mkCarrotSpeed 1 120 true 5 ∅ false 0
    (Some (TestLib.dumps
             (JObj [("format"%string, JStr "v2");
                    ("dir_buckets"%string, JInt 8);
                    ("cells"%string, JObj [])])))
    None 0.

Definition demo_corrupt_stored : CarrotSpeed :=
  mkCarrotSpeed 1 120 true 5 ∅ false 0
    (Some (list_byte_of_string "{not json")) None 0.

(** The bytes [demo_written] saves. *)
Definition demo_saved_bytes : list Byte.byte :=
  default [] (_encode_payload (H := TestLib.lib) demo_written).

(** ** Vocabulary of the further properties *)

(** A float that is a NaN or an infinity. *)
Definition not_finite (x : float) : bool :=
  match x with
  | S754_nan | S754_infinity _ => true
  | _ => false
  end.

(** The fields that no operation after the constructor writes. *)
Definition same_config (a b : CarrotSpeed) : Prop :=
  neighbor_ring a = neighbor_ring b ∧
  neighbor_old_threshold_s a = neighbor_old_threshold_s b ∧
  use_gzip a = use_gzip b ∧ gzip_level a = gzip_level b.

(** The calls a user makes on the object after the constructor, and the
    object after a call that returns ([None] when the call raises). *)
Inductive call : Type :=
| CallAddSample (now : Z) (lat lon heading_deg speed_signed : float)
| CallQueryTarget (now now_ms : Z)
    (lat lon heading_deg v_ego lookahead_s : float) (neighbor_fallback : bool)
| CallQueryTargetDist (now now_ms : Z)
    (lat lon heading_deg dist : float) (neighbor_fallback : bool)
| CallInvalidateLastHit (now : Z) (window_s : float) (action : string)
| CallMaybeSave (now interval_s : Z)
| CallSave (now : Z)
| CallClose (now : Z).

Definition run_call `{PyLib} (self : CarrotSpeed) (c : call)
  : option CarrotSpeed :=
  match c with
  | CallAddSample now lat lon heading_deg speed_signed =>
      add_sample self now lat lon heading_deg speed_signed
  | CallQueryTarget now now_ms lat lon heading_deg v_ego lookahead_s nf =>
      fst <$> query_target self now now_ms lat lon heading_deg v_ego
                lookahead_s nf
  | CallQueryTargetDist now now_ms lat lon heading_deg dist nf =>
      fst <$> query_target_dist self now now_ms lat lon heading_deg dist nf
  | CallInvalidateLastHit now window_s action =>
      fst <$> invalidate_last_hit self now window_s action
  | CallMaybeSave now interval_s => maybe_save self now interval_s
  | CallSave now => save self now
  | CallClose now => Some (close self now)
  end.

(** The objects a program can hold: built by the constructor from any
    store content and any parameters, then used through any calls. *)
Inductive reachable `{PyLib} : CarrotSpeed → Prop :=
| reachable_init store ring threshold_s gz level :
    reachable (init store ring threshold_s gz level)
| reachable_call self c self' :
    reachable self → run_call self c = Some self' → reachable self'.



(** The calls that can write the store at the time they are made. *)
Definition may_write_store (self : CarrotSpeed) (c : call) : bool :=
  match c with
  | CallSave _ => true
  | CallClose _ => _dirty self
  | CallMaybeSave now interval_s =>
      _dirty self && negb (now - _last_save self <? interval_s)
  | _ => false
  end.

(** [demo_written] with other parameters, another marker and no store;
    [demo_written] after a save at time 1000; a stored payload with a key
    of three numbers beside a good cell. *)
Definition demo_other_config : CarrotSpeed :=
  mkCarrotSpeed 3 120 false 9 (_cells demo_written) false 7 None
    (Some (0, 0, 3, 5)) 9.


Definition demo_bad_key_stored : CarrotSpeed :=
  mkCarrotSpeed 1 120 true 5 ∅ false 0
    (Some (TestLib.dumps
             (payload_of_cells
                [("1,2"%string, JList (replicate 8 (JList [JNull; JNull])));
                 ("1,2,3"%string, JList [])])))
    None 0.

(** * Properties *)

(** ** Comparisons with zero *)

Lemma fgeb_zero_not_ltb (x : float) : fgeb x zero = true → fltb x zero = false.
Proof. destruct x as [s|s| |s m e]; try destruct s; cbv; congruence. Qed.

Lemma fltb_zero_not_gtb (x : float) : fltb x zero = true → fgtb x zero = false.
Proof. destruct x as [s|s| |s m e]; try destruct s; cbv; congruence. Qed.

(** ** Rounding keeps the sign

    The mantissa handed to the rounding of a sum is positive, so the
    rounded result is a zero, a finite number or an infinity of the sign
    that was asked for: never a NaN. *)

Lemma shr_1_nonneg mrs : 0 ≤ shr_m mrs → 0 ≤ shr_m (shr_1 mrs).
Proof.
  destruct mrs as [m r s]. destruct m as [|p|p]; cbn; [lia| |lia].
  intros _. destruct p; cbn; lia.
Qed.

Lemma iter_pos_shr_1_nonneg p mrs :
  0 ≤ shr_m mrs → 0 ≤ shr_m (SpecFloat.iter_pos shr_1 p mrs).
Proof.
  revert mrs. induction p as [p IH|p IH|]; intros mrs Hm; cbn.
  - apply IH, IH. by apply shr_1_nonneg.
  - by apply IH, IH.
  - by apply shr_1_nonneg.
Qed.

Lemma shr_fexp_nonneg m e l :
  0 ≤ m → 0 ≤ shr_m (shr_fexp prec emax m e l).1.
Proof.
  intros Hm. unfold shr_fexp, shr.
  assert (Hrec : 0 ≤ shr_m (shr_record_of_loc m l))
    by (destruct l as [|[]]; exact Hm).
  destruct (fexp prec emax (Zdigits2 m + e) - e); cbn [fst]; try done.
  by apply iter_pos_shr_1_nonneg.
Qed.

Lemma round_nearest_even_nonneg m l : 0 ≤ m → 0 ≤ round_nearest_even m l.
Proof.
  intros Hm. destruct l as [|[]]; cbn; try lia.
  destruct (Z.even m); lia.
Qed.

Lemma binary_round_aux_sign sx mx ex lx :
  0 ≤ mx →
  binary_round_aux prec emax sx mx ex lx = S754_zero sx ∨
  (∃ m e, binary_round_aux prec emax sx mx ex lx = S754_finite sx m e) ∨
  binary_round_aux prec emax sx mx ex lx = S754_infinity sx.
Proof.
  intros Hm. unfold binary_round_aux.
  pose proof (shr_fexp_nonneg mx ex lx Hm) as H1.
  destruct (shr_fexp prec emax mx ex lx) as [mrs' e']. cbn [fst] in H1.
  pose proof (shr_fexp_nonneg _ e' loc_Exact
                (round_nearest_even_nonneg _ (loc_of_shr_record mrs') H1)) as H2.
  destruct (shr_fexp prec emax _ e' loc_Exact) as [mrs'' e'']. cbn [fst] in H2.
  destruct (shr_m mrs'') as [|m|m]; [by left| |lia].
  right. destruct (e'' <=? emax - prec); eauto.
Qed.

Lemma binary_round_sign sx mx ex :
  binary_round prec emax sx mx ex = S754_zero sx ∨
  (∃ m e, binary_round prec emax sx mx ex = S754_finite sx m e) ∨
  binary_round prec emax sx mx ex = S754_infinity sx.
Proof.
  unfold binary_round. destruct (shl_align _ _ _) as [mz ez].
  by apply binary_round_aux_sign.
Qed.

Lemma fadd_finite_not_nan sx mx ex sy my ey :
  fadd (S754_finite sx mx ex) (S754_finite sy my ey) ≠ S754_nan.
Proof.
  unfold fadd, SFadd, binary_normalize.
  destruct (_ + _) as [|p|p]; [done| |];
    match goal with |- binary_round _ _ ?s ?m ?e ≠ _ =>
      destruct (binary_round_sign s m e) as [Hr|[(m' & e' & Hr)|Hr]];
      rewrite Hr; discriminate
    end.
Qed.

Lemma fadd_pos_pos mx ex my ey :
  fgeb (fadd (S754_finite false mx ex) (S754_finite false my ey)) zero = true.
Proof.
  unfold fadd, SFadd, binary_normalize, cond_Zopp.
  rewrite <- Pos2Z.inj_add. cbv iota.
  match goal with |- fgeb (binary_round _ _ ?s ?m ?e) _ = _ =>
    destruct (binary_round_sign s m e) as [Hr|[(m' & e' & Hr)|Hr]];
    rewrite Hr; reflexivity
  end.
Qed.

Lemma fsub_as_fadd (d : float) (m : positive) (e : Z) :
  fsub d (S754_finite false m e) = fadd d (S754_finite true m e).
Proof. destruct d as [[]|[]| |s md ed]; reflexivity. Qed.

Lemma fgtb_fgeb (x y : float) : fgtb x y = true → fgeb x y = true.
Proof.
  unfold fgtb, fgeb, fltb, fleb, SFltb, SFleb.
  by destruct (SFcompare y x) as [[]|].
Qed.

Lemma py_max_zero_nonneg (x : float) : fgeb (py_max zero x) zero = true.
Proof.
  unfold py_max. destruct (fgtb x zero) eqn:Hx; [by apply fgtb_fgeb|reflexivity].
Qed.

(** ** Arrays *)

Lemma py_index_inrange {A} (arr : list A) (i : Z) :
  0 ≤ i < Z.of_nat (length arr) → py_index arr i = Some (Z.to_nat i).
Proof.
  intros Hi. unfold py_index.
  destruct (Z.leb_spec 0 i); [|lia].
  destruct (Z.ltb_spec i (Z.of_nat (length arr))); [|lia]. reflexivity.
Qed.

Lemma py_getitem_inrange {A} (arr : list A) (i : Z) :
  0 ≤ i < Z.of_nat (length arr) → py_getitem arr i = arr !! Z.to_nat i.
Proof. intros Hi. unfold py_getitem. by rewrite py_index_inrange. Qed.

Lemma py_setitem_inrange {A} (arr : list A) (i : Z) (x : A) :
  0 ≤ i < Z.of_nat (length arr) →
  py_setitem arr i x = Some (<[Z.to_nat i := x]> arr).
Proof. intros Hi. unfold py_setitem. by rewrite py_index_inrange. Qed.

Lemma py_index_bound {A} (arr : list A) (i : Z) (k : nat) :
  py_index arr i = Some k → (k < length arr)%nat.
Proof.
  unfold py_index.
  destruct (Z.leb_spec 0 i), (Z.ltb_spec i (Z.of_nat (length arr)));
    simpl; try (intros [= <-]; lia);
    destruct (Z.ltb_spec i 0), (Z.leb_spec 0 (Z.of_nat (length arr) + i));
    simpl; try discriminate; intros [= <-]; lia.
Qed.

Lemma py_setitem_length {A} (arr arr' : list A) (i : Z) (x : A) :
  py_setitem arr i x = Some arr' → length arr' = length arr.
Proof.
  unfold py_setitem. destruct (py_index arr i); simpl; [|discriminate].
  intros [= <-]. apply length_insert.
Qed.

(** ** The quantizer's bucket is one of the 8 *)

Lemma heading_to_bucket_range (h : float) (b : Z) :
  heading_to_bucket h = Some b → 0 ≤ b ≤ 7.
Proof.
  unfold heading_to_bucket.
  destruct (py_int _) as [i|]; simpl; [|discriminate].
  intros [= <-].
  destruct (Z.ltb_spec i 0); [lia|].
  destruct (Z.ltb_spec 7 i); lia.
Qed.

(** ** The grid invariant *)

Lemma wf_grid_empty : wf_grid ∅.
Proof. apply map_Forall_empty. Qed.

Lemma wf_grid_insert cells k arr :
  wf_grid cells → length arr = 8%nat → wf_grid (<[k := arr]> cells).
Proof. intros Hwf Hlen. by apply map_Forall_insert_2. Qed.

Lemma wf_grid_lookup cells k arr :
  wf_grid cells → cells !! k = Some arr → length arr = 8%nat.
Proof. intros Hwf Hk. exact (map_Forall_lookup_1 _ _ _ _ Hwf Hk). Qed.

Lemma set_cells_id self : set_cells self (_cells self) = self.
Proof. by destruct self. Qed.

Lemma ensure_cell_spec self gy gx :
  wf_grid (_cells self) →
  ∃ arr,
    _ensure_cell self gy gx =
      (set_cells self (<[(gy, gx) := arr]> (_cells self)), arr) ∧
    length arr = 8%nat ∧
    (∀ b, default empty_slot (arr !! Z.to_nat b) = slot_at self gy gx b).
Proof.
  intros Hwf. unfold _ensure_cell, slot_at.
  destruct (_cells self !! (gy, gx)) as [arr|] eqn:E.
  - exists arr. split_and!; eauto using wf_grid_lookup.
    by rewrite insert_id, set_cells_id.
  - eexists. split_and!; [reflexivity|done|].
    intros b. destruct (replicate _ _ !! _) eqn:E'; [|done].
    by apply lookup_replicate in E' as [-> _].
Qed.

(** ** The writer *)

Lemma store_slot_inrange self gy gx arr b x :
  0 ≤ b < Z.of_nat (length arr) →
  store_slot self gy gx arr b x =
    Some (set_cells self (<[(gy, gx) := <[Z.to_nat b := x]> arr]> (_cells self))).
Proof. intros Hb. unfold store_slot. by rewrite py_setitem_inrange. Qed.

(** What one effective call of [add_sample] does to the object: the cell
    is the stored one or a fresh one, and one slot of it is overwritten. *)
Lemma add_sample_run self now lat lon h speed gy gx b :
  wf_grid (_cells self) →
  quantize_1e4 lat lon = Some (gy, gx) →
  heading_to_bucket h = Some b →
  feqb (round1 speed) zero = false →
  let v_in := round1 speed in
  let old := slot_at self gy gx b in
  let new :=
    match old.1 with
    | None => (Some v_in, Some now)
    | Some v_old =>
        if fgtb v_in zero then
          if fltb v_old zero then (Some v_in, old.2)
          else (Some (round1 (fdiv (fadd v_old v_in) (of_Z 2))), old.2)
        else (Some v_in, old.2)
    end in
  ∃ arr,
    length arr = 8%nat ∧
    (∀ b', default empty_slot (arr !! Z.to_nat b') = slot_at self gy gx b') ∧
    add_sample self now lat lon h speed =
      Some (set_dirty
              (set_cells self (<[(gy, gx) := <[Z.to_nat b := new]> arr]> (_cells self)))
              true).
Proof.
  intros Hwf Hq Hb Hz v_in old new.
  pose proof (heading_to_bucket_range _ _ Hb) as Hr.
  destruct (ensure_cell_spec self gy gx Hwf) as (arr & He & Hlen & Hslot).
  exists arr. split; [done|]. split; [done|].
  unfold add_sample. rewrite Hz, Hq. cbn [mbind option_bind].
  rewrite Hb. cbn [mbind option_bind]. rewrite He.
  assert (Hin : 0 ≤ b < Z.of_nat (length arr)) by lia.
  rewrite py_getitem_inrange by done.
  assert (Hold : arr !! Z.to_nat b = Some old).
  { specialize (Hslot b). fold old in Hslot.
    destruct (arr !! Z.to_nat b) as [s|] eqn:E; [by simpl in Hslot; subst|].
    apply lookup_ge_None in E. lia. }
  rewrite Hold. subst new. destruct old as [[v_old|] ts_old]; cbn -[round1 of_Z].
  - fold v_in.
    destruct (fgtb v_in zero); [destruct (fltb v_old zero)|];
      rewrite store_slot_inrange by done; cbn; by rewrite insert_insert_eq.
  - rewrite store_slot_inrange by done; cbn; by rewrite insert_insert_eq.
Qed.

Lemma slot_at_stored self gy gx arr b x d :
  0 ≤ b < Z.of_nat (length arr) →
  slot_at (set_dirty (set_cells self
             (<[(gy, gx) := <[Z.to_nat b := x]> arr]> (_cells self))) d)
          gy gx b = x.
Proof.
  intros Hb. unfold slot_at. cbn. rewrite lookup_insert_eq.
  rewrite list_lookup_insert_eq by lia. reflexivity.
Qed.

Lemma slot_at_stored_other self gy gx arr b x d gy' gx' b' :
  (∀ b0, default empty_slot (arr !! Z.to_nat b0) = slot_at self gy gx b0) →
  0 ≤ b → 0 ≤ b' → (gy', gx', b') ≠ (gy, gx, b) →
  slot_at (set_dirty (set_cells self
             (<[(gy, gx) := <[Z.to_nat b := x]> arr]> (_cells self))) d)
          gy' gx' b' = slot_at self gy' gx' b'.
Proof.
  intros Harr Hb Hb' Hne. unfold slot_at at 1. cbn.
  destruct (decide ((gy, gx) = (gy', gx'))) as [[= <- <-]|Hk].
  - rewrite lookup_insert_eq, <- Harr.
    rewrite list_lookup_insert_ne; [done|].
    intros Heq. apply Hne. f_equal. lia.
  - by rewrite lookup_insert_ne.
Qed.

Lemma add_sample_zero_step self now lat lon h speed :
  feqb (round1 speed) zero = true →
  add_sample self now lat lon h speed = Some self.
Proof. intros Hz. unfold add_sample. by rewrite Hz. Qed.

(** C9 - A sample whose speed rounds to zero at one decimal is a complete
    no-op: [add_sample] returns before touching the object, so every slot,
    the set of cells (no cell is created) and the dirty flag are those of
    the object it was called on, whatever the grid holds. *)
Theorem add_sample_zero_noop self now lat lon heading_deg speed :
  feqb (round1 speed) zero = true →
  add_sample self now lat lon heading_deg speed = Some self.
Proof. intros Hz. unfold add_sample. by rewrite Hz. Qed.

Lemma add_sample_zero_noop_witness :
  feqb (round1 (of_ratio (-4) 100)) zero = true ∧
  add_sample fresh 1700000000 (of_ratio 375 10) (of_Z 127) (of_Z 90)
    (of_ratio (-4) 100) = Some fresh.
Proof.
  split; [vm_compute; reflexivity|].
  apply add_sample_zero_noop. vm_compute. reflexivity.
Defined.

(** C1 - Merge policy of [add_sample] at the slot [(gy, gx, b)] the
    sample falls into, for a sample whose rounded speed [v_in] is not
    zero: a slot without a value becomes [(v_in, now)]; a positive sample
    over a value [v_old >= 0] stores [round((v_old + v_in) / 2, 1)] with
    the old timestamp; a positive sample over a negative value stores
    [v_in] with the old timestamp; a negative sample stores [v_in] with
    the old timestamp whatever the old value.  Concretely, from an empty
    slot, [+5.0] at [t0] gives [(5.0, t0)], then [+7.0] gives [(6.0, t0)],
    then [-3.0] gives [(-3.0, t0)]. *)
Theorem add_sample_merge_policy self lat lon heading_deg gy gx b :
  wf_grid (_cells self) →
  quantize_1e4 lat lon = Some (gy, gx) →
  heading_to_bucket heading_deg = Some b →
  (∀ now speed,
     let v_in := round1 speed in
     feqb v_in zero = false →
     ∃ self',
       add_sample self now lat lon heading_deg speed = Some self' ∧
       wf_grid (_cells self') ∧
       ∀ v_old ts_old, slot_at self gy gx b = (v_old, ts_old) →
         (v_old = None → slot_at self' gy gx b = (Some v_in, Some now)) ∧
         (∀ vo, v_old = Some vo → fgtb v_in zero = true → fgeb vo zero = true →
            slot_at self' gy gx b =
              (Some (round1 (fdiv (fadd vo v_in) (of_Z 2))), ts_old)) ∧
         (∀ vo, v_old = Some vo → fgtb v_in zero = true → fltb vo zero = true →
            slot_at self' gy gx b = (Some v_in, ts_old)) ∧
         (∀ vo, v_old = Some vo → fltb v_in zero = true →
            slot_at self' gy gx b = (Some v_in, ts_old))) ∧
  ((slot_at self gy gx b).1 = None →
   ∀ t0 t1 t2, ∃ s1 s2 s3,
     add_sample self t0 lat lon heading_deg (of_Z 5) = Some s1 ∧
     slot_at s1 gy gx b = (Some (of_Z 5), Some t0) ∧
     add_sample s1 t1 lat lon heading_deg (of_Z 7) = Some s2 ∧
     slot_at s2 gy gx b = (Some (of_Z 6), Some t0) ∧
     add_sample s2 t2 lat lon heading_deg (of_Z (-3)) = Some s3 ∧
     slot_at s3 gy gx b = (Some (of_Z (-3)), Some t0)).
Proof.
  intros Hwf Hq Hb.
  pose proof (heading_to_bucket_range _ _ Hb) as Hr.
  assert (Hgen : ∀ self now speed,
    wf_grid (_cells self) → feqb (round1 speed) zero = false →
    ∃ self',
      add_sample self now lat lon heading_deg speed = Some self' ∧
      wf_grid (_cells self') ∧
      slot_at self' gy gx b =
        match (slot_at self gy gx b).1 with
        | None => (Some (round1 speed), Some now)
        | Some v_old =>
            if fgtb (round1 speed) zero then
              if fltb v_old zero then (Some (round1 speed), (slot_at self gy gx b).2)
              else (Some (round1 (fdiv (fadd v_old (round1 speed)) (of_Z 2))),
                    (slot_at self gy gx b).2)
            else (Some (round1 speed), (slot_at self gy gx b).2)
        end).
  { intros s now speed Hs Hz.
    destruct (add_sample_run s now lat lon heading_deg speed gy gx b Hs Hq Hb Hz)
      as (arr & Hlen & _ & Hrun).
    eexists. split; [exact Hrun|]. split.
    - cbn. apply wf_grid_insert; [done|]. by rewrite length_insert.
    - apply slot_at_stored. lia. }
  split.
  - intros now speed v_in Hz.
    destruct (Hgen self now speed Hwf Hz) as (self' & Hrun & Hwf' & Hslot).
    exists self'. split; [done|]. split; [done|].
    intros v_old ts_old Hold. rewrite Hold in Hslot. cbn [fst snd] in Hslot.
    fold v_in in Hslot. split_and!.
    + by intros ->.
    + intros vo -> Hpos Hge. rewrite Hslot, Hpos.
      by rewrite (fgeb_zero_not_ltb _ Hge).
    + intros vo -> Hpos Hneg. by rewrite Hslot, Hpos, Hneg.
    + intros vo -> Hneg. rewrite Hslot.
      by rewrite (fltb_zero_not_gtb _ Hneg).
  - intros Hempty t0 t1 t2.
    destruct (Hgen self t0 (of_Z 5) Hwf eq_refl) as (s1 & Hr1 & Hwf1 & Hs1).
    rewrite Hempty in Hs1.
    destruct (Hgen s1 t1 (of_Z 7) Hwf1 eq_refl) as (s2 & Hr2 & Hwf2 & Hs2).
    rewrite Hs1 in Hs2.
    destruct (Hgen s2 t2 (of_Z (-3)) Hwf2 eq_refl) as (s3 & Hr3 & Hwf3 & Hs3).
    rewrite Hs2 in Hs3.
    exists s1, s2, s3. split_and!; done.
Qed.

Lemma add_sample_merge_policy_witness :
  ∃ s1 s2 s3,
    add_sample fresh 100 (of_ratio 375 10) (of_Z 127) (of_Z 90) (of_Z 5) = Some s1 ∧
    slot_at s1 375000 1270000 2 = (Some (of_Z 5), Some 100) ∧
    add_sample s1 160 (of_ratio 375 10) (of_Z 127) (of_Z 90) (of_Z 7) = Some s2 ∧
    slot_at s2 375000 1270000 2 = (Some (of_Z 6), Some 100) ∧
    add_sample s2 220 (of_ratio 375 10) (of_Z 127) (of_Z 90) (of_Z (-3)) = Some s3 ∧
    slot_at s3 375000 1270000 2 = (Some (of_Z (-3)), Some 100).
Proof.
  refine (proj2 (add_sample_merge_policy fresh (of_ratio 375 10) (of_Z 127)
                   (of_Z 90) 375000 1270000 2 _ _ _) _ 100 160 220).
  - apply wf_grid_empty.
  - vm_compute. reflexivity.
  - vm_compute. reflexivity.
  - vm_compute. reflexivity.
Defined.

(** ** The reader: what a hit is *)

Lemma py_getitem_nonneg {A} (arr : list A) (i : Z) (x : A) :
  0 ≤ i → py_getitem arr i = Some x → arr !! Z.to_nat i = Some x.
Proof.
  intros Hi. unfold py_getitem, py_index.
  destruct (Z.leb_spec 0 i); [|lia].
  destruct (Z.ltb_spec i (Z.of_nat (length arr))); simpl; [done|].
  destruct (Z.ltb_spec i 0); [lia|]. simpl. discriminate.
Qed.

Lemma try_offsets_sound self now arr b offs v bi :
  try_offsets self now arr b offs = Some (Some (v, bi)) →
  ∃ ts off, off ∈ offs ∧ bi = (b + off) `mod` buckets ∧
    arr !! Z.to_nat bi = Some (Some v, Some ts) ∧
    neighbor_old_threshold_s self ≤ now - ts.
Proof.
  induction offs as [|off rest IH]; simpl; [discriminate|].
  destruct (py_getitem arr ((b + off) `mod` buckets)) as [[vo tso]|] eqn:Hget;
    simpl; [|discriminate].
  assert (Hrest : try_offsets self now arr b rest = Some (Some (v, bi)) →
    ∃ ts off0, off0 ∈ off :: rest ∧ bi = (b + off0) `mod` buckets ∧
      arr !! Z.to_nat bi = Some (Some v, Some ts) ∧
      neighbor_old_threshold_s self ≤ now - ts).
  { intros Hr. destruct (IH Hr) as (ts & off0 & Hin & Hrest).
    exists ts, off0. split; [by right|done]. }
  destruct vo as [vo|]; [|done]. destruct tso as [tso|]; [|done].
  destruct (Z.ltb_spec (now - tso) (neighbor_old_threshold_s self)); [done|].
  intros [= <- <-]. exists tso, off. split; [by left|]. split; [done|].
  split; [|done]. apply py_getitem_nonneg; [|done].
  apply Z.mod_pos_bound. reflexivity.
Qed.

Lemma nonempty_cell_Some self k arr :
  nonempty_cell self k = Some arr → _cells self !! k = Some arr.
Proof.
  unfold nonempty_cell. destruct (_cells self !! k) as [[|s l]|]; naive_solver.
Qed.

(** Reading a slot through the array of its cell. *)
Lemma slot_at_lookup self gy gx b arr s :
  _cells self !! (gy, gx) = Some arr → arr !! Z.to_nat b = Some s →
  slot_at self gy gx b = s.
Proof. intros Hc Hs. unfold slot_at. by rewrite Hc, Hs. Qed.

Lemma try_cell_sound self now k arr b v bi :
  nonempty_cell self k = Some arr →
  _try_cell_buckets_old self now arr b = Some (Some (v, bi)) →
  ∃ ts, slot_at self k.1 k.2 bi = (Some v, Some ts) ∧
    neighbor_old_threshold_s self ≤ now - ts ∧ 0 ≤ bi < 8.
Proof.
  intros Hc Ht. destruct k as [gy gx].
  destruct (try_offsets_sound _ _ _ _ _ _ _ Ht) as (ts & off & _ & -> & Hs & Hold).
  exists ts. split; [|split; [done|]].
  - eapply slot_at_lookup; [by apply nonempty_cell_Some|done].
  - apply Z.mod_pos_bound. reflexivity.
Qed.

Lemma scan_neighbors_sound self now b ns v gy gx bi :
  scan_neighbors self now b ns = Some (Some (v, (gy, gx, bi))) →
  ∃ ts, slot_at self gy gx bi = (Some v, Some ts) ∧
    neighbor_old_threshold_s self ≤ now - ts ∧ 0 ≤ bi < 8.
Proof.
  induction ns as [|[ny nx] rest IH]; simpl; [discriminate|].
  destruct (nonempty_cell self (ny, nx)) as [arr2|] eqn:Hc; [|done].
  destruct (_try_cell_buckets_old self now arr2 b) as [[[v2 b2]|]|] eqn:Ht;
    simpl; [|done|discriminate].
  intros [= <- <- <- <-].
  exact (try_cell_sound _ _ (ny, nx) _ _ _ _ Hc Ht).
Qed.

Lemma scan_point_sound self now b nf cy cx v gy gx bi :
  scan_point self now b nf cy cx = Some (Some (v, (gy, gx, bi))) →
  ∃ ts, slot_at self gy gx bi = (Some v, Some ts) ∧
    neighbor_old_threshold_s self ≤ now - ts ∧ 0 ≤ bi < 8.
Proof.
  unfold scan_point.
  destruct (nonempty_cell self (cy, cx)) as [arr|] eqn:Hc;
    cbn [mbind option_bind].
  - destruct (_try_cell_buckets_old self now arr b) as [[[v1 b1]|]|] eqn:Ht;
      cbn [mbind option_bind]; [| |discriminate].
    + intros [= <- <- <- <-].
      exact (try_cell_sound _ _ (cy, cx) _ _ _ _ Hc Ht).
    + destruct nf; cbn [negb]; [apply scan_neighbors_sound|discriminate].
  - destruct nf; cbn [negb]; [apply scan_neighbors_sound|discriminate].
Qed.

Section ReaderSound.
Context `{PyLib}.

Lemma scan_cands_sound self now b nf lat lon h ds v gy gx bi :
  scan_cands self now b nf lat lon h ds = Some (Some (v, (gy, gx, bi))) →
  ∃ ts, slot_at self gy gx bi = (Some v, Some ts) ∧
    neighbor_old_threshold_s self ≤ now - ts ∧ 0 ≤ bi < 8.
Proof.
  induction ds as [|d rest IH]; simpl; [discriminate|].
  destruct (project_point _ _ _ _ _ _) as [y x].
  destruct (quantize_1e4 y x) as [[cy cx]|]; simpl; [|discriminate].
  destruct (scan_point self now b nf cy cx) as [[h0|]|] eqn:Hp;
    simpl; [|done|discriminate].
  intros [= ->]. by eapply scan_point_sound.
Qed.

(** Every hit of a query is a slot that holds both a value and a
    timestamp, the timestamp being at least the threshold old. *)
Lemma query_hit_sound self now lat lon h dist nf v gy gx bi :
  query_hit self now lat lon h dist nf = Some (Some (v, (gy, gx, bi))) →
  ∃ ts, slot_at self gy gx bi = (Some v, Some ts) ∧
    neighbor_old_threshold_s self ≤ now - ts ∧ 0 ≤ bi < 8.
Proof.
  unfold query_hit. destruct (heading_to_bucket h) as [b|]; simpl; [|discriminate].
  apply scan_cands_sound.
Qed.

Lemma query_target_dist_hit self now now_ms lat lon h dist nf :
  query_target_dist self now now_ms lat lon h dist nf =
    r ← query_hit self now lat lon h dist nf;
    match r with
    | Some (v, (gy, gx, b_sel)) =>
        Some (set_last_hit self (gy, gx, b_sel, now) now_ms, v)
    | None => Some (self, zero)
    end.
Proof.
  unfold query_target_dist, query_hit.
  destruct (heading_to_bucket h); reflexivity.
Qed.

End ReaderSound.

(** ** The reader: the gate at the home cell *)

Lemma cand_ds_head (dist : float) : ∃ rest, cand_ds dist = dist :: rest.
Proof.
  unfold cand_ds. cbn [fold_left].
  repeat match goal with |- context [if ?c then _ else _] => destruct c end;
    cbn [app]; eauto.
Qed.

Lemma slot_at_present self gy gx b v ts :
  0 ≤ b →
  slot_at self gy gx b = (Some v, ts) →
  ∃ arr, nonempty_cell self (gy, gx) = Some arr ∧
    py_getitem arr b = Some (Some v, ts).
Proof.
  intros Hb. unfold slot_at, nonempty_cell.
  destruct (_cells self !! (gy, gx)) as [arr|]; [|discriminate].
  destruct (arr !! Z.to_nat b) as [s|] eqn:E; simpl; [|discriminate].
  intros ->. exists arr. split.
  - destruct arr; [by rewrite lookup_nil in E|done].
  - rewrite py_getitem_inrange; [done|].
    apply lookup_lt_Some in E. lia.
Qed.

Section Gate.
Context `{PyLib}.

Lemma query_hit_home self now lat lon h dist nf b gy gx v t :
  heading_to_bucket h = Some b →
  cell_ahead lat lon h dist = Some (gy, gx) →
  slot_at self gy gx b = (Some v, Some t) →
  neighbor_old_threshold_s self ≤ now - t →
  query_hit self now lat lon h dist nf = Some (Some (v, (gy, gx, b))).
Proof.
  intros Hb Hcell Hslot Hold.
  pose proof (heading_to_bucket_range _ _ Hb) as Hr.
  destruct (slot_at_present _ _ _ _ _ _ (proj1 Hr) Hslot) as (arr & Hc & Hget).
  unfold query_hit. rewrite Hb. cbn [mbind option_bind].
  destruct (cand_ds_head dist) as [rest ->]. cbn [scan_cands].
  unfold cell_ahead in Hcell.
  destruct (project_point _ _ _ _ _ _) as [y x]. rewrite Hcell.
  cbn [mbind option_bind]. unfold scan_point. rewrite Hc.
  unfold _try_cell_buckets_old. cbn [try_offsets].
  replace ((b + 0) `mod` buckets) with b
    by (rewrite Z.add_0_r, Z.mod_small; unfold buckets; lia).
  rewrite Hget. cbn [mbind option_bind].
  destruct (Z.ltb_spec (now - t) (neighbor_old_threshold_s self)); [lia|].
  reflexivity.
Qed.

(** C2 - The recency gate of a query.  For a slot [(gy, gx, b)] that
    holds a value [v] written at time [t], where [(gy, gx)] is the home
    cell of the query's first candidate point and [b] its bucket: the
    query hits this slot exactly when [now - t] is at least
    [neighbor_old_threshold_s]; with the default threshold of 120 s the
    query at [t + 119] does not return the slot and the same query at
    [t + 121] returns [v] from it and records it as the last hit. *)
Theorem query_recency_gate self lat lon heading_deg dist nf b gy gx v t :
  heading_to_bucket heading_deg = Some b →
  cell_ahead lat lon heading_deg dist = Some (gy, gx) →
  slot_at self gy gx b = (Some v, Some t) →
  (∀ now,
     (∃ v', query_hit self now lat lon heading_deg dist nf
              = Some (Some (v', (gy, gx, b))))
     ↔ neighbor_old_threshold_s self ≤ now - t) ∧
  (neighbor_old_threshold_s self = 120 →
   (∀ v', query_hit self (t + 119) lat lon heading_deg dist nf
            ≠ Some (Some (v', (gy, gx, b)))) ∧
   (∀ now_ms,
      query_target_dist self (t + 121) now_ms lat lon heading_deg dist nf
        = Some (set_last_hit self (gy, gx, b, t + 121) now_ms, v))).
Proof.
  intros Hb Hcell Hslot.
  assert (Hiff : ∀ now,
     (∃ v', query_hit self now lat lon heading_deg dist nf
              = Some (Some (v', (gy, gx, b))))
     ↔ neighbor_old_threshold_s self ≤ now - t).
  { intros now. split.
    - intros [v' Hq].
      destruct (query_hit_sound _ _ _ _ _ _ _ _ _ _ _ Hq) as (ts & Hs & Hold & _).
      rewrite Hslot in Hs. by injection Hs as _ ->.
    - intros Hold. exists v. by eapply query_hit_home. }
  split; [exact Hiff|]. intros Hthr. split.
  - intros v' Hq. assert (Hex := proj1 (Hiff (t + 119)) (ex_intro _ v' Hq)). lia.
  - intros now_ms. rewrite query_target_dist_hit.
    rewrite (query_hit_home self (t + 121) lat lon heading_deg dist nf b gy gx v t)
      by (try done; lia).
    reflexivity.
Qed.

End Gate.

Lemma query_recency_gate_witness :
  (∀ v', query_hit (H := TestLib.lib) demo_written 1119 (of_ratio 375 10) (of_ratio 1269999 10000)
           (of_Z 90) (of_Z 10) true
         ≠ Some (Some (v', (375000, 1270000, 2)))) ∧
  (∀ now_ms,
     query_target_dist (H := TestLib.lib) demo_written 1121 now_ms (of_ratio 375 10)
       (of_ratio 1269999 10000) (of_Z 90) (of_Z 10) true
     = Some (set_last_hit demo_written (375000, 1270000, 2, 1121) now_ms,
             of_Z 15)).
Proof.
  refine (proj2 (query_recency_gate (H := TestLib.lib) demo_written
                   (of_ratio 375 10) (of_ratio 1269999 10000) (of_Z 90)
                   (of_Z 10) true 2 375000 1270000 (of_Z 15) 1000 _ _ _) _).
  - vm_compute. reflexivity.
  - vm_compute. reflexivity.
  - vm_compute. reflexivity.
  - vm_compute. reflexivity.
Defined.

(** ** The loader *)

Section Loader.
Context `{PyLib}.

Lemma load_stored self raw :
  _params self = Some raw → raw ≠ [] →
  _load_from_params_if_exists self =
    match load_try self raw with
    | Some self' => self'
    | None => reset_deleted self
    end.
Proof.
  intros Hp Hne. unfold _load_from_params_if_exists, params_get.
  rewrite Hp. by destruct raw.
Qed.

Lemma load_object_valid self data d items restored :
  dict_get data "format" JNull = Some (JStr "v4") →
  dict_get data "dir_buckets" (JInt 8) = Some d →
  py_int_of_json d = Some 8 →
  dict_get data "cells" (JObj []) = Some (JObj items) →
  restore_cells items ∅ = Some restored →
  load_object self data = Some (set_dirty (set_cells self restored) false).
Proof.
  intros Hf Hd Hn Hc Hr. unfold load_object.
  rewrite Hf. cbn [mbind option_bind differs_from_str String.eqb Ascii.eqb
                   Bool.eqb negb].
  rewrite Hd. cbn [mbind option_bind]. rewrite Hn. cbn [mbind option_bind].
  rewrite Hc. cbn [mbind option_bind dict_items negb Z.eqb Pos.eqb].
  rewrite Hr. reflexivity.
Qed.

Lemma fix_cell_length arr fixed :
  fix_cell arr = Some fixed → length fixed = 8%nat.
Proof.
  unfold fix_cell. destruct arr as [| | | | |l|]; try by intros [= <-].
  destruct (Z.eqb_spec (Z.of_nat (length l)) 8) as [Hl|]; [|by intros [= <-]].
  intros Hm. apply mapM_Some_1, Forall2_length in Hm. lia.
Qed.

Lemma restore_cells_wf items acc restored :
  wf_grid acc → restore_cells items acc = Some restored → wf_grid restored.
Proof.
  revert acc. induction items as [|[key arr] rest IH]; intros acc Hwf; simpl.
  - by intros [= <-].
  - destruct (parse_key key) as [[gy gx]|]; simpl; [|discriminate].
    destruct (fix_cell arr) as [fixed|] eqn:Hfix; simpl; [|discriminate].
    apply IH, wf_grid_insert; [done|]. by eapply fix_cell_length.
Qed.

(** The loader establishes the grid invariant, whatever is stored. *)
Lemma load_wf self :
  wf_grid (_cells self) → wf_grid (_cells (_load_from_params_if_exists self)).
Proof.
  intros Hwf. unfold _load_from_params_if_exists, params_get.
  destruct (_params self) as [[|b0 raw]|]; [done| |done].
  destruct (load_try self (b0 :: raw)) as [self'|] eqn:Ht;
    [|apply wf_grid_empty].
  unfold load_try in Ht.
  destruct (stored_object (b0 :: raw)) as [data|]; simpl in Ht; [|discriminate].
  unfold load_object in Ht.
  destruct (dict_get data "format" JNull) as [fmt|]; simpl in Ht; [|discriminate].
  destruct (differs_from_str fmt "v4");
    [injection Ht as <-; apply wf_grid_empty|].
  destruct (dict_get data "dir_buckets" (JInt 8)) as [d|]; simpl in Ht;
    [|discriminate].
  destruct (py_int_of_json d) as [n|]; simpl in Ht; [|discriminate].
  destruct (negb (n =? 8)); [injection Ht as <-; apply wf_grid_empty|].
  destruct (dict_get data "cells" (JObj [])) as [cells|]; simpl in Ht;
    [|discriminate].
  destruct (dict_items cells) as [items|]; simpl in Ht; [|discriminate].
  destruct (restore_cells items ∅) as [restored|] eqn:Hr; simpl in Ht;
    [|discriminate].
  injection Ht as <-. cbn. eapply restore_cells_wf; [apply wf_grid_empty|done].
Qed.

End Loader.

Section HalfPresent.
Context `{PyLib}.

Lemma restore_single_cell key arr gy gx fixed :
  parse_key key = Some (gy, gx) → fix_cell arr = Some fixed →
  restore_cells [(key, arr)] ∅ = Some {[ (gy, gx) := fixed ]}.
Proof. intros Hk Hf. simpl. rewrite Hk. simpl. rewrite Hf. reflexivity. Qed.

(** C10 - A half-present slot, with a value and no timestamp, is what
    the loader builds from a stored pair such as [[5.0, null]]; and a
    query never returns a slot in which the value or the timestamp is
    absent, so the age of every value returned can be computed. *)
Theorem half_present_slot_never_returned :
  (∀ self0 raw key pairs fixed gy gx (b : nat) x,
     _params self0 = Some raw → raw ≠ [] →
     stored_object raw = Some (payload_of_cells [(key, JList pairs)]) →
     parse_key key = Some (gy, gx) →
     length pairs = 8%nat →
     mapM fix_pair pairs = Some fixed →
     pairs !! b = Some (JList [JFloat x; JNull]) →
     slot_at (_load_from_params_if_exists self0) gy gx (Z.of_nat b)
       = (Some x, None)) ∧
  (∀ self now lat lon heading_deg dist nf gy gx b v ts,
     slot_at self gy gx b = (v, ts) → v = None ∨ ts = None →
     ∀ v', query_hit self now lat lon heading_deg dist nf
             ≠ Some (Some (v', (gy, gx, b)))).
Proof.
  split.
  - intros self0 raw key pairs fixed gy gx b x Hp Hne Hobj Hkey Hlen Hmap Hb.
    rewrite (load_stored _ _ Hp Hne). unfold load_try. rewrite Hobj.
    cbn [mbind option_bind].
    assert (Hfix : fix_cell (JList pairs) = Some fixed).
    { unfold fix_cell. rewrite Hlen. exact Hmap. }
    erewrite load_object_valid;
      [| reflexivity | reflexivity | reflexivity | reflexivity
       | by apply restore_single_cell].
    unfold slot_at. cbn. rewrite lookup_singleton_eq, Nat2Z.id.
    apply mapM_Some_1 in Hmap.
    destruct (Forall2_lookup_l _ _ _ _ _ Hmap Hb) as (s & -> & Hs).
    cbn in Hs. by injection Hs as <-.
  - intros self now lat lon h dist nf gy gx b v ts Hslot Habs v' Hq.
    destruct (query_hit_sound _ _ _ _ _ _ _ _ _ _ _ Hq) as (ts' & Hs & _).
    rewrite Hslot in Hs. injection Hs as -> ->. by destruct Habs.
Qed.

End HalfPresent.

Lemma half_present_slot_never_returned_witness :
  slot_at demo_half_loaded 1 2 0 = (Some (of_Z 5), None) ∧
  ∀ now v', query_hit (H := TestLib.lib) demo_half_loaded now
              (of_ratio 1 10000) (of_ratio 2 10000) zero zero true
            ≠ Some (Some (v', (1, 2, 0))).
Proof.
  split.
  - refine (proj1 (half_present_slot_never_returned (H := TestLib.lib))
              demo_half_stored (TestLib.dumps demo_half_payload)
              "1,2"%string _ _ 1 2 0%nat (of_Z 5) _ _ _ _ _ _ _);
      [reflexivity | by vm_compute | vm_compute; reflexivity
       | vm_compute; reflexivity | reflexivity | vm_compute; reflexivity
       | reflexivity].
  - intros now.
    refine (proj2 (half_present_slot_never_returned (H := TestLib.lib))
              demo_half_loaded now _ _ _ _ _ 1 2 0 (Some (of_Z 5)) None _ _);
      [vm_compute; reflexivity | by right].
Defined.

(** ** Invalidation *)

Lemma Z_gtb_float_2 (n : Z) : 2 < n → Z_gtb_float n (of_Z 2) = true.
Proof.
  intros Hn.
  replace (of_Z 2) with (S754_finite false 4503599627370496 (-51))
    by (vm_compute; reflexivity).
  unfold Z_gtb_float, signed.
  change (0 <=? -51) with false. cbv iota.
  apply Z.ltb_lt. change (2 ^ (- -51)) with 2251799813685248. lia.
Qed.

Lemma invalidate_no_marker self now window_s action :
  _last_hit self = None →
  invalidate_last_hit self now window_s action = Some (self, false).
Proof. intros Hh. unfold invalidate_last_hit. by rewrite Hh. Qed.

Lemma invalidate_expired self now window_s action gy gx b read_ts :
  _last_hit self = Some (gy, gx, b, read_ts) →
  Z_gtb_float (now - read_ts) window_s = true →
  invalidate_last_hit self now window_s action = Some (self, false).
Proof. intros Hh Hw. unfold invalidate_last_hit. by rewrite Hh, Hw. Qed.

(** The call inside the window, on a marker whose slot exists. *)
Lemma invalidate_run self now window_s action gy gx b read_ts arr v ts :
  _last_hit self = Some (gy, gx, b, read_ts) →
  Z_gtb_float (now - read_ts) window_s = false →
  nonempty_cell self (gy, gx) = Some arr →
  0 ≤ b → arr !! Z.to_nat b = Some (v, ts) →
  invalidate_last_hit self now window_s action =
    if String.eqb action "clear" then
      Some (set_dirty (set_cells self
              (<[(gy, gx) := <[Z.to_nat b := (None, None)]> arr]> (_cells self)))
              true, true)
    else
      match v with
      | Some v0 =>
          Some (set_dirty (set_cells self
                  (<[(gy, gx) := <[Z.to_nat b := (Some v0, Some now)]> arr]>
                     (_cells self))) true, true)
      | None => Some (self, false)
      end.
Proof.
  intros Hh Hw Hc Hb Hs. unfold invalidate_last_hit. rewrite Hh, Hw, Hc.
  assert (Hin : 0 ≤ b < Z.of_nat (length arr)).
  { apply lookup_lt_Some in Hs. lia. }
  rewrite py_getitem_inrange, Hs by done. cbn [mbind option_bind].
  destruct (String.eqb action "clear").
  - by rewrite store_slot_inrange.
  - destruct v; [by rewrite store_slot_inrange|done].
Qed.

Lemma slot_at_cell self gy gx b v ts :
  slot_at self gy gx b = (Some v, ts) →
  ∃ arr, nonempty_cell self (gy, gx) = Some arr ∧
    arr !! Z.to_nat b = Some (Some v, ts).
Proof.
  unfold slot_at, nonempty_cell.
  destruct (_cells self !! (gy, gx)) as [arr|]; [|discriminate].
  destruct (arr !! Z.to_nat b) as [s|] eqn:E; simpl; [|discriminate].
  intros ->. exists arr. split; [|done].
  destruct arr; [by rewrite lookup_nil in E|done].
Qed.

Section Window.
Context `{PyLib}.

(** C8 - Window semantics of [invalidate_last_hit].  Without a last-hit
    marker, or when more than [window_s] seconds (2.0 by default) have
    passed since the recorded hit, the call returns false and leaves the
    object as it was.  Called with "clear" inside the window after a query
    that returned a value, it returns true and sets the matched slot to
    [(None, None)], so that no later query, the repeated one included,
    returns from that slot. *)
Theorem invalidate_window_semantics :
  (∀ self now window_s action,
     _last_hit self = None →
     invalidate_last_hit self now window_s action = Some (self, false)) ∧
  (∀ self now window_s action gy gx b read_ts,
     _last_hit self = Some (gy, gx, b, read_ts) →
     (Z_gtb_float (now - read_ts) window_s = true →
      invalidate_last_hit self now window_s action = Some (self, false)) ∧
     (2 < now - read_ts →
      invalidate_last_hit self now (of_Z 2) action = Some (self, false))) ∧
  (∀ self t t_ms lat lon heading_deg dist nf v gy gx b self1 now window_s,
     query_hit self t lat lon heading_deg dist nf = Some (Some (v, (gy, gx, b))) →
     query_target_dist self t t_ms lat lon heading_deg dist nf = Some (self1, v) →
     Z_gtb_float (now - t) window_s = false →
     ∃ self2,
       invalidate_last_hit self1 now window_s "clear" = Some (self2, true) ∧
       slot_at self2 gy gx b = (None, None) ∧
       _dirty self2 = true ∧
       ∀ now' v',
         query_hit self2 now' lat lon heading_deg dist nf
           ≠ Some (Some (v', (gy, gx, b)))).
Proof.
  split; [exact invalidate_no_marker|]. split.
  - intros self now window_s action gy gx b read_ts Hh. split.
    + exact (invalidate_expired _ _ _ _ gy gx b read_ts Hh).
    + intros Hlate. apply (invalidate_expired _ _ _ _ gy gx b read_ts Hh).
      by apply Z_gtb_float_2.
  - intros self t t_ms lat lon h dist nf v gy gx b self1 now window_s Hq Hrun Hw.
    destruct (query_hit_sound _ _ _ _ _ _ _ _ _ _ _ Hq) as (ts & Hs & _ & Hb).
    rewrite query_target_dist_hit, Hq in Hrun. cbn in Hrun.
    injection Hrun as <-.
    destruct (slot_at_cell _ _ _ _ _ _ Hs) as (arr & Hc & Harr).
    assert (Hin : 0 ≤ b < Z.of_nat (length arr)).
    { apply lookup_lt_Some in Harr. lia. }
    eexists. split; [|split; [|split]].
    + erewrite invalidate_run; [reflexivity|reflexivity|done|exact Hc|lia|exact Harr].
    + by apply slot_at_stored.
    + reflexivity.
    + intros now' v' Hq'.
      destruct (query_hit_sound _ _ _ _ _ _ _ _ _ _ _ Hq') as (ts' & Hs' & _).
      rewrite slot_at_stored in Hs' by done. discriminate.
Qed.

End Window.

Lemma invalidate_window_semantics_witness :
  ∃ self2,
    invalidate_last_hit demo_queried 1122 (of_Z 2) "clear" = Some (self2, true) ∧
    slot_at self2 375000 1270000 2 = (None, None) ∧
    _dirty self2 = true ∧
    ∀ now' v',
      query_hit (H := TestLib.lib) self2 now' (of_ratio 375 10)
        (of_ratio 1269999 10000) (of_Z 90) (of_Z 10) true
      ≠ Some (Some (v', (375000, 1270000, 2))).
Proof.
  refine (proj2 (proj2 (invalidate_window_semantics (H := TestLib.lib)))
            demo_written 1121 1121000 (of_ratio 375 10)
            (of_ratio 1269999 10000) (of_Z 90) (of_Z 10) true (of_Z 15)
            375000 1270000 2 demo_queried 1122 (of_Z 2) _ _ _);
    vm_compute; reflexivity.
Defined.

(** ** What the result of an invalidation reports *)

Lemma slot_at_default self gy gx arr :
  _cells self !! (gy, gx) = Some arr →
  ∀ b0, default empty_slot (arr !! Z.to_nat b0) = slot_at self gy gx b0.
Proof. intros Hc b0. unfold slot_at. by rewrite Hc. Qed.

(** C7 (as the code has it) - [invalidate_last_hit] returns true exactly
    when it wrote the marked slot: a marker is recorded, the window has
    not elapsed, the marked cell exists, and the action is "clear" or the
    slot holds a value; the object is then marked dirty, the slot becomes
    [(None, None)] for "clear" and keeps its value with the timestamp
    [now] otherwise, and no other slot changes.  When it returns false the
    object is unchanged, so every change of the grid is reported; the
    age bump of a slot without a value returns false. *)
Theorem invalidate_reports_writes self now window_s action self' r :
  wf_hit self →
  invalidate_last_hit self now window_s action = Some (self', r) →
  (r = false → self' = self) ∧
  (r = true →
     _dirty self' = true ∧
     ∃ gy gx b read_ts,
       _last_hit self = Some (gy, gx, b, read_ts) ∧
       Z_gtb_float (now - read_ts) window_s = false ∧
       is_Some (nonempty_cell self (gy, gx)) ∧
       (if String.eqb action "clear"
        then slot_at self' gy gx b = (None, None)
        else ∃ v, (slot_at self gy gx b).1 = Some v ∧
               slot_at self' gy gx b = (Some v, Some now)) ∧
       ∀ gy' gx' b', 0 ≤ b' → (gy', gx', b') ≠ (gy, gx, b) →
         slot_at self' gy' gx' b' = slot_at self gy' gx' b') ∧
  (∀ gy gx b read_ts,
     _last_hit self = Some (gy, gx, b, read_ts) →
     Z_gtb_float (now - read_ts) window_s = false →
     is_Some (nonempty_cell self (gy, gx)) →
     String.eqb action "clear" = true ∨ (slot_at self gy gx b).1 ≠ None →
     r = true) ∧
  (String.eqb action "clear" = false →
   ∀ gy gx b read_ts,
     _last_hit self = Some (gy, gx, b, read_ts) →
     (slot_at self gy gx b).1 = None → r = false).
Proof.
  intros Hwf Hrun. unfold wf_hit in Hwf. unfold invalidate_last_hit in Hrun.
  destruct (_last_hit self) as [[[[gy gx] b] read_ts]|] eqn:Hh;
    [|injection Hrun as <- <-; split_and!; done].
  destruct (Z_gtb_float (now - read_ts) window_s) eqn:Hw.
  { injection Hrun as <- <-. split_and!; try done.
    intros gy0 gx0 b0 read0 [= <- <- <- <-] Hw0. congruence. }
  destruct (nonempty_cell self (gy, gx)) as [arr|] eqn:Hc.
  2:{ injection Hrun as <- <-. split_and!; try done.
      intros gy0 gx0 b0 read0 [= <- <- <- <-] _ [arr0 Harr0]. congruence. }
  destruct (py_getitem arr b) as [[v ts]|] eqn:Hget; [|discriminate].
  cbn [mbind option_bind] in Hrun.
  assert (Harr : arr !! Z.to_nat b = Some (v, ts))
    by (apply py_getitem_nonneg; [lia|done]).
  assert (Hin : 0 ≤ b < Z.of_nat (length arr)).
  { apply lookup_lt_Some in Harr. lia. }
  pose proof (nonempty_cell_Some _ _ _ Hc) as Hcell.
  pose proof (slot_at_default _ _ _ _ Hcell) as Hdef.
  assert (Hold : slot_at self gy gx b = (v, ts)) by by eapply slot_at_lookup.
  destruct (String.eqb action "clear") eqn:Ha.
  - rewrite store_slot_inrange in Hrun by done. injection Hrun as <- <-.
    split_and!; [done| |done|done].
    intros _. split; [done|]. exists gy, gx, b, read_ts.
    split_and!; [done|done|by eexists|by apply slot_at_stored|].
    intros gy' gx' b' Hb' Hne. apply slot_at_stored_other; [done|lia|done|done].
  - destruct v as [v|].
    + rewrite store_slot_inrange in Hrun by done. injection Hrun as <- <-.
      split_and!; [done| |done|].
      * intros _. split; [done|]. exists gy, gx, b, read_ts.
        split_and!; [done|done|by eexists| |].
        -- exists v. rewrite Hold. split; [done|]. by apply slot_at_stored.
        -- intros gy' gx' b' Hb' Hne.
           apply slot_at_stored_other; [done|lia|done|done].
      * intros _ gy0 gx0 b0 read0 [= <- <- <- <-]. rewrite Hold. discriminate.
    + injection Hrun as <- <-. split_and!; try done.
      intros gy0 gx0 b0 read0 [= <- <- <- <-] _ _ [Hclear|Hval];
        [discriminate Hclear|]. by rewrite Hold in Hval.
Qed.

Lemma invalidate_reports_writes_witness :
  _dirty demo_cleared = true ∧ slot_at demo_cleared 375000 1270000 2 = (None, None).
Proof.
  destruct (invalidate_reports_writes demo_queried 1121 (of_Z 2) "clear"
              demo_cleared true) as (_ & Htrue & _).
  - vm_compute. split; [intros [=]|reflexivity].
  - vm_compute. reflexivity.
  - destruct (Htrue eq_refl) as (Hd & gy & gx & b & t & Hh & _ & _ & Hs & _).
    split; [exact Hd|].
    vm_compute in Hh. injection Hh as <- <- <- <-. exact Hs.
Defined.

(** The second of two "clear" calls inside the window returns true and
    leaves the whole object, the grid included, as it was. *)
Lemma invalidate_reports_change_counterexample :
  ¬ (∀ self now window_s action self' r,
       wf_hit self →
       invalidate_last_hit self now window_s action = Some (self', r) →
       (r = true ↔ _cells self' ≠ _cells self)).
Proof.
  intros Hall.
  assert (Hrun : invalidate_last_hit demo_cleared 1122 (of_Z 2) "clear"
                 = Some (demo_cleared, true)) by (vm_compute; reflexivity).
  assert (Hwf : wf_hit demo_cleared) 
    by (vm_compute; split; [intros [=]|reflexivity]).
  destruct (Hall _ _ _ _ _ _ Hwf Hrun) as [Hchg _].
  by apply (Hchg eq_refl).
Qed.

(** ** Repair of malformed cells *)

Section Repair.
Context `{PyLib}.

Lemma fix_pair_not_pair pair : is_pair pair = false → fix_pair pair = Some empty_slot.
Proof.
  destruct pair as [| | | | |l|]; try done.
  destruct l as [|a [|b [|c l]]]; done.
Qed.

(** C6 (as the code has it) - Per-cell repair on load.  A cell whose
    stored value is not a list of exactly 8 entries is rebuilt as 8 empty
    slots.  A cell stored as a list of exactly 8 entries is repaired entry
    by entry: an entry that is not a two-element list becomes an empty
    slot, the two-element entries keep their converted values.  Neither
    case rejects the load: the loop goes on with the remaining cells. *)
Theorem load_repairs_cells :
  (∀ arr, (∀ l, arr = JList l → length l ≠ 8%nat) →
     fix_cell arr = Some (replicate 8 empty_slot)) ∧
  (∀ l, length l = 8%nat →
     (∀ fixed, fix_cell (JList l) = Some fixed →
        length fixed = 8%nat ∧
        ∀ i pair, l !! i = Some pair →
          (is_pair pair = false → fixed !! i = Some empty_slot) ∧
          (is_pair pair = true → fix_pair pair = fixed !! i)) ∧
     ((∀ pair, pair ∈ l → is_pair pair = true → is_Some (fix_pair pair)) →
      is_Some (fix_cell (JList l)))) ∧
  (∀ key arr rest acc gy gx fixed,
     parse_key key = Some (gy, gx) → fix_cell arr = Some fixed →
     restore_cells ((key, arr) :: rest) acc
       = restore_cells rest (<[(gy, gx) := fixed]> acc)).
Proof.
  split_and!.
  - intros arr Hne. unfold fix_cell. destruct arr as [| | | | |l|]; try done.
    destruct (Z.eqb_spec (Z.of_nat (length l)) 8) as [Hl|]; [|done].
    exfalso. apply (Hne l eq_refl). lia.
  - intros l Hlen. split.
    + intros fixed Hfix. split; [by eapply fix_cell_length|].
      unfold fix_cell in Hfix. rewrite Hlen in Hfix. cbn in Hfix.
      apply mapM_Some_1 in Hfix. intros i pair Hi.
      destruct (Forall2_lookup_l _ _ _ _ _ Hfix Hi) as (s & Hs & Hp).
      split.
      * intros Hnp. rewrite (fix_pair_not_pair _ Hnp) in Hp. congruence.
      * intros _. congruence.
    + intros Hok. unfold fix_cell. rewrite Hlen. cbn.
      apply mapM_is_Some, Forall_forall. intros pair Hin. cbn.
      destruct (is_pair pair) eqn:Hp; [by apply Hok|].
      by rewrite fix_pair_not_pair.
  - intros key arr rest acc gy gx fixed Hk Hf. cbn [restore_cells].
    rewrite Hk. cbn [mbind option_bind]. rewrite Hf. reflexivity.
Qed.

End Repair.

Lemma load_repairs_cells_witness :
  fix_cell (H := TestLib.lib) (JList [JInt 1; JInt 2])
    = Some (replicate 8 empty_slot) ∧
  ∀ fixed, fix_cell (H := TestLib.lib) demo_mixed_cell = Some fixed →
    fixed !! 1%nat = Some empty_slot ∧
    fixed !! 0%nat = Some (Some (of_Z 5), Some 100).
Proof.
  destruct (load_repairs_cells (H := TestLib.lib)) as (Hshort & Hlist & _).
  split.
  - apply Hshort. intros l [= <-]. discriminate.
  - intros fixed Hfix.
    pose proof (Hlist (JList [JFloat (of_Z 5); JInt 100] :: JList [JInt 1]
                       :: replicate 6 (JList [JNull; JNull])) eq_refl)
      as [Hl _].
    destruct (Hl fixed Hfix) as [_ Hent]. split.
    + exact (proj1 (Hent 1%nat (JList [JInt 1]) eq_refl) eq_refl).
    + symmetry. exact (proj2 (Hent 0%nat _ eq_refl) eq_refl).
Defined.

(** A stored cell of 8 entries, one of which is not a pair, comes back
    with its well-formed entries: it is not rebuilt as 8 empty slots. *)
Lemma load_repairs_cells_counterexample :
  ¬ (∀ (L : PyLib) self0 raw key arr gy gx,
       _params self0 = Some raw → raw ≠ [] →
       stored_object raw = Some (payload_of_cells [(key, arr)]) →
       parse_key key = Some (gy, gx) →
       eight_pairs arr = false →
       _cells (_load_from_params_if_exists self0) !! (gy, gx)
         = Some (replicate 8 empty_slot)).
Proof.
  intros Hall.
  specialize (Hall TestLib.lib demo_mixed_stored _ "1,2"%string
                demo_mixed_cell 1 2 eq_refl).
  assert (Hload : _cells (_load_from_params_if_exists (H := TestLib.lib)
                            demo_mixed_stored) !! (1, 2)
                  = Some ((Some (of_Z 5), Some 100) :: replicate 7 empty_slot))
    by (vm_compute; reflexivity).
  rewrite Hload in Hall.
  enough (Hbad : Some ((Some (of_Z 5), Some 100) :: replicate 7 empty_slot)
                 = Some (replicate 8 empty_slot)) by discriminate.
  apply Hall; [by vm_compute | vm_compute; reflexivity
                | vm_compute; reflexivity | reflexivity].
Qed.

(** ** Foreign and corrupt payloads *)

Section Purge.
Context `{PyLib}.

Lemma load_object_foreign_format self data fmt :
  dict_get data "format" JNull = Some fmt →
  differs_from_str fmt "v4" = true →
  load_object self data = Some (reset_removed self).
Proof. intros Hf Hd. unfold load_object. rewrite Hf. cbn. by rewrite Hd. Qed.

Lemma dict_get_dict data k default v k' default' :
  dict_get data k default = Some v → is_Some (dict_get data k' default').
Proof. destruct data; try discriminate. by eexists. Qed.

Lemma load_object_foreign_buckets self data d n :
  dict_get data "dir_buckets" (JInt 8) = Some d →
  py_int_of_json d = Some n → n ≠ 8 →
  load_object self data = Some (reset_removed self).
Proof.
  intros Hd Hn Hne. unfold load_object.
  destruct (dict_get_dict _ _ _ _ "format" JNull Hd) as [fmt ->].
  cbn [mbind option_bind].
  destruct (differs_from_str fmt "v4"); [done|].
  rewrite Hd. cbn [mbind option_bind].
  rewrite Hn. cbn [mbind option_bind].
  destruct (Z.eqb_spec n 8); [done|reflexivity].
Qed.

(** C5 (as the code has it) - Purge of foreign and corrupt payloads.
    For a stored payload that is not empty, the loader ends with an empty
    grid, a clean dirty flag and the stored key deleted when any statement
    of its [try] block raises, when the format tag of the decoded object
    differs from "v4", and when [int(dir_buckets)] is an integer other
    than 8.  The loader is a total function: nothing is raised to the
    caller. *)
Theorem load_purges_foreign self raw :
  _params self = Some raw → raw ≠ [] →
  let self' := _load_from_params_if_exists self in
  let purged := _cells self' = ∅ ∧ _params self' = None ∧ _dirty self' = false in
  (load_try self raw = None → purged) ∧
  (∀ data fmt,
     stored_object raw = Some data →
     dict_get data "format" JNull = Some fmt →
     differs_from_str fmt "v4" = true → purged) ∧
  (∀ data d n,
     stored_object raw = Some data →
     dict_get data "dir_buckets" (JInt 8) = Some d →
     py_int_of_json d = Some n → n ≠ 8 → purged).
Proof.
  intros Hp Hne self' purged. subst purged self'.
  rewrite (load_stored _ _ Hp Hne). unfold load_try. split_and!.
  - by intros ->.
  - intros data fmt -> Hf Hd. cbn [mbind option_bind].
    by rewrite (load_object_foreign_format _ _ _ Hf Hd).
  - intros data d n -> Hd Hn Hne8. cbn [mbind option_bind].
    by rewrite (load_object_foreign_buckets _ _ _ _ Hd Hn Hne8).
Qed.

End Purge.

Lemma load_purges_foreign_witness :
  _cells (_load_from_params_if_exists (H := TestLib.lib) demo_v2_stored) = ∅ ∧
  _params (_load_from_params_if_exists (H := TestLib.lib) demo_v2_stored) = None ∧
  _cells (_load_from_params_if_exists (H := TestLib.lib) demo_corrupt_stored) = ∅ ∧
  _params (_load_from_params_if_exists (H := TestLib.lib) demo_corrupt_stored) = None.
Proof.
  pose proof (load_purges_foreign (H := TestLib.lib) demo_v2_stored _ eq_refl)
    as Hv2.
  pose proof (load_purges_foreign (H := TestLib.lib) demo_corrupt_stored _ eq_refl)
    as Hbad.
  cbv zeta in Hv2, Hbad.
  destruct Hv2 as (_ & Hfmt & _); [by vm_compute|].
  destruct Hbad as (Hexc & _); [by vm_compute|].
  destruct (Hfmt _ (JStr "v2") ltac:(vm_compute; reflexivity) eq_refl eq_refl)
    as (Hc & Hp & _).
  destruct (Hexc ltac:(vm_compute; reflexivity)) as (Hc' & Hp' & _).
  split_and!; assumption.
Defined.

(** A payload that declares 8.5 buckets is not purged: [int(8.5)] is 8,
    the cells are restored and the stored key is kept. *)
Lemma load_purges_foreign_counterexample :
  ¬ (∀ (L : PyLib) self raw data d,
       _params self = Some raw → raw ≠ [] →
       stored_object raw = Some data →
       dict_get data "dir_buckets" (JInt 8) = Some d →
       differs_from_8 d = true →
       _cells (_load_from_params_if_exists self) = ∅ ∧
       _params (_load_from_params_if_exists self) = None).
Proof.
  intros Hall.
  destruct (Hall TestLib.lib demo_fractional_stored _ demo_fractional_payload
              (JFloat (of_ratio 17 2)) eq_refl) as [_ Hkey].
  - by vm_compute.
  - vm_compute. reflexivity.
  - reflexivity.
  - vm_compute. reflexivity.
  - vm_compute in Hkey. discriminate.
Qed.

(** ** The cell key *)

Lemma py_split_cons (sep c : ascii) (r : string) :
  py_split sep (String c r) =
    if Ascii.eqb c sep then EmptyString :: py_split sep r
    else match py_split sep r with
         | h :: t => String c h :: t
         | [] => [String c EmptyString]
         end.
Proof. reflexivity. Qed.

Lemma py_split_no_sep_app (sep : ascii) (a b : string) :
  py_split sep a = [a] →
  py_split sep (a +:+ String sep b) = a :: py_split sep b.
Proof.
  induction a as [|c r IH]; intros Ha.
  - change (EmptyString +:+ String sep b) with (String sep b).
    by rewrite py_split_cons, Ascii.eqb_refl.
  - change (String c r +:+ String sep b) with (String c (r +:+ String sep b)).
    rewrite py_split_cons in Ha |- *. destruct (Ascii.eqb c sep); [discriminate|].
    destruct (py_split sep r) as [|h t] eqn:Hr.
    + injection Ha as <-. discriminate Hr.
    + injection Ha as -> ->. by rewrite (IH eq_refl).
Qed.

Lemma py_split_uint (d : Decimal.uint) :
  py_split "," (NilEmpty.string_of_uint d) = [NilEmpty.string_of_uint d].
Proof. induction d; cbn [NilEmpty.string_of_uint py_split]; [done|..]; by rewrite IHd. Qed.

Lemma py_split_int (z : Z) : py_split "," (py_str_of_int z) = [py_str_of_int z].
Proof.
  unfold py_str_of_int.
  assert (Hu : ∀ d, py_split "," (NilZero.string_of_uint d)
                    = [NilZero.string_of_uint d]).
  { intros d. destruct d; try apply py_split_uint. reflexivity. }
  destruct (Z.to_int z) as [d|d]; cbn [NilZero.string_of_int].
  - apply Hu.
  - cbn [py_split]. change (Ascii.eqb "-" ",") with false. cbv iota.
    by rewrite Hu.
Qed.

Lemma py_split_cell_key (gy gx : Z) :
  py_split "," (cell_key gy gx) = [py_str_of_int gy; py_str_of_int gx].
Proof.
  unfold cell_key.
  change ("," +:+ py_str_of_int gx) with (String "," (py_str_of_int gx)).
  rewrite py_split_no_sep_app by apply py_split_int.
  by rewrite py_split_int.
Qed.

(** ** Round trip of the codec *)

Section RoundTrip.
Context `{PyLib}.
Hypothesis int_of_str_of_int : ∀ z, int_of_str (py_str_of_int z) = Some z.

Lemma parse_cell_key (gy gx : Z) : parse_key (cell_key gy gx) = Some (gy, gx).
Proof.
  unfold parse_key. rewrite py_split_cell_key.
  by rewrite !int_of_str_of_int.
Qed.

Lemma fix_pair_slot_json (s : slot) : fix_pair (slot_json s) = Some s.
Proof. by destruct s as [[v|] [ts|]]. Qed.

Lemma fix_cell_slots (arr : list slot) :
  length arr = 8%nat → fix_cell (JList (slot_json <$> arr)) = Some arr.
Proof.
  intros Hlen. unfold fix_cell. rewrite length_fmap, Hlen. cbn.
  apply mapM_fmap_Some, fix_pair_slot_json.
Qed.

Lemma restore_cells_encoded (l : list (Z * Z * list slot)) acc :
  Forall (λ kv, length kv.2 = 8%nat) l →
  restore_cells (cell_json <$> l) acc
    = Some (foldl (λ m kv, <[kv.1 := kv.2]> m) acc l).
Proof.
  intros Hl. revert acc.
  induction Hl as [|[[gy gx] arr] l Harr _ IH]; intros acc; [done|].
  cbn [fmap list_fmap cell_json restore_cells fst snd foldl].
  rewrite parse_cell_key. cbn [mbind option_bind].
  rewrite fix_cell_slots by done. cbn [mbind option_bind]. apply IH.
Qed.

End RoundTrip.

Lemma foldl_insert_list_to_map {V} (l : list (Z * Z * V)) (acc : gmap (Z * Z) V) :
  NoDup (l.*1) →
  foldl (λ m kv, <[kv.1 := kv.2]> m) acc l = list_to_map l ∪ acc.
Proof.
  revert acc. induction l as [|[k v] l IH]; intros acc Hnd; cbn [foldl].
  - by rewrite list_to_map_nil, (left_id_L ∅ (∪)).
  - cbn in Hnd. apply NoDup_cons in Hnd as [Hk Hnd].
    rewrite IH by done. rewrite list_to_map_cons. cbn [fst snd].
    rewrite <- insert_union_l.
    by rewrite insert_union_r by by apply not_elem_of_list_to_map_1.
Qed.

Lemma restore_payload_cells `{PyLib} (cells : gmap (Z * Z) (list slot)) :
  (∀ z, int_of_str (py_str_of_int z) = Some z) →
  wf_grid cells →
  restore_cells (cell_json <$> map_to_list cells) ∅ = Some cells.
Proof.
  intros Hint Hwf. rewrite restore_cells_encoded; [|done|].
  - rewrite foldl_insert_list_to_map by apply NoDup_fst_map_to_list.
    by rewrite list_to_map_to_list, (right_id_L ∅ (∪)).
  - apply Forall_forall. intros [k arr] Hin.
    apply elem_of_map_to_list in Hin. by eapply wf_grid_lookup.
Qed.

Section RoundTripTheorem.
Context `{PyLib}.

Lemma load_payload_obj self self0 :
  (∀ z, int_of_str (py_str_of_int z) = Some z) →
  wf_grid (_cells self) →
  load_object self0 (payload_obj self)
    = Some (set_dirty (set_cells self0 (_cells self)) false).
Proof.
  intros Hint Hwf. unfold payload_obj, payload_of_cells.
  eapply load_object_valid; try reflexivity.
  by apply restore_payload_cells.
Qed.

(** C4 - Round trip of the persistence codec.  Under the contract of the
    libraries (decimal integers are read back by [int], the JSON text of
    the payload object is not empty, does not start with the gzip magic
    number and is decoded to the same object, a compressed text starts
    with the magic number and decompresses to the text), the bytes that
    [_encode_payload] produces for a well-formed grid, compressed or not,
    are loaded into an identical grid: the same cells with the same 8
    slots each, values and timestamps equal. *)
Theorem encode_load_roundtrip self payload self0 :
  wf_grid (_cells self) →
  (∀ z, int_of_str (py_str_of_int z) = Some z) →
  json_loads (json_dumps (payload_obj self)) = Some (payload_obj self) →
  json_dumps (payload_obj self) ≠ [] →
  _is_gzip (json_dumps (payload_obj self)) = false →
  (∀ c, gzip_compress (json_dumps (payload_obj self)) (gzip_level self) = Some c →
        _is_gzip c = true ∧
        gzip_decompress c = Some (json_dumps (payload_obj self))) →
  _encode_payload self = Some payload →
  _params self0 = Some payload →
  let self' := _load_from_params_if_exists self0 in
  _cells self' = _cells self ∧ wf_grid (_cells self') ∧ _dirty self' = false.
Proof.
  intros Hwf Hint Hjson Hne Hplain Hgz Henc Hp self'. subst self'.
  assert (Hobj : stored_object payload = Some (payload_obj self) ∧ payload ≠ []).
  { unfold _encode_payload in Henc. unfold stored_object.
    destruct (use_gzip self).
    - destruct (Hgz _ Henc) as [Hmagic Hdec]. rewrite Hmagic, Hdec.
      split; [done|]. intros ->. discriminate.
    - injection Henc as <-. by rewrite Hplain. }
  destruct Hobj as [Hobj Hne'].
  rewrite (load_stored _ _ Hp Hne'). unfold load_try. rewrite Hobj.
  cbn [mbind option_bind]. rewrite (load_payload_obj _ _ Hint Hwf).
  by split_and!.
Qed.

End RoundTripTheorem.

Lemma TestLib_int_of_str_of_int (z : Z) :
  TestLib.int_of_string (py_str_of_int z) = Some z.
Proof.
  unfold TestLib.int_of_string, py_str_of_int.
  rewrite NilZero.isi.
  - cbn. by rewrite DecimalZ.of_to.
  - destruct z; [done|cbn|done].
    intros [= Hp]. by apply DecimalPos.Unsigned.to_uint_nonnil in Hp.
  - destruct z; [done|done|cbn].
    intros [= Hp]. by apply DecimalPos.Unsigned.to_uint_nonnil in Hp.
Qed.

Lemma encode_load_roundtrip_witness :
  _cells (_load_from_params_if_exists (H := TestLib.lib)
            (set_params fresh (Some demo_saved_bytes)))
    = _cells demo_written.
Proof.
  refine (proj1 (encode_load_roundtrip (H := TestLib.lib) demo_written
                   demo_saved_bytes (set_params fresh (Some demo_saved_bytes))
                   _ _ _ _ _ _ _ _)).
  - unfold wf_grid.
    refine (bool_decide_unpack (map_Forall _ (_cells demo_written)) _).
    vm_compute. reflexivity.
  - exact TestLib_int_of_str_of_int.
  - vm_compute. reflexivity.
  - by vm_compute.
  - vm_compute. reflexivity.
  - intros c Hc. vm_compute in Hc. injection Hc as <-.
    split; vm_compute; reflexivity.
  - vm_compute. reflexivity.
  - reflexivity.
Defined.

(** ** The search order *)

Lemma first_passing_app self now l1 l2 :
  first_passing self now (l1 ++ l2) =
    match first_passing self now l1 with
    | Some h => Some h
    | None => first_passing self now l2
    end.
Proof.
  induction l1 as [|p l1 IH]; cbn [app first_passing]; [done|].
  by destruct (passes self now p).
Qed.

(** The probes of one cell, in the order of the offsets tried. *)
Lemma try_offsets_first_passing self now gy gx arr b offs :
  _cells self !! (gy, gx) = Some arr → length arr = 8%nat →
  try_offsets self now arr b offs =
    Some ((λ h : hit, (h.1, h.2.2)) <$>
          first_passing self now
            ((λ off, (gy, gx, (b + off) `mod` buckets)) <$> offs)).
Proof.
  intros Hc Hlen. induction offs as [|off rest IH];
    cbn [try_offsets fmap list_fmap first_passing]; [done|].
  set (bi := (b + off) `mod` buckets).
  assert (Hbi : 0 ≤ bi < 8) by (apply Z.mod_pos_bound; reflexivity).
  rewrite py_getitem_inrange by lia.
  destruct (arr !! Z.to_nat bi) as [[v ts]|] eqn:Hs;
    [|apply lookup_ge_None in Hs; lia].
  cbn [mbind option_bind]. unfold passes. cbn [fst snd].
  rewrite (slot_at_lookup _ _ _ _ _ _ Hc Hs).
  destruct v as [v|]; [|exact IH]. destruct ts as [ts|]; [|exact IH].
  rewrite Z.ltb_antisym.
  destruct (neighbor_old_threshold_s self <=? now - ts); [done|exact IH].
Qed.

Lemma first_passing_absent self now gy gx bs :
  _cells self !! (gy, gx) = None →
  first_passing self now ((λ bi, (gy, gx, bi)) <$> bs) = None.
Proof.
  intros Hc. induction bs as [|bi bs IH]; cbn [fmap list_fmap first_passing];
    [done|].
  unfold passes, slot_at. cbn [fst snd]. by rewrite Hc.
Qed.

Lemma spec_buckets_offsets (gy gx b : Z) :
  (λ off, (gy, gx, (b + off) `mod` buckets)) <$> [0; -1; 1]
  = (λ bi, (gy, gx, bi)) <$> spec_buckets b.
Proof.
  unfold spec_buckets, buckets. cbn [fmap list_fmap].
  by rewrite Z.add_0_r.
Qed.

(** The bucket search of one cell, present or not. *)
Lemma cell_search self now b gy gx :
  wf_grid (_cells self) →
  match nonempty_cell self (gy, gx) with
  | Some arr => _try_cell_buckets_old self now arr b
  | None => Some None
  end
  = Some ((λ h : hit, (h.1, h.2.2)) <$>
          first_passing self now ((λ bi, (gy, gx, bi)) <$> spec_buckets b)).
Proof.
  intros Hwf. unfold nonempty_cell.
  destruct (_cells self !! (gy, gx)) as [arr|] eqn:Hc.
  - pose proof (wf_grid_lookup _ _ _ Hwf Hc) as Hlen.
    destruct arr as [|s arr]; [discriminate|].
    unfold _try_cell_buckets_old.
    rewrite (try_offsets_first_passing _ _ gy gx) by done.
    by rewrite spec_buckets_offsets.
  - by rewrite first_passing_absent.
Qed.

Lemma first_passing_cell self now gy gx bs v p :
  first_passing self now ((λ bi, (gy, gx, bi)) <$> bs) = Some (v, p) →
  p = (gy, gx, p.2).
Proof.
  induction bs as [|bi bs IH]; cbn [fmap list_fmap first_passing];
    [discriminate|].
  destruct (passes self now (gy, gx, bi)); [by intros [= <- <-]|exact IH].
Qed.

Lemma scan_neighbors_first_passing self now b ns :
  wf_grid (_cells self) →
  scan_neighbors self now b ns =
    Some (first_passing self now
            (c ← ns; (λ bi, (c.1, c.2, bi)) <$> spec_buckets b)).
Proof.
  intros Hwf. induction ns as [|[ny nx] rest IH]; [done|].
  cbn [scan_neighbors mbind list_bind fst snd]. rewrite first_passing_app.
  pose proof (cell_search self now b ny nx Hwf) as Hcell.
  destruct (nonempty_cell self (ny, nx)) as [arr2|].
  - rewrite Hcell. cbn [mbind option_bind].
    destruct (first_passing self now ((λ bi, (ny, nx, bi)) <$> spec_buckets b))
      as [[v p]|] eqn:Hf; cbn [fmap option_fmap option_map].
    + pose proof (first_passing_cell _ _ _ _ _ _ _ Hf) as Hp.
      destruct p as [[py px] pb]. by injection Hp as -> ->.
    + exact IH.
  - destruct (first_passing self now ((λ bi, (ny, nx, bi)) <$> spec_buckets b))
      as [[v p]|] eqn:Hf; [discriminate Hcell|exact IH].
Qed.

Lemma neighbors_8_spec (gy gx : Z) :
  _neighbors_8 gy gx =
    [(gy - 1, gx - 1); (gy - 1, gx); (gy - 1, gx + 1);
     (gy, gx - 1); (gy, gx + 1);
     (gy + 1, gx - 1); (gy + 1, gx); (gy + 1, gx + 1)].
Proof.
  unfold _neighbors_8. cbn [mbind list_bind app Z.eqb andb].
  by rewrite !Z.add_0_r.
Qed.

Lemma scan_point_first_passing self now b nf gy gx :
  wf_grid (_cells self) →
  scan_point self now b nf gy gx =
    Some (first_passing self now (spec_probes b nf gy gx)).
Proof.
  intros Hwf. unfold scan_point. rewrite (cell_search self now b gy gx Hwf).
  cbn [mbind option_bind].
  unfold spec_probes, spec_cells. cbn [mbind list_bind fst snd].
  change (λ c : Z * Z, spec_buckets b ≫= λ bi, [(c.1, c.2, bi)])
    with (λ c : Z * Z, (λ bi, (c.1, c.2, bi)) <$> spec_buckets b).
  change (spec_buckets b ≫= λ bi, [(gy, gx, bi)])
    with ((λ bi, (gy, gx, bi)) <$> spec_buckets b).
  rewrite first_passing_app.
  destruct (first_passing self now ((λ bi, (gy, gx, bi)) <$> spec_buckets b))
    as [[v p]|] eqn:Hf; cbn [fmap option_fmap option_map].
  - pose proof (first_passing_cell _ _ _ _ _ _ _ Hf) as Hp.
    destruct p as [[py px] pb]. by injection Hp as -> ->.
  - destruct nf; cbn [negb]; [|done].
    rewrite scan_neighbors_first_passing by done.
    by rewrite neighbors_8_spec.
Qed.

Section SearchOrder.
Context `{PyLib}.

Lemma scan_cands_spec_scan self now b nf lat lon h ds :
  wf_grid (_cells self) →
  scan_cands self now b nf lat lon h ds = spec_scan self now b nf lat lon h ds.
Proof.
  intros Hwf. induction ds as [|d rest IH]; [done|].
  cbn [scan_cands spec_scan]. unfold cell_ahead.
  destruct (project_point _ _ _ _ _ _) as [y x].
  destruct (quantize_1e4 y x) as [[gy gx]|]; [|done].
  cbn [mbind option_bind]. rewrite scan_point_first_passing by done.
  cbn [mbind option_bind].
  by destruct (first_passing self now (spec_probes b nf gy gx)).
Qed.

(** A candidate whose point was already searched changes nothing. *)
Lemma spec_scan_repeated self now b nf lat lon h d pre x post :
  cell_ahead lat lon h x = cell_ahead lat lon h d →
  spec_scan self now b nf lat lon h (d :: pre ++ x :: post)
  = spec_scan self now b nf lat lon h (d :: pre ++ post).
Proof.
  intros Hx. cbn [spec_scan].
  destruct (cell_ahead lat lon h d) as [[gy gx]|] eqn:Hd; [|done].
  cbn [mbind option_bind].
  destruct (first_passing self now (spec_probes b nf gy gx)) eqn:Hf; [done|].
  induction pre as [|p pre IH]; cbn [app spec_scan].
  - rewrite Hx. cbn [mbind option_bind]. by rewrite Hf.
  - destruct (cell_ahead lat lon h p) as [[py px]|]; [|done].
    cbn [mbind option_bind].
    by destruct (first_passing self now (spec_probes b nf py px)).
Qed.

End SearchOrder.

(** ** The candidate distances *)

(** A candidate [d + k] that the code leaves out, because it is not
    [>= 0], projects to the point of [d] itself: both distances are
    [<= 0], or both are NaN. *)
Lemma project_point_skipped c s lat lon h d mk ek :
  fgeb (fadd d (S754_finite false mk ek)) zero = false →
  project_point c s lat lon h (fadd d (S754_finite false mk ek))
  = project_point c s lat lon h d.
Proof.
  intros Hneg. destruct d as [sd|sd| |sd md ed]; try reflexivity.
  - discriminate Hneg.
  - destruct sd; [|by rewrite fadd_pos_pos in Hneg].
    pose proof (fadd_finite_not_nan true md ed false mk ek) as Hnan.
    unfold project_point.
    destruct (fadd (S754_finite true md ed) (S754_finite false mk ek))
      as [sr|sr| |sr mr er]; [discriminate Hneg| |done|];
      destruct sr; try discriminate Hneg; reflexivity.
Qed.

Lemma cand_ds_unfold (d : float) :
  cand_ds d =
    d :: (if fgeb (fadd d (of_Z 3)) zero then [fadd d (of_Z 3)] else [])
      ++ (if fgeb (fadd d (of_Z (-3))) zero then [fadd d (of_Z (-3))] else [])
      ++ (if fgeb (fadd d (of_Z 6)) zero then [fadd d (of_Z 6)] else [])
      ++ (if fgeb (fadd d (of_Z (-6))) zero then [fadd d (of_Z (-6))] else []).
Proof.
  unfold cand_ds. cbn [fold_left].
  destruct (fgeb (fadd d (of_Z 3)) zero), (fgeb (fadd d (of_Z (-3))) zero),
    (fgeb (fadd d (of_Z 6)) zero), (fgeb (fadd d (of_Z (-6))) zero);
    reflexivity.
Qed.

Lemma spec_cand_ds_unfold (d : float) :
  spec_cand_ds d =
    d :: fadd d (of_Z 3)
      :: (if fgeb (fadd d (of_Z (-3))) zero then [fadd d (of_Z (-3))] else [])
      ++ fadd d (of_Z 6)
      :: (if fgeb (fadd d (of_Z (-6))) zero then [fadd d (of_Z (-6))] else []).
Proof.
  unfold spec_cand_ds.
  change (of_Z 3) with (S754_finite false 6755399441055744 (-51)).
  change (of_Z 6) with (S754_finite false 6755399441055744 (-50)).
  rewrite !fsub_as_fadd. reflexivity.
Qed.

(** From a distance that is not negative, the code builds the list of
    the specification. *)
Lemma cand_ds_nonneg (d : float) :
  fgeb d zero = true → cand_ds d = spec_cand_ds d.
Proof.
  intros Hd. rewrite cand_ds_unfold, spec_cand_ds_unfold.
  assert (Hk : ∀ mk ek, fgeb (fadd d (S754_finite false mk ek)) zero = true).
  { intros mk ek. destruct d as [sd|sd| |sd md ed]; try destruct sd;
      try discriminate Hd; try reflexivity. apply fadd_pos_pos. }
  change (of_Z 3) with (S754_finite false 6755399441055744 (-51)).
  change (of_Z 6) with (S754_finite false 6755399441055744 (-50)).
  by rewrite !Hk.
Qed.

Section SearchTheorem.
Context `{PyLib}.

Lemma cell_ahead_skipped lat lon h d mk ek :
  fgeb (fadd d (S754_finite false mk ek)) zero = false →
  cell_ahead lat lon h (fadd d (S754_finite false mk ek))
  = cell_ahead lat lon h d.
Proof.
  intros Hneg. unfold cell_ahead. by rewrite project_point_skipped.
Qed.

Lemma spec_scan_cand_ds self now b nf lat lon h d :
  spec_scan self now b nf lat lon h (cand_ds d)
  = spec_scan self now b nf lat lon h (spec_cand_ds d).
Proof.
  rewrite cand_ds_unfold, spec_cand_ds_unfold.
  change (of_Z 3) with (S754_finite false 6755399441055744 (-51)).
  change (of_Z 6) with (S754_finite false 6755399441055744 (-50)).
  set (a3 := fadd d (S754_finite false 6755399441055744 (-51))).
  set (a6 := fadd d (S754_finite false 6755399441055744 (-50))).
  set (s3 := fadd d (of_Z (-3))). set (s6 := fadd d (of_Z (-6))).
  pose proof (cell_ahead_skipped lat lon h d 6755399441055744 (-51)) as C3.
  pose proof (cell_ahead_skipped lat lon h d 6755399441055744 (-50)) as C6.
  fold a3 in C3. fold a6 in C6.
  destruct (fgeb a3 zero), (fgeb s3 zero), (fgeb a6 zero), (fgeb s6 zero);
    cbn [app]; try reflexivity; symmetry;
    first
      [ exact (spec_scan_repeated self now b nf lat lon h d [] a3 _ (C3 eq_refl))
      | exact (spec_scan_repeated self now b nf lat lon h d [a3] a6 _ (C6 eq_refl))
      | exact (spec_scan_repeated self now b nf lat lon h d [a3; s3] a6 _
                 (C6 eq_refl))
      | etrans;
        [ exact (spec_scan_repeated self now b nf lat lon h d [] a3 _ (C3 eq_refl))
        | first
            [ exact (spec_scan_repeated self now b nf lat lon h d [] a6 _
                       (C6 eq_refl))
            | exact (spec_scan_repeated self now b nf lat lon h d [s3] a6 _
                       (C6 eq_refl)) ] ] ].
Qed.

(** C3 - The forward search of a query.  [query_target] is the search by
    distance with [d = max(0, v_ego * lookahead_s)], and from such a
    distance, as from every distance that is not negative, the candidate
    distances are exactly [d, d+3, d-3 (if >= 0), d+6, d-6 (if >= 0)].
    For every distance the query returns what the search of the
    specification returns: candidates in that order, at each point the
    home cell then (with the fallback) the 8 adjacent cells row by row, in
    each cell the buckets [b, b-1, b+1] modulo 8, the first value that
    passes the gate, and exactly 0.0 when every candidate is exhausted. *)
Theorem query_search_order self now now_ms lat lon heading_deg nf :
  wf_grid (_cells self) →
  (∀ v_ego lookahead_s,
     let d := py_max zero (fmul v_ego lookahead_s) in
     query_target self now now_ms lat lon heading_deg v_ego lookahead_s nf
       = query_target_dist self now now_ms lat lon heading_deg d nf ∧
     cand_ds d = spec_cand_ds d) ∧
  (∀ dist, fgeb dist zero = true → cand_ds dist = spec_cand_ds dist) ∧
  (∀ dist,
     query_target_dist self now now_ms lat lon heading_deg dist nf
       = spec_query_target_dist self now now_ms lat lon heading_deg dist nf) ∧
  (∀ dist b,
     heading_to_bucket heading_deg = Some b →
     spec_scan self now b nf lat lon heading_deg (spec_cand_ds dist) = Some None →
     query_target_dist self now now_ms lat lon heading_deg dist nf
       = Some (self, zero)).
Proof.
  intros Hwf.
  assert (Hspec : ∀ dist,
     query_target_dist self now now_ms lat lon heading_deg dist nf
       = spec_query_target_dist self now now_ms lat lon heading_deg dist nf).
  { intros dist. unfold query_target_dist, spec_query_target_dist.
    destruct (heading_to_bucket heading_deg) as [b|]; [|done].
    cbn [mbind option_bind].
    by rewrite scan_cands_spec_scan, spec_scan_cand_ds. }
  split_and!.
  - intros v_ego lookahead_s d. split; [reflexivity|].
    apply cand_ds_nonneg, py_max_zero_nonneg.
  - exact cand_ds_nonneg.
  - exact Hspec.
  - intros dist b Hb Hnone. rewrite Hspec. unfold spec_query_target_dist.
    rewrite Hb. cbn [mbind option_bind]. by rewrite Hnone.
Qed.

End SearchTheorem.

Lemma query_search_order_witness :
  query_target (H := TestLib.lib) demo_written 1121 1121000
    (of_ratio 3749991 100000) (of_Z 127) (of_Z 90) (of_Z 5) (of_Z 2) true
  = spec_query_target_dist (H := TestLib.lib) demo_written 1121 1121000
      (of_ratio 3749991 100000) (of_Z 127) (of_Z 90) (of_Z 10) true.
Proof.
  assert (Hwf : wf_grid (_cells demo_written)).
  { unfold wf_grid.
    refine (bool_decide_unpack (map_Forall _ (_cells demo_written)) _).
    vm_compute. reflexivity. }
  destruct (query_search_order (H := TestLib.lib) demo_written 1121 1121000
              (of_ratio 3749991 100000) (of_Z 127) (of_Z 90) true Hwf)
    as (Hq & _ & Hs & _).
  rewrite (proj1 (Hq (of_Z 5) (of_Z 2))). exact (Hs _).
Defined.

(** ** The end-to-end scenario of the specification

    A sample of 15.0 written at 37.5 N, 127.0 E, heading east, is found
    121 s later from a point just behind, 10 m ahead on the same heading:
    the home cell of the candidate is a neighbour of the written cell.  A
    query along the opposite heading, one kilometre away, finds nothing. *)

Example end_to_end_neighbor_hit :
  query_target_dist (H := TestLib.lib) demo_written 1121 1121000
    (of_ratio 3749991 100000) (of_Z 127) (of_Z 90) (of_Z 10) true
  = Some (set_last_hit demo_written (375000, 1270000, 2, 1121) 1121000,
          of_Z 15).
Proof. vm_compute. reflexivity. Qed.

Example end_to_end_no_data :
  query_target_dist (H := TestLib.lib) demo_written 1121 1121000
    (of_ratio 3749991 100000) (of_Z 127) (of_Z 270) (of_Z 1000) true
  = Some (demo_written, zero).
Proof. vm_compute. reflexivity. Qed.

Example heading_buckets :
  heading_to_bucket zero = Some 0 ∧
  heading_to_bucket (of_Z 90) = Some 2 ∧
  heading_to_bucket (of_ratio 3599999 10000) = Some 7 ∧
  heading_to_bucket (of_Z (-10)) = Some 7 ∧
  heading_to_bucket S754_nan = None.
Proof. vm_compute. done. Qed.

Example round1_examples :
  round1 (of_Z 5) = of_Z 5 ∧
  round1 (of_ratio 1 4) = of_ratio 2 10 ∧
  round1 (of_ratio 35 100) = of_ratio 3 10 ∧
  round1 (of_ratio (-4) 100) = S754_zero true.
Proof. vm_compute. done. Qed.

(** ** The invariants along every operation

    The constructor establishes that every cell has 8 slots and that the
    last-hit marker names one of the 8 buckets; every operation keeps
    both. *)

Lemma store_slot_wf self gy gx arr b x self' :
  wf_grid (_cells self) → length arr = 8%nat →
  store_slot self gy gx arr b x = Some self' →
  wf_grid (_cells self') ∧ _last_hit self' = _last_hit self.
Proof.
  intros Hwf Hlen. unfold store_slot.
  destruct (py_setitem arr b x) as [arr'|] eqn:Hset; [|discriminate].
  intros [= <-]. split; [|done]. cbn. apply wf_grid_insert; [done|].
  by rewrite (py_setitem_length _ _ _ _ Hset).
Qed.

Lemma add_sample_invariant self now lat lon h speed self' :
  wf_grid (_cells self) →
  add_sample self now lat lon h speed = Some self' →
  wf_grid (_cells self') ∧ _last_hit self' = _last_hit self.
Proof.
  intros Hwf Hrun.
  destruct (feqb (round1 speed) zero) eqn:Hz.
  { rewrite add_sample_zero_step in Hrun by done. by injection Hrun as <-. }
  destruct (quantize_1e4 lat lon) as [[gy gx]|] eqn:Hq;
    [|unfold add_sample in Hrun; by rewrite Hz, Hq in Hrun].
  destruct (heading_to_bucket h) as [b|] eqn:Hb;
    [|unfold add_sample in Hrun; by rewrite Hz, Hq, Hb in Hrun].
  destruct (add_sample_run self now lat lon h speed gy gx b Hwf Hq Hb Hz)
    as (arr & Hlen & _ & Heq).
  rewrite Heq in Hrun. injection Hrun as <-. split; [|done].
  cbn. apply wf_grid_insert; [done|]. by rewrite length_insert.
Qed.

Lemma invalidate_invariant self now window_s action self' r :
  wf_grid (_cells self) →
  invalidate_last_hit self now window_s action = Some (self', r) →
  wf_grid (_cells self') ∧ _last_hit self' = _last_hit self.
Proof.
  intros Hwf. unfold invalidate_last_hit.
  destruct (_last_hit self) as [[[[gy gx] b] read_ts]|] eqn:Hh;
    [|by intros [= <- <-]; rewrite Hh].
  destruct (Z_gtb_float (now - read_ts) window_s);
    [by intros [= <- <-]; rewrite Hh|].
  destruct (nonempty_cell self (gy, gx)) as [arr|] eqn:Hc;
    [|by intros [= <- <-]; rewrite Hh].
  pose proof (wf_grid_lookup _ _ _ Hwf (nonempty_cell_Some _ _ _ Hc)) as Hlen.
  destruct (py_getitem arr b) as [[v ts]|]; [|discriminate].
  cbn [mbind option_bind].
  assert (Hstore : ∀ x,
    (self0 ← store_slot self gy gx arr b x; Some (set_dirty self0 true, true))
      = Some (self', r) →
    wf_grid (_cells self') ∧ _last_hit self' = Some (gy, gx, b, read_ts)).
  { intros x. destruct (store_slot self gy gx arr b x) as [self0|] eqn:Hs;
      [|discriminate].
    destruct (store_slot_wf _ _ _ _ _ _ _ Hwf Hlen Hs) as [Hwf0 Hh0].
    intros [= <- <-]. cbn. split; [done|]. by rewrite Hh0. }
  destruct (String.eqb action "clear"); [apply Hstore|].
  destruct v; [apply Hstore|]. by intros [= <- <-]; rewrite Hh.
Qed.

Section Invariants.
Context `{PyLib}.

Lemma query_target_dist_invariant self now now_ms lat lon h dist nf self' v :
  wf_hit self →
  query_target_dist self now now_ms lat lon h dist nf = Some (self', v) →
  _cells self' = _cells self ∧ _dirty self' = _dirty self ∧ wf_hit self'.
Proof.
  intros Hhit. rewrite query_target_dist_hit.
  destruct (query_hit self now lat lon h dist nf) as [[[v0 [[gy gx] b]]|]|] eqn:Hq;
    [| |discriminate]; intros [= <- <-]; [|done].
  destruct (query_hit_sound _ _ _ _ _ _ _ _ _ _ _ Hq) as (ts & _ & _ & Hb).
  split_and!; done.
Qed.

Lemma init_invariant store ring threshold_s gz level :
  wf_grid (_cells (init store ring threshold_s gz level)) ∧
  wf_hit (init store ring threshold_s gz level).
Proof.
  split; [|done]. unfold init. cbn. apply load_wf, wf_grid_empty.
Qed.

Lemma save_invariant self now self' :
  save self now = Some self' →
  _cells self' = _cells self ∧ _last_hit self' = _last_hit self ∧
  _dirty self' = false.
Proof.
  unfold save. destruct (_encode_payload self); [|discriminate].
  by intros [= <-].
Qed.

End Invariants.

(** * Further properties of the module *)

(** ** The quantizer *)

(** X1 - [heading_to_bucket] returns one of the 8 buckets whenever it
    returns, and raises on a NaN or infinite heading. *)
Theorem heading_to_bucket_bounds (heading_deg : float) :
  (∀ b, heading_to_bucket heading_deg = Some b → 0 ≤ b ≤ 7) ∧
  (not_finite heading_deg = true → heading_to_bucket heading_deg = None).
Proof.
  split.
  - intros b. unfold heading_to_bucket.
    destruct (py_int _) as [i|]; cbn [mbind option_bind]; [|discriminate].
    intros [= <-]. destruct (Z.ltb_spec i 0); [lia|].
    destruct (Z.ltb_spec 7 i); lia.
  - destruct heading_deg as [s|[]| |s m e]; try discriminate;
      intros _; vm_compute; reflexivity.
Qed.

(** X2 - [quantize_1e4] raises when the latitude or the longitude is a NaN
    or an infinity: such a position never reaches the grid. *)
Theorem quantize_1e4_not_finite (lat lon : float) :
  not_finite lat = true ∨ not_finite lon = true →
  quantize_1e4 lat lon = None.
Proof.
  assert (Hraise : ∀ x, not_finite x = true →
            py_floor (fmul x (of_Z 10000)) = None).
  { intros x Hx. destruct x as [s|[]| |s m e]; try discriminate; reflexivity. }
  intros [Hlat|Hlon]; unfold quantize_1e4.
  - by rewrite (Hraise _ Hlat).
  - rewrite (Hraise _ Hlon). by destruct (py_floor (fmul lat (of_Z 10000))).
Qed.

Lemma quantize_1e4_not_finite_witness :
  quantize_1e4 S754_nan (of_Z 127) = None ∧
  quantize_1e4 (of_ratio 375 10) (S754_infinity true) = None.
Proof.
  split; apply quantize_1e4_not_finite; [left|right]; reflexivity.
Defined.

(** ** Neighbour cells *)

(** X3 - [_neighbors_8] yields 8 distinct cells: exactly the cells other
    than [(gy, gx)] whose two coordinates differ from it by at most 1. *)
Theorem neighbors_8_adjacent (gy gx : Z) :
  length (_neighbors_8 gy gx) = 8%nat ∧
  NoDup (_neighbors_8 gy gx) ∧
  ∀ c : Z * Z,
    c ∈ _neighbors_8 gy gx ↔
    c ≠ (gy, gx) ∧ Z.abs (c.1 - gy) ≤ 1 ∧ Z.abs (c.2 - gx) ≤ 1.
Proof.
  rewrite neighbors_8_spec. split; [reflexivity|]. split.
  - repeat (apply NoDup_cons; split;
      [rewrite ?elem_of_cons, elem_of_nil; intros H;
       repeat (destruct H as [H|H]; [injection H; lia|]); done|]).
    apply NoDup_nil_2.
  - intros [y x]. cbn [fst snd]. rewrite !elem_of_cons, elem_of_nil. split.
    + intros H.
      repeat (destruct H as [H|H];
              [injection H as -> ->; split; [intros [=]; lia|lia]|]).
      done.
    + intros (Hne & Hy & Hx).
      assert (y = gy - 1 ∨ y = gy ∨ y = gy + 1) as [->|[->| ->]] by lia;
      assert (x = gx - 1 ∨ x = gx ∨ x = gx + 1) as [->|[->| ->]] by lia;
      tauto.
Qed.

Lemma ring_range_elem (r dy : Z) :
  0 ≤ r →
  dy ∈ ((λ k : nat, - r + Z.of_nat k) <$> seq 0 (Z.to_nat (2 * r + 1)))
  ↔ - r ≤ dy ≤ r.
Proof.
  intros Hr. rewrite list_elem_of_fmap. split.
  - intros (k & -> & Hk). apply elem_of_seq in Hk. lia.
  - intros Hdy. exists (Z.to_nat (dy + r)). split; [lia|].
    apply elem_of_seq. lia.
Qed.

(** X4 - [_neighbor_indices] lists exactly the cells other than
    [(gy, gx)] within [neighbor_ring] grid steps in both coordinates, none
    when the ring is not positive, and for a ring of 1 the same cells in
    the same order as [_neighbors_8]. *)
Theorem neighbor_indices_ring (self : CarrotSpeed) (gy gx : Z) :
  (∀ c : Z * Z,
     c ∈ _neighbor_indices self gy gx ↔
     0 < neighbor_ring self ∧ c ≠ (gy, gx) ∧
     Z.abs (c.1 - gy) ≤ neighbor_ring self ∧
     Z.abs (c.2 - gx) ≤ neighbor_ring self) ∧
  (neighbor_ring self ≤ 0 → _neighbor_indices self gy gx = []) ∧
  (neighbor_ring self = 1 → _neighbor_indices self gy gx = _neighbors_8 gy gx).
Proof.
  split_and!.
  - intros [y x]. unfold _neighbor_indices. cbn [fst snd].
    destruct (Z.leb_spec (neighbor_ring self) 0) as [Hr|Hr].
    { rewrite elem_of_nil. split; [done|]. lia. }
    set (r := neighbor_ring self) in *.
    rewrite list_elem_of_bind. split.
    + intros (dy & Hin & Hdy). apply ring_range_elem in Hdy; [|lia].
      apply list_elem_of_bind in Hin as (dx & Hin & Hdx).
      apply ring_range_elem in Hdx; [|lia].
      destruct ((dy =? 0) && (dx =? 0)) eqn:Hz;
        [by apply elem_of_nil in Hin|].
      apply list_elem_of_singleton in Hin. injection Hin as -> ->.
      split; [done|]. split; [|lia].
      intros [= Hy Hx]. apply andb_false_iff in Hz as [Hz|Hz];
        apply Z.eqb_neq in Hz; lia.
    + intros (_ & Hne & Hy & Hx). exists (y - gy). split.
      * apply list_elem_of_bind. exists (x - gx). split.
        -- destruct ((y - gy =? 0) && (x - gx =? 0)) eqn:Hz.
           ++ apply andb_true_iff in Hz as [Hy0 Hx0].
              apply Z.eqb_eq in Hy0, Hx0. exfalso. apply Hne. f_equal; lia.
           ++ apply list_elem_of_singleton. f_equal; lia.
        -- apply ring_range_elem; lia.
      * apply ring_range_elem; lia.
  - intros Hr. unfold _neighbor_indices.
    by destruct (Z.leb_spec (neighbor_ring self) 0); [|lia].
  - intros Hr. unfold _neighbor_indices. rewrite Hr. reflexivity.
Qed.

(** ** Cells are created on first use *)

(** X5 - [_ensure_cell] returns the array stored for the cell, leaving
    the object as it is, or stores 8 empty slots for a cell the grid does
    not have; the cell is then in the grid, no other cell changes, the
    grid invariant is kept and a second call changes nothing. *)
Theorem ensure_cell_creates_once (self : CarrotSpeed) (gy gx : Z) :
  let '(self', arr) := _ensure_cell self gy gx in
  _cells self' !! (gy, gx) = Some arr ∧
  (∀ arr0, _cells self !! (gy, gx) = Some arr0 → self' = self ∧ arr = arr0) ∧
  (_cells self !! (gy, gx) = None → arr = replicate 8 empty_slot) ∧
  (∀ k, k ≠ (gy, gx) → _cells self' !! k = _cells self !! k) ∧
  (wf_grid (_cells self) → wf_grid (_cells self')) ∧
  _ensure_cell self' gy gx = (self', arr).
Proof.
  unfold _ensure_cell.
  destruct (_cells self !! (gy, gx)) as [arr|] eqn:Hc.
  - rewrite Hc. split_and!; try done. by intros arr0 [= <-].
  - cbn [_cells set_cells]. rewrite lookup_insert_eq. split_and!; try done.
    + intros k Hk. by rewrite lookup_insert_ne.
    + intros Hwf. by apply wf_grid_insert.
Qed.

(** ** The writer *)

(** X6 - On a well-formed grid [add_sample] raises only in the quantizer:
    exactly when the rounded speed is not zero and the position has no
    cell or the heading has no bucket.  No slot access can fail. *)
Theorem add_sample_raises_in_quantizer self now lat lon heading_deg speed :
  wf_grid (_cells self) →
  (add_sample self now lat lon heading_deg speed = None ↔
   feqb (round1 speed) zero = false ∧
   (quantize_1e4 lat lon = None ∨ heading_to_bucket heading_deg = None)).
Proof.
  intros Hwf. destruct (feqb (round1 speed) zero) eqn:Hz.
  { rewrite add_sample_zero_step by done. split; [done|]. by intros [? _]. }
  destruct (quantize_1e4 lat lon) as [[gy gx]|] eqn:Hq.
  2:{ unfold add_sample. rewrite Hz, Hq. split; [|done]. intros _. auto. }
  destruct (heading_to_bucket heading_deg) as [b|] eqn:Hb.
  2:{ unfold add_sample. rewrite Hz, Hq. cbn [mbind option_bind].
      rewrite Hb. split; [|done]. intros _. auto. }
  destruct (add_sample_run self now lat lon heading_deg speed gy gx b
              Hwf Hq Hb Hz) as (arr & _ & _ & ->).
  split; [done|]. by intros [_ [?|?]].
Qed.

Lemma add_sample_raises_in_quantizer_witness :
  add_sample fresh 1000 S754_nan (of_Z 127) (of_Z 90) (of_Z 15) = None.
Proof.
  apply (add_sample_raises_in_quantizer fresh 1000 S754_nan (of_Z 127)
           (of_Z 90) (of_Z 15) wf_grid_empty).
  split; [vm_compute; reflexivity|left; vm_compute; reflexivity].
Defined.

(** X7 - An effective [add_sample] writes one slot and nothing else: every
    other slot keeps its content, the grid gains at most the cell of the
    sample, the dirty flag is set, the grid stays well formed, and the
    last-hit marker, the store, the save time and the configuration are
    untouched. *)
Theorem add_sample_frame self now lat lon heading_deg speed self' :
  wf_grid (_cells self) →
  feqb (round1 speed) zero = false →
  add_sample self now lat lon heading_deg speed = Some self' →
  ∃ gy gx b,
    quantize_1e4 lat lon = Some (gy, gx) ∧
    heading_to_bucket heading_deg = Some b ∧
    (∀ gy' gx' b', 0 ≤ b' → (gy', gx', b') ≠ (gy, gx, b) →
       slot_at self' gy' gx' b' = slot_at self gy' gx' b') ∧
    dom (_cells self') = {[ (gy, gx) ]} ∪ dom (_cells self) ∧
    wf_grid (_cells self') ∧
    _dirty self' = true ∧
    _last_hit self' = _last_hit self ∧ _params self' = _params self ∧
    _last_save self' = _last_save self ∧ same_config self' self.
Proof.
  intros Hwf Hz Hrun.
  destruct (quantize_1e4 lat lon) as [[gy gx]|] eqn:Hq;
    [|unfold add_sample in Hrun; by rewrite Hz, Hq in Hrun].
  destruct (heading_to_bucket heading_deg) as [b|] eqn:Hb;
    [|unfold add_sample in Hrun; by rewrite Hz, Hq, Hb in Hrun].
  pose proof (heading_to_bucket_range _ _ Hb) as Hr.
  destruct (add_sample_run self now lat lon heading_deg speed gy gx b
              Hwf Hq Hb Hz) as (arr & Hlen & Harr & Heq).
  rewrite Heq in Hrun. injection Hrun as <-.
  exists gy, gx, b. split_and!; try done.
  - intros gy' gx' b' Hb' Hne. apply slot_at_stored_other; [done|lia|done|done].
  - cbn. by rewrite dom_insert_L.
  - cbn. apply wf_grid_insert; [done|]. by rewrite length_insert.
Qed.

Lemma add_sample_frame_witness :
  _dirty demo_written = true ∧
  dom (_cells demo_written) = {[ (375000, 1270000) ]} ∪ dom (_cells fresh).
Proof.
  destruct (add_sample_frame fresh 1000 (of_ratio 375 10) (of_Z 127) (of_Z 90)
              (of_Z 15) demo_written wf_grid_empty)
    as (gy & gx & b & Hq & _ & _ & Hdom & _ & Hd & _).
  - vm_compute. reflexivity.
  - vm_compute. reflexivity.
  - vm_compute in Hq. injection Hq as <- <-. by split.
Defined.

Section WriteThenRead.
Context `{PyLib}.

(** X8 - Write then read.  After the first sample into a slot at time
    [t], a query whose first candidate point falls in the cell of the
    sample, on a heading of the same bucket, returns the rounded speed once
    [neighbor_old_threshold_s] seconds have passed, and does not return
    that slot before. *)
Theorem sample_then_query self t lat lon heading_deg speed self1 gy gx b
    qlat qlon qheading dist nf :
  wf_grid (_cells self) →
  quantize_1e4 lat lon = Some (gy, gx) →
  heading_to_bucket heading_deg = Some b →
  (slot_at self gy gx b).1 = None →
  feqb (round1 speed) zero = false →
  add_sample self t lat lon heading_deg speed = Some self1 →
  heading_to_bucket qheading = Some b →
  cell_ahead qlat qlon qheading dist = Some (gy, gx) →
  (∀ now now_ms,
     neighbor_old_threshold_s self ≤ now - t →
     query_target_dist self1 now now_ms qlat qlon qheading dist nf
       = Some (set_last_hit self1 (gy, gx, b, now) now_ms, round1 speed)) ∧
  (∀ now v,
     now - t < neighbor_old_threshold_s self →
     query_hit self1 now qlat qlon qheading dist nf
       ≠ Some (Some (v, (gy, gx, b)))).
Proof.
  intros Hwf Hq Hb Hempty Hz Hrun Hqb Hcell.
  pose proof (heading_to_bucket_range _ _ Hb) as Hr.
  destruct (add_sample_run self t lat lon heading_deg speed gy gx b
              Hwf Hq Hb Hz) as (arr & Hlen & _ & Heq).
  rewrite Heq in Hrun. injection Hrun as <-. rewrite Hempty.
  set (self1 := set_dirty _ true).
  assert (Hslot : slot_at self1 gy gx b = (Some (round1 speed), Some t))
    by (apply slot_at_stored; lia).
  split.
  - intros now now_ms Hold. rewrite query_target_dist_hit.
    by rewrite (query_hit_home self1 now qlat qlon qheading dist nf b gy gx
                  (round1 speed) t).
  - intros now v Hyoung Hhit.
    destruct (query_hit_sound _ _ _ _ _ _ _ _ _ _ _ Hhit) as (ts & Hs & Hold & _).
    rewrite Hslot in Hs. injection Hs as _ <-. cbn in Hold. lia.
Qed.

End WriteThenRead.

Lemma sample_then_query_witness :
  query_target_dist (H := TestLib.lib) demo_written 1120 0 (of_ratio 375 10)
    (of_ratio 1269999 10000) (of_Z 90) (of_Z 10) false
  = Some (set_last_hit demo_written (375000, 1270000, 2, 1120) 0, of_Z 15).
Proof.
  refine (proj1 (sample_then_query (H := TestLib.lib) fresh 1000
                   (of_ratio 375 10) (of_Z 127) (of_Z 90) (of_Z 15)
                   demo_written 375000 1270000 2 (of_ratio 375 10)
                   (of_ratio 1269999 10000) (of_Z 90) (of_Z 10) false
                   wf_grid_empty _ _ _ _ _ _ _) 1120 0 _);
    vm_compute; first [reflexivity | intros [=]].
Defined.

(** ** The reader *)

Lemma py_getitem_insert_ne {A} (arr : list A) (i : nat) (x : A) (bi : Z) :
  0 ≤ bi → Z.to_nat bi ≠ i →
  py_getitem (<[i := x]> arr) bi = py_getitem arr bi.
Proof.
  intros Hbi Hne. unfold py_getitem, py_index. rewrite length_insert.
  destruct ((0 <=? bi) && (bi <? Z.of_nat (length arr))); cbn [mbind option_bind].
  - by rewrite list_lookup_insert_ne.
  - destruct (Z.ltb_spec bi 0); [lia|]. reflexivity.
Qed.

(** X9 - The bucket search of a cell reads the three slots [b], [b-1]
    and [b+1] modulo 8 and no other: overwriting any other slot of the
    array does not change its result. *)
Theorem try_cell_reads_three_slots self now (arr : list slot) b (i : nat) x :
  (∀ off, off ∈ [0; -1; 1] → Z.of_nat i ≠ (b + off) `mod` buckets) →
  _try_cell_buckets_old self now (<[i := x]> arr) b
  = _try_cell_buckets_old self now arr b.
Proof.
  intros Hi. unfold _try_cell_buckets_old.
  assert (Hget : ∀ off, off ∈ [0; -1; 1] →
            py_getitem (<[i := x]> arr) ((b + off) `mod` buckets)
            = py_getitem arr ((b + off) `mod` buckets)).
  { intros off Hoff. apply py_getitem_insert_ne.
    - apply Z.mod_pos_bound. reflexivity.
    - specialize (Hi off Hoff).
      pose proof (Z.mod_pos_bound (b + off) buckets eq_refl). lia. }
  cbn [try_offsets].
  rewrite (Hget 0), (Hget (-1)), (Hget 1) by set_solver.
  reflexivity.
Qed.

Lemma try_cell_reads_three_slots_witness :
  _try_cell_buckets_old fresh 500
    (<[5%nat := (Some (of_Z 9), Some 0)]> (replicate 8 empty_slot)) 2
  = _try_cell_buckets_old fresh 500 (replicate 8 empty_slot) 2.
Proof.
  apply try_cell_reads_three_slots.
  intros off Hoff. rewrite !elem_of_cons, elem_of_nil in Hoff.
  destruct Hoff as [->|[->|[->|[]]]]; vm_compute; intros [=].
Defined.

Section ReaderFacts.
Context `{PyLib}.

(** X10 - A query never writes the grid.  Whatever it returns, the cells,
    the dirty flag, the store, the save time and the configuration are
    those it found.  On a miss the object is unchanged and the result is
    0.0; on a hit only the last-hit marker is written, with the slot that
    holds the returned value and the time of the query. *)
Theorem query_is_read_only self now now_ms lat lon heading_deg dist nf self' v :
  query_target_dist self now now_ms lat lon heading_deg dist nf = Some (self', v) →
  _cells self' = _cells self ∧ _dirty self' = _dirty self ∧
  _params self' = _params self ∧ _last_save self' = _last_save self ∧
  same_config self' self ∧
  ((self' = self ∧ v = zero) ∨
   (∃ gy gx b ts,
      _last_hit self' = Some (gy, gx, b, now) ∧
      _last_hit_read_ms self' = now_ms ∧
      slot_at self gy gx b = (Some v, Some ts) ∧
      neighbor_old_threshold_s self ≤ now - ts)).
Proof.
  rewrite query_target_dist_hit.
  destruct (query_hit self now lat lon heading_deg dist nf)
    as [[[v0 [[gy gx] b]]|]|] eqn:Hq; [| |discriminate]; intros [= <- <-].
  - destruct (query_hit_sound _ _ _ _ _ _ _ _ _ _ _ Hq) as (ts & Hs & Hold & _).
    split_and!; try done. right. by exists gy, gx, b, ts.
  - split_and!; try done. by left.
Qed.

(** X11 - On an empty grid a query that returns, returns 0.0 and leaves
    the object, its last-hit marker included, as it was. *)
Theorem query_empty_grid self now now_ms lat lon heading_deg dist nf r :
  _cells self = ∅ →
  query_target_dist self now now_ms lat lon heading_deg dist nf = Some r →
  r = (self, zero).
Proof.
  intros Hempty. rewrite query_target_dist_hit.
  destruct (query_hit self now lat lon heading_deg dist nf)
    as [[[v0 [[gy gx] b]]|]|] eqn:Hq; [| |discriminate]; [|by intros [= <-]].
  destruct (query_hit_sound _ _ _ _ _ _ _ _ _ _ _ Hq) as (ts & Hs & _).
  unfold slot_at in Hs. by rewrite Hempty, lookup_empty in Hs.
Qed.

End ReaderFacts.

Lemma query_is_read_only_witness :
  _cells demo_queried = _cells demo_written ∧
  _last_hit demo_queried = Some (375000, 1270000, 2, 1121).
Proof.
  destruct (query_is_read_only (H := TestLib.lib) demo_written 1121 1121000
              (of_ratio 375 10) (of_ratio 1269999 10000) (of_Z 90) (of_Z 10)
              true demo_queried (of_Z 15))
    as (Hc & _ & _ & _ & _ & [[_ Hv]|(gy & gx & b & ts & Hh & _ & Hs & _)]).
  - vm_compute. reflexivity.
  - discriminate Hv.
  - split; [exact Hc|]. vm_compute. reflexivity.
Defined.

Lemma query_empty_grid_witness :
  query_target_dist (H := TestLib.lib) fresh 500 0 (of_ratio 375 10)
    (of_Z 127) (of_Z 90) (of_Z 10) true = Some (fresh, zero).
Proof.
  destruct (query_target_dist (H := TestLib.lib) fresh 500 0 (of_ratio 375 10)
              (of_Z 127) (of_Z 90) (of_Z 10) true) as [r|] eqn:Hq.
  - f_equal. exact (query_empty_grid (H := TestLib.lib) fresh 500 0 _ _ _ _ _ r
                      eq_refl Hq).
  - vm_compute in Hq. discriminate Hq.
Defined.

(** *** Where a hit can come from *)

Lemma neighbors_8_near (cy cx : Z) (c : Z * Z) :
  c ∈ _neighbors_8 cy cx → Z.abs (c.1 - cy) ≤ 1 ∧ Z.abs (c.2 - cx) ≤ 1.
Proof.
  rewrite neighbors_8_spec, !elem_of_cons, elem_of_nil. intros Hc.
  repeat (destruct Hc as [Hc|Hc]; [subst c; cbn [fst snd]; lia|]). done.
Qed.

Lemma try_cell_bucket self now arr b v bi :
  _try_cell_buckets_old self now arr b = Some (Some (v, bi)) →
  ∃ off, off ∈ [0; -1; 1] ∧ bi = (b + off) `mod` buckets.
Proof.
  intros Ht. destruct (try_offsets_sound _ _ _ _ _ _ _ Ht) as (_ & off & Hoff & Hbi & _).
  by exists off.
Qed.

Lemma scan_neighbors_cell self now b ns v gy gx bi :
  scan_neighbors self now b ns = Some (Some (v, (gy, gx, bi))) →
  (gy, gx) ∈ ns ∧ ∃ off, off ∈ [0; -1; 1] ∧ bi = (b + off) `mod` buckets.
Proof.
  induction ns as [|[ny nx] rest IH]; cbn [scan_neighbors]; [discriminate|].
  assert (Hrest : scan_neighbors self now b rest = Some (Some (v, (gy, gx, bi))) →
    (gy, gx) ∈ (ny, nx) :: rest ∧
    ∃ off, off ∈ [0; -1; 1] ∧ bi = (b + off) `mod` buckets).
  { intros Hr. destruct (IH Hr) as [Hin Hoff]. split; [by right|done]. }
  destruct (nonempty_cell self (ny, nx)) as [arr2|]; [|done].
  destruct (_try_cell_buckets_old self now arr2 b) as [[[v2 b2]|]|] eqn:Ht;
    cbn [mbind option_bind]; [|done|discriminate].
  intros [= <- <- <- <-]. split; [by left|]. by eapply try_cell_bucket.
Qed.

Lemma scan_point_cell self now b nf cy cx v gy gx bi :
  scan_point self now b nf cy cx = Some (Some (v, (gy, gx, bi))) →
  ((gy, gx) = (cy, cx) ∨ (nf = true ∧ (gy, gx) ∈ _neighbors_8 cy cx)) ∧
  ∃ off, off ∈ [0; -1; 1] ∧ bi = (b + off) `mod` buckets.
Proof.
  unfold scan_point.
  assert (Hn : (if negb nf then Some None
                else scan_neighbors self now b (_neighbors_8 cy cx))
               = Some (Some (v, (gy, gx, bi))) →
    ((gy, gx) = (cy, cx) ∨ (nf = true ∧ (gy, gx) ∈ _neighbors_8 cy cx)) ∧
    ∃ off, off ∈ [0; -1; 1] ∧ bi = (b + off) `mod` buckets).
  { destruct nf; cbn [negb]; [|discriminate]. intros Hs.
    destruct (scan_neighbors_cell _ _ _ _ _ _ _ _ Hs) as [Hin Hoff]. auto. }
  destruct (nonempty_cell self (cy, cx)) as [arr|]; cbn [mbind option_bind];
    [|exact Hn].
  destruct (_try_cell_buckets_old self now arr b) as [[[v1 b1]|]|] eqn:Ht;
    cbn [mbind option_bind]; [|exact Hn|discriminate].
  intros [= <- <- <- <-]. split; [by left|]. by eapply try_cell_bucket.
Qed.

Section HitLocality.
Context `{PyLib}.

Lemma scan_cands_cell self now b nf lat lon h ds v gy gx bi :
  scan_cands self now b nf lat lon h ds = Some (Some (v, (gy, gx, bi))) →
  ∃ d cy cx,
    d ∈ ds ∧ cell_ahead lat lon h d = Some (cy, cx) ∧
    ((gy, gx) = (cy, cx) ∨ (nf = true ∧ (gy, gx) ∈ _neighbors_8 cy cx)) ∧
    ∃ off, off ∈ [0; -1; 1] ∧ bi = (b + off) `mod` buckets.
Proof.
  induction ds as [|d rest IH]; cbn [scan_cands]; [discriminate|].
  destruct (project_point math_cos math_sin lat lon h d) as [y x] eqn:Hp.
  destruct (quantize_1e4 y x) as [[cy cx]|] eqn:Hq; cbn [mbind option_bind];
    [|discriminate].
  destruct (scan_point self now b nf cy cx) as [[h0|]|] eqn:Hs;
    cbn [mbind option_bind]; [| |discriminate].
  - intros [= ->]. exists d, cy, cx. split; [by left|]. split.
    + unfold cell_ahead. by rewrite Hp.
    + by eapply scan_point_cell.
  - intros Hr. destruct (IH Hr) as (d' & cy' & cx' & Hin & Hrest).
    exists d', cy', cx'. split; [by right|done].
Qed.

(** X12 - A hit is near a candidate point and near the heading: the slot
    returned lies in the cell of one of the candidate distances or, with
    the neighbour fallback only, in a cell at most one grid step from it
    in each coordinate, and its bucket is the bucket of the heading or one
    of its two neighbours modulo 8. *)
Theorem query_hit_is_local self now lat lon heading_deg dist nf v gy gx bi :
  query_hit self now lat lon heading_deg dist nf = Some (Some (v, (gy, gx, bi))) →
  ∃ b d cy cx,
    heading_to_bucket heading_deg = Some b ∧
    d ∈ cand_ds dist ∧ cell_ahead lat lon heading_deg d = Some (cy, cx) ∧
    Z.abs (gy - cy) ≤ 1 ∧ Z.abs (gx - cx) ≤ 1 ∧
    (nf = false → (gy, gx) = (cy, cx)) ∧
    (bi = b `mod` 8 ∨ bi = (b - 1) `mod` 8 ∨ bi = (b + 1) `mod` 8).
Proof.
  unfold query_hit.
  destruct (heading_to_bucket heading_deg) as [b|]; cbn [mbind option_bind];
    [|discriminate].
  intros Hs.
  destruct (scan_cands_cell _ _ _ _ _ _ _ _ _ _ _ _ Hs)
    as (d & cy & cx & Hd & Hcell & Hnear & off & Hoff & ->).
  exists b, d, cy, cx. split_and!; try done.
  - destruct Hnear as [[= -> ->]|[_ Hin]]; [lia|].
    by apply neighbors_8_near in Hin as [? _].
  - destruct Hnear as [[= -> ->]|[_ Hin]]; [lia|].
    by apply neighbors_8_near in Hin as [_ ?].
  - intros ->. by destruct Hnear as [?|[? _]].
  - rewrite !elem_of_cons, elem_of_nil in Hoff. unfold buckets.
    destruct Hoff as [->|[->|[->|[]]]]; [left|right; left|right; right];
      [by rewrite Z.add_0_r|done|done].
Qed.

End HitLocality.

Lemma query_hit_is_local_witness :
  ∃ b d cy cx,
    heading_to_bucket (of_Z 90) = Some b ∧
    d ∈ cand_ds (of_Z 10) ∧
    cell_ahead (H := TestLib.lib) (of_ratio 3749991 100000) (of_Z 127)
      (of_Z 90) d = Some (cy, cx) ∧
    Z.abs (375000 - cy) ≤ 1 ∧ Z.abs (1270000 - cx) ≤ 1 ∧
    (true = false → (375000, 1270000) = (cy, cx)) ∧
    (2 = b `mod` 8 ∨ 2 = (b - 1) `mod` 8 ∨ 2 = (b + 1) `mod` 8).
Proof.
  apply (query_hit_is_local (H := TestLib.lib) demo_written 1121
           (of_ratio 3749991 100000) (of_Z 127) (of_Z 90) (of_Z 10) true
           (of_Z 15) 375000 1270000 2).
  vm_compute. reflexivity.
Defined.

(** *** A query as time passes *)

Lemma passes_later self now now' p v :
  now ≤ now' → passes self now p = Some v → passes self now' p = Some v.
Proof.
  intros Hle. unfold passes.
  destruct (slot_at self p.1.1 p.1.2 p.2) as [[v0|] [ts|]]; try done.
  destruct (Z.leb_spec (neighbor_old_threshold_s self) (now - ts)); [|done].
  intros [= <-].
  destruct (Z.leb_spec (neighbor_old_threshold_s self) (now' - ts)); [done|lia].
Qed.

Lemma first_passing_later self now now' ps h :
  now ≤ now' → first_passing self now ps = Some h →
  is_Some (first_passing self now' ps).
Proof.
  intros Hle. induction ps as [|p ps IH]; cbn [first_passing]; [discriminate|].
  destruct (passes self now p) as [v|] eqn:Hp.
  - intros _. by rewrite (passes_later _ _ _ _ _ Hle Hp).
  - intros Hr. destruct (passes self now' p); [done|auto].
Qed.

Section QueryInTime.
Context `{PyLib}.

Lemma spec_scan_later self now now' b nf lat lon h ds hit0 :
  now ≤ now' →
  spec_scan self now b nf lat lon h ds = Some (Some hit0) →
  ∃ hit1, spec_scan self now' b nf lat lon h ds = Some (Some hit1).
Proof.
  intros Hle. induction ds as [|d rest IH]; cbn [spec_scan]; [discriminate|].
  destruct (cell_ahead lat lon h d) as [[gy gx]|]; cbn [mbind option_bind];
    [|discriminate].
  destruct (first_passing self now (spec_probes b nf gy gx)) as [h0|] eqn:Hf.
  - intros _.
    destruct (first_passing_later _ _ _ _ _ Hle Hf) as [h1 ->]. eauto.
  - intros Hr.
    destruct (first_passing self now' (spec_probes b nf gy gx)); eauto.
Qed.

(** X13 - Data does not expire.  On a well-formed grid, a query that
    finds a value at some time finds a value, possibly from a slot of
    higher priority, at every later time on the same object. *)
Theorem query_hit_persists self now now' lat lon heading_deg dist nf hit0 :
  wf_grid (_cells self) → now ≤ now' →
  query_hit self now lat lon heading_deg dist nf = Some (Some hit0) →
  ∃ hit1, query_hit self now' lat lon heading_deg dist nf = Some (Some hit1).
Proof.
  intros Hwf Hle. unfold query_hit.
  destruct (heading_to_bucket heading_deg) as [b|]; cbn [mbind option_bind];
    [|discriminate].
  rewrite !scan_cands_spec_scan by done. by apply spec_scan_later.
Qed.

Lemma spec_scan_raises self now b nf lat lon h ds :
  spec_scan self now b nf lat lon h ds = None →
  ∃ d, d ∈ ds ∧ cell_ahead lat lon h d = None.
Proof.
  induction ds as [|d rest IH]; cbn [spec_scan]; [discriminate|].
  destruct (cell_ahead lat lon h d) as [[gy gx]|] eqn:Hc; cbn [mbind option_bind].
  - destruct (first_passing self now (spec_probes b nf gy gx)); [discriminate|].
    intros Hr. destruct (IH Hr) as (d' & Hin & Hd'). exists d'.
    split; [by right|done].
  - intros _. exists d. split; [by left|done].
Qed.

(** X14 - On a well-formed grid a query raises only in the quantizer: when
    the heading has no bucket, or when one of the candidate points has no
    cell.  It always raises in the first case, and in the second when the
    point is that of the distance asked for. *)
Theorem query_raises_in_quantizer self now now_ms lat lon heading_deg dist nf :
  wf_grid (_cells self) →
  (query_target_dist self now now_ms lat lon heading_deg dist nf = None →
   heading_to_bucket heading_deg = None ∨
   ∃ d, d ∈ cand_ds dist ∧ cell_ahead lat lon heading_deg d = None) ∧
  (heading_to_bucket heading_deg = None ∨
   cell_ahead lat lon heading_deg dist = None →
   query_target_dist self now now_ms lat lon heading_deg dist nf = None).
Proof.
  intros Hwf. rewrite query_target_dist_hit. unfold query_hit. split.
  - destruct (heading_to_bucket heading_deg) as [b|]; [|by left].
    cbn [mbind option_bind]. rewrite scan_cands_spec_scan by done.
    destruct (spec_scan self now b nf lat lon heading_deg (cand_ds dist))
      as [[[v [[gy gx] bi]]|]|] eqn:Hs; try discriminate.
    intros _. right. by eapply spec_scan_raises.
  - intros [Hb|Hc]; [by rewrite Hb|].
    destruct (heading_to_bucket heading_deg) as [b|]; [|done].
    cbn [mbind option_bind]. destruct (cand_ds_head dist) as [rest ->].
    cbn [scan_cands]. unfold cell_ahead in Hc.
    destruct (project_point _ _ _ _ _ _) as [y x]. by rewrite Hc.
Qed.

Lemma cell_ahead_nan lat lon h : cell_ahead lat lon h S754_nan = None.
Proof.
  unfold cell_ahead, project_point. cbn [fleb SFleb SFcompare zero].
  unfold quantize_1e4, math_degrees.
  by destruct lat as [?|?| |? ? ?].
Qed.

(** X15 - A NaN distance makes [query_target_dist] raise, whatever the
    position and the heading, while [query_target] clamps: a product
    [v_ego * lookahead_s] that is not positive, a NaN included, is
    searched at distance 0.0. *)
Theorem query_nan_and_clamp self now now_ms lat lon heading_deg nf :
  query_target_dist self now now_ms lat lon heading_deg S754_nan nf = None ∧
  (∀ v_ego lookahead_s,
     fgtb (fmul v_ego lookahead_s) zero = false →
     query_target self now now_ms lat lon heading_deg v_ego lookahead_s nf
     = query_target_dist self now now_ms lat lon heading_deg zero nf) ∧
  (∀ lookahead_s,
     query_target self now now_ms lat lon heading_deg S754_nan lookahead_s nf
     = query_target_dist self now now_ms lat lon heading_deg zero nf).
Proof.
  split_and!.
  - unfold query_target_dist.
    destruct (heading_to_bucket heading_deg) as [b|]; [|done].
    cbn [mbind option_bind].
    change (cand_ds S754_nan) with [S754_nan]. cbn [scan_cands].
    pose proof (cell_ahead_nan lat lon heading_deg) as Hc.
    unfold cell_ahead in Hc.
    destruct (project_point _ _ _ _ _ _) as [y x]. by rewrite Hc.
  - intros v_ego lookahead_s Hle. unfold query_target, py_max. by rewrite Hle.
  - intros lookahead_s. reflexivity.
Qed.

End QueryInTime.

Lemma query_hit_persists_witness :
  ∃ hit1, query_hit (H := TestLib.lib) demo_written 5000
            (of_ratio 3749991 100000) (of_Z 127) (of_Z 90) (of_Z 10) true
          = Some (Some hit1).
Proof.
  refine (query_hit_persists (H := TestLib.lib) demo_written 1121 5000
            (of_ratio 3749991 100000) (of_Z 127) (of_Z 90) (of_Z 10) true
            (of_Z 15, (375000, 1270000, 2)) _ _ _).
  - unfold wf_grid.
    refine (bool_decide_unpack (map_Forall _ (_cells demo_written)) _).
    vm_compute. reflexivity.
  - lia.
  - vm_compute. reflexivity.
Defined.

Lemma query_raises_in_quantizer_witness :
  query_target_dist (H := TestLib.lib) fresh 500 0 (of_ratio 375 10)
    (of_Z 127) (S754_infinity false) (of_Z 10) true = None.
Proof.
  apply (query_raises_in_quantizer (H := TestLib.lib) fresh 500 0
           (of_ratio 375 10) (of_Z 127) (S754_infinity false) (of_Z 10) true
           wf_grid_empty).
  left. vm_compute. reflexivity.
Defined.

Lemma query_nan_and_clamp_witness :
  query_target (H := TestLib.lib) demo_written 1121 0 (of_ratio 375 10)
    (of_Z 127) (of_Z 90) (of_Z (-5)) (of_Z 2) true
  = query_target_dist (H := TestLib.lib) demo_written 1121 0 (of_ratio 375 10)
      (of_Z 127) (of_Z 90) zero true.
Proof.
  apply (proj1 (proj2 (query_nan_and_clamp (H := TestLib.lib) demo_written
                         1121 0 (of_ratio 375 10) (of_Z 127) (of_Z 90) true))).
  vm_compute. reflexivity.
Defined.

(** ** Invalidation *)

(** X16 - On an object whose grid is well formed and whose marker names a
    bucket, [invalidate_last_hit] never raises; it keeps the last-hit
    marker, so that it can be called again on the same hit, it neither
    creates nor removes a cell, it keeps the grid well formed, and it
    leaves the store and the configuration alone. *)
Theorem invalidate_keeps_marker self now window_s action :
  wf_grid (_cells self) → wf_hit self →
  ∃ self' r,
    invalidate_last_hit self now window_s action = Some (self', r) ∧
    _last_hit self' = _last_hit self ∧
    dom (_cells self') = dom (_cells self) ∧
    wf_grid (_cells self') ∧
    _params self' = _params self ∧ same_config self' self.
Proof.
  intros Hwf Hhit. unfold wf_hit in Hhit. unfold invalidate_last_hit.
  destruct (_last_hit self) as [[[[gy gx] b] read_ts]|] eqn:Hh;
    [|exists self, false; by rewrite Hh].
  destruct (Z_gtb_float (now - read_ts) window_s);
    [exists self, false; by rewrite Hh|].
  destruct (nonempty_cell self (gy, gx)) as [arr|] eqn:Hc;
    [|exists self, false; by rewrite Hh].
  pose proof (nonempty_cell_Some _ _ _ Hc) as Hcell.
  pose proof (wf_grid_lookup _ _ _ Hwf Hcell) as Hlen.
  assert (Hin : 0 ≤ b < Z.of_nat (length arr)) by lia.
  rewrite py_getitem_inrange by done.
  destruct (arr !! Z.to_nat b) as [[v ts]|] eqn:Hs;
    [|apply lookup_ge_None in Hs; lia].
  cbn [mbind option_bind].
  assert (Hstore : ∀ x, ∃ self' r,
    (self0 ← store_slot self gy gx arr b x; Some (set_dirty self0 true, true))
      = Some (self', r) ∧
    _last_hit self' = Some (gy, gx, b, read_ts) ∧
    dom (_cells self') = dom (_cells self) ∧ wf_grid (_cells self') ∧
    _params self' = _params self ∧ same_config self' self).
  { intros x. rewrite store_slot_inrange by done. cbn [mbind option_bind].
    eexists _, _. split; [reflexivity|]. cbn. split_and!; try done.
    - apply dom_insert_lookup_L. by eexists.
    - apply wf_grid_insert; [done|]. by rewrite length_insert. }
  destruct (String.eqb action "clear"); [apply Hstore|].
  destruct v; [apply Hstore|]. exists self, false. by rewrite Hh.
Qed.

Lemma invalidate_keeps_marker_witness :
  ∃ self' r,
    invalidate_last_hit demo_cleared 1122 (of_Z 2) "clear" = Some (self', r) ∧
    _last_hit self' = _last_hit demo_cleared.
Proof.
  destruct (invalidate_keeps_marker demo_cleared 1122 (of_Z 2) "clear")
    as (self' & r & Hrun & Hh & _).
  - unfold wf_grid.
    refine (bool_decide_unpack (map_Forall _ (_cells demo_cleared)) _).
    vm_compute. reflexivity.
  - vm_compute. split; [intros [=]|reflexivity].
  - exists self', r. split; [exact Hrun|exact Hh].
Defined.

Section AgeBump.
Context `{PyLib}.

(** X17 - The age bump re-arms the gate.  Inside the window after a query
    that returned a value, [invalidate_last_hit] with any action other than
    "clear" returns true, keeps the value of the matched slot and stamps it
    with the present time: the slot passes the gate again exactly when
    [neighbor_old_threshold_s] seconds have passed since the bump, and no
    query returns it before. *)
Theorem age_bump_rearms_gate self t t_ms lat lon heading_deg dist nf v gy gx b
    self1 now window_s action :
  query_hit self t lat lon heading_deg dist nf = Some (Some (v, (gy, gx, b))) →
  query_target_dist self t t_ms lat lon heading_deg dist nf = Some (self1, v) →
  Z_gtb_float (now - t) window_s = false →
  String.eqb action "clear" = false →
  ∃ self2,
    invalidate_last_hit self1 now window_s action = Some (self2, true) ∧
    slot_at self2 gy gx b = (Some v, Some now) ∧
    (∀ now',
       passes self2 now' (gy, gx, b) =
         if neighbor_old_threshold_s self <=? now' - now then Some v else None) ∧
    (∀ now' qlat qlon qheading qdist qnf v',
       now' - now < neighbor_old_threshold_s self →
       query_hit self2 now' qlat qlon qheading qdist qnf
         ≠ Some (Some (v', (gy, gx, b)))).
Proof.
  intros Hq Hrun Hw Ha.
  destruct (query_hit_sound _ _ _ _ _ _ _ _ _ _ _ Hq) as (ts & Hs & _ & Hb).
  rewrite query_target_dist_hit, Hq in Hrun. cbn in Hrun.
  injection Hrun as <-.
  destruct (slot_at_cell _ _ _ _ _ _ Hs) as (arr & Hc & Harr).
  assert (Hin : 0 ≤ b < Z.of_nat (length arr)).
  { apply lookup_lt_Some in Harr. lia. }
  eexists. split; [|split; [|split]].
  - rewrite (invalidate_run _ now window_s action gy gx b t arr (Some v)
               (Some ts)); [by rewrite Ha|reflexivity|done|exact Hc|lia|exact Harr].
  - by apply slot_at_stored.
  - intros now'. unfold passes. cbn [fst snd].
    by rewrite slot_at_stored.
  - intros now' qlat qlon qheading qdist qnf v' Hyoung Hq'.
    destruct (query_hit_sound _ _ _ _ _ _ _ _ _ _ _ Hq') as (ts' & Hs' & Hold & _).
    rewrite slot_at_stored in Hs' by done. injection Hs' as _ <-.
    cbn in Hold. lia.
Qed.

End AgeBump.

Lemma age_bump_rearms_gate_witness :
  ∃ self2,
    invalidate_last_hit demo_queried 1122 (of_Z 2) "age_bump"
      = Some (self2, true) ∧
    slot_at self2 375000 1270000 2 = (Some (of_Z 15), Some 1122).
Proof.
  destruct (age_bump_rearms_gate (H := TestLib.lib) demo_written 1121 1121000
              (of_ratio 375 10) (of_ratio 1269999 10000) (of_Z 90) (of_Z 10)
              true (of_Z 15) 375000 1270000 2 demo_queried 1122 (of_Z 2)
              "age_bump") as (self2 & Hrun & Hslot & _);
    [vm_compute; reflexivity ..|].
  exists self2. split; [exact Hrun|exact Hslot].
Defined.

Lemma invalidate_keeps_state self now window_s action self' r :
  wf_grid (_cells self) →
  invalidate_last_hit self now window_s action = Some (self', r) →
  wf_grid (_cells self') ∧ _last_hit self' = _last_hit self ∧
  dom (_cells self') = dom (_cells self) ∧ same_config self' self ∧
  _params self' = _params self ∧ _last_save self' = _last_save self ∧
  (self' = self ∨ _dirty self' = true).
Proof.
  intros Hwf. unfold invalidate_last_hit.
  destruct (_last_hit self) as [[[[gy gx] b] read_ts]|] eqn:Hh;
    [|intros [= <- <-]; rewrite Hh; split_and!; auto; done].
  destruct (Z_gtb_float (now - read_ts) window_s);
    [intros [= <- <-]; rewrite Hh; split_and!; auto; done|].
  destruct (nonempty_cell self (gy, gx)) as [arr|] eqn:Hc;
    [|intros [= <- <-]; rewrite Hh; split_and!; auto; done].
  pose proof (nonempty_cell_Some _ _ _ Hc) as Hcell.
  pose proof (wf_grid_lookup _ _ _ Hwf Hcell) as Hlen.
  destruct (py_getitem arr b) as [[v ts]|]; [|discriminate].
  cbn [mbind option_bind].
  assert (Hstore : ∀ x,
    (self0 ← store_slot self gy gx arr b x; Some (set_dirty self0 true, true))
      = Some (self', r) →
    wf_grid (_cells self') ∧ _last_hit self' = Some (gy, gx, b, read_ts) ∧
    dom (_cells self') = dom (_cells self) ∧ same_config self' self ∧
    _params self' = _params self ∧ _last_save self' = _last_save self ∧
    (self' = self ∨ _dirty self' = true)).
  { intros x. unfold store_slot.
    destruct (py_setitem arr b x) as [arr'|] eqn:Hset; [|discriminate].
    cbn [mbind option_bind]. intros [= <- <-]. cbn. split_and!; auto; try done.
    - apply wf_grid_insert; [done|].
      by rewrite (py_setitem_length _ _ _ _ Hset).
    - apply dom_insert_lookup_L. by eexists. }
  destruct (String.eqb action "clear"); [apply Hstore|].
  destruct v; [apply Hstore|].
  intros [= <- <-]; rewrite Hh; split_and!; auto; done.
Qed.

(** ** The loader *)

Section Loader.
Context `{PyLib}.

(** What the [try] block does is fixed by the stored bytes. *)
Lemma load_try_shape raw :
  (∀ self, load_try self raw = None) ∨
  (∀ self, load_try self raw = Some (reset_removed self)) ∨
  (∃ restored, wf_grid restored ∧
     ∀ self, load_try self raw = Some (set_dirty (set_cells self restored) false)).
Proof.
  unfold load_try.
  destruct (stored_object raw) as [data|]; cbn [mbind option_bind]; [|by left].
  unfold load_object.
  destruct (dict_get data "format" JNull) as [fmt|]; cbn [mbind option_bind];
    [|by left].
  destruct (differs_from_str fmt "v4"); [right; by left|].
  destruct (dict_get data "dir_buckets" (JInt 8)) as [d|];
    cbn [mbind option_bind]; [|by left].
  destruct (py_int_of_json d) as [n|]; cbn [mbind option_bind]; [|by left].
  destruct (negb (n =? 8)); [right; by left|].
  destruct (dict_get data "cells" (JObj [])) as [cells|];
    cbn [mbind option_bind]; [|by left].
  destruct (dict_items cells) as [items|]; cbn [mbind option_bind]; [|by left].
  destruct (restore_cells items ∅) as [restored|] eqn:Hr;
    cbn [mbind option_bind]; [|by left].
  right; right. exists restored. split; [|done].
  eapply restore_cells_wf; [apply wf_grid_empty|exact Hr].
Qed.

(** The three outcomes of the loader on a store that holds bytes. *)
Lemma load_shape self raw :
  _params self = Some raw → raw ≠ [] →
  (_load_from_params_if_exists self = reset_deleted self ∧
   ∀ self2, _params self2 = Some raw →
     _load_from_params_if_exists self2 = reset_deleted self2) ∨
  (∃ restored, wf_grid restored ∧
     ∀ self2, _params self2 = Some raw →
       _load_from_params_if_exists self2
         = set_dirty (set_cells self2 restored) false).
Proof.
  intros Hp Hne.
  destruct (load_try_shape raw) as [Hl|[Hl|(restored & Hwf & Hl)]].
  - left. split; [|intros self2 Hp2]; rewrite (load_stored _ raw) by done;
      by rewrite Hl.
  - left. split; [|intros self2 Hp2]; rewrite (load_stored _ raw) by done;
      by rewrite Hl.
  - right. exists restored. split; [done|]. intros self2 Hp2.
    rewrite (load_stored _ raw) by done. by rewrite Hl.
Qed.

Lemma load_absent self :
  _params self = None ∨ _params self = Some [] →
  _load_from_params_if_exists self = self.
Proof.
  unfold _load_from_params_if_exists, params_get. by intros [->| ->].
Qed.

(** The store is either absent, empty, or holds bytes. *)
Lemma store_cases (p : params) :
  (p = None ∨ p = Some []) ∨ ∃ raw, p = Some raw ∧ raw ≠ [].
Proof.
  destruct p as [[|b0 raw]|]; [by left; right| |by left; left].
  right. by exists (b0 :: raw).
Qed.

Lemma load_config self :
  same_config (_load_from_params_if_exists self) self.
Proof.
  destruct (store_cases (_params self)) as [Ha|(raw & Hp & Hne)].
  - by rewrite (load_absent _ Ha).
  - destruct (load_shape self raw Hp Hne) as [[-> _]|(restored & Hwf & Hl)];
      [done|by rewrite (Hl self Hp)].
Qed.

(** X20 - The outcomes of the loader.  When the store holds nothing or an
    empty value the object is left as it is, dirty flag included.
    Otherwise the object comes out clean with 8 slots in every cell, and
    either the stored bytes are kept, or the key is gone and the grid is
    empty: a grid held before the load is never kept beside stored
    bytes.  In every case the configuration, the last-hit marker and the
    time of the last save are untouched. *)
Theorem load_outcomes self :
  let self' := _load_from_params_if_exists self in
  (_params self = None ∨ _params self = Some [] → self' = self) ∧
  (∀ raw, _params self = Some raw → raw ≠ [] →
     _dirty self' = false ∧ wf_grid (_cells self') ∧
     (_params self' = Some raw ∨ (_params self' = None ∧ _cells self' = ∅))) ∧
  same_config self' self ∧ _last_hit self' = _last_hit self ∧
  _last_save self' = _last_save self.
Proof.
  cbn zeta. split; [apply load_absent|].
  split.
  - intros raw Hp Hne.
    destruct (load_shape self raw Hp Hne) as [[-> _]|(restored & Hwf & Hl)].
    + cbn. split_and!; [done|apply wf_grid_empty|by right].
    + rewrite (Hl self Hp). cbn. split_and!; [done|done|by left].
  - destruct (store_cases (_params self)) as [Ha|(raw & Hp & Hne)].
    + by rewrite (load_absent _ Ha).
    + destruct (load_shape self raw Hp Hne) as [[-> _]|(restored & Hwf & Hl)];
        [done|by rewrite (Hl self Hp)].
Qed.

(** The grid and the store after a load depend on the store and, when it
    holds nothing, on the grid before. *)
Lemma load_cells_ext a b :
  _params a = _params b → _cells a = _cells b →
  _cells (_load_from_params_if_exists a) = _cells (_load_from_params_if_exists b) ∧
  _params (_load_from_params_if_exists a) = _params (_load_from_params_if_exists b).
Proof.
  intros Hp Hc.
  destruct (store_cases (_params a)) as [Ha|(raw & Hpa & Hne)].
  - rewrite (load_absent a Ha).
    rewrite (load_absent b) by (by rewrite <- Hp). done.
  - assert (Hpb : _params b = Some raw) by (by rewrite <- Hp).
    destruct (load_shape a raw Hpa Hne) as [[_ Hl]|(restored & _ & Hl)];
      rewrite (Hl a Hpa), (Hl b Hpb); cbn; done.
Qed.

Lemma load_idem self :
  _load_from_params_if_exists (_load_from_params_if_exists self)
    = _load_from_params_if_exists self.
Proof.
  destruct (store_cases (_params self)) as [Ha|(raw & Hp & Hne)].
  - by rewrite !(load_absent _ Ha).
  - destruct (load_shape self raw Hp Hne) as [[-> _]|(restored & _ & Hl)].
    + apply load_absent. by left.
    + rewrite (Hl self Hp). rewrite Hl by done. by destruct self.
Qed.

Lemma init_cells store ring threshold_s gz level self :
  _params self = store → _cells self = ∅ →
  _cells (init store ring threshold_s gz level)
    = _cells (_load_from_params_if_exists self) ∧
  _params (init store ring threshold_s gz level)
    = _params (_load_from_params_if_exists self).
Proof.
  intros Hp Hc. unfold init. cbn [_cells _params].
  by apply load_cells_ext.
Qed.

(** X21 - Loading is idempotent, and so is building: a second load on the
    object the loader left changes nothing, and an object built on the
    store that the constructor left behind it (kept, or deleted after a
    rejected payload) starts with the same grid and the same store,
    whatever the parameters of the two objects. *)
Theorem load_is_idempotent self store ring threshold_s gz level
    ring' threshold_s' gz' level' :
  _load_from_params_if_exists (_load_from_params_if_exists self)
    = _load_from_params_if_exists self ∧
  let first := init store ring threshold_s gz level in
  let second := init (_params first) ring' threshold_s' gz' level' in
  _cells second = _cells first ∧ _params second = _params first.
Proof.
  split; [apply load_idem|]. cbn zeta.
  set (s0 := mkCarrotSpeed 0 0 false 0 ∅ false 0 store None 0).
  destruct (init_cells store ring threshold_s gz level s0 eq_refl eq_refl)
    as [Hc Hp].
  rewrite Hc, Hp.
  destruct (store_cases store) as [Ha|(raw & Hs & Hne)].
  - rewrite (load_absent s0 Ha).
    destruct (init_cells store ring' threshold_s' gz' level' s0 eq_refl eq_refl)
      as [Hc' Hp'].
    cbn [_params s0]. rewrite Hc', Hp'. by rewrite (load_absent s0 Ha).
  - destruct (load_shape s0 raw Hs Hne) as [[-> _]|(restored & _ & Hl)].
    + change (_params (reset_deleted s0)) with (@None (list Byte.byte)).
      change (_cells (reset_deleted s0)) with (∅ : gmap (Z * Z) (list slot)).
      by destruct (init_cells None ring' threshold_s' gz' level'
                     (mkCarrotSpeed 0 0 false 0 ∅ false 0 None None 0)
                     eq_refl eq_refl) as [-> ->].
    + rewrite (Hl s0 Hs).
      change (_params (set_dirty (set_cells s0 restored) false)) with store.
      destruct (init_cells store ring' threshold_s' gz' level' s0
                  eq_refl eq_refl) as [-> ->].
      by rewrite (Hl s0 Hs).
Qed.

Lemma restore_cells_fails items acc key arr :
  (key, arr) ∈ items →
  parse_key key = None ∨ fix_cell arr = None →
  restore_cells items acc = None.
Proof.
  intros Hin Hbad. revert acc.
  induction items as [|[k a] rest IH]; intros acc; [by apply elem_of_nil in Hin|].
  cbn [restore_cells].
  apply elem_of_cons in Hin as [[= <- <-]|Hin].
  - destruct Hbad as [-> | ->]; [done|].
    by destruct (parse_key key) as [[gy gx]|].
  - destruct (parse_key k) as [[gy gx]|]; cbn [mbind option_bind]; [|done].
    destruct (fix_cell a); cbn [mbind option_bind]; [|done].
    by apply IH.
Qed.

(** X22 - One bad cell rejects the whole store.  When the stored object
    has the right format and bucket count but one of its keys does not
    split into exactly two parts at the commas, or one of its 8-entry
    arrays holds a two-element pair whose value [float] does not accept,
    the loader keeps none of the cells, the good ones included: it
    deletes the key and leaves an empty, clean grid. *)
Theorem load_rejects_whole_payload self raw data d items key arr :
  _params self = Some raw → raw ≠ [] →
  stored_object raw = Some data →
  dict_get data "format" JNull = Some (JStr "v4") →
  dict_get data "dir_buckets" (JInt 8) = Some d →
  py_int_of_json d = Some 8 →
  dict_get data "cells" (JObj []) = Some (JObj items) →
  (key, arr) ∈ items →
  length (py_split "," key) ≠ 2%nat ∨
  (∃ l v ts, arr = JList l ∧ length l = 8%nat ∧ JList [v; ts] ∈ l ∧
             v ≠ JNull ∧ py_float_of_json v = None) →
  let self' := _load_from_params_if_exists self in
  _cells self' = ∅ ∧ _params self' = None ∧ _dirty self' = false.
Proof.
  intros Hp Hne Hobj Hf Hd Hn Hc Hin Hbad. cbn zeta.
  assert (Hfail : restore_cells items ∅ = None).
  { apply (restore_cells_fails _ _ key arr Hin).
    destruct Hbad as [Hlen|(l & v & ts & -> & Hlen & Hpair & Hv & Hfl)].
    - left. unfold parse_key.
      by destruct (py_split "," key) as [|a [|b [|c rest]]].
    - right. unfold fix_cell. rewrite Hlen. cbn [Z.of_nat Z.eqb Pos.of_succ_nat
        Pos.succ Pos.eqb].
      destruct (mapM fix_pair l) as [fixed|] eqn:Hm; [|done].
      assert (Hs : is_Some (mapM fix_pair l)) by by eexists.
      apply mapM_is_Some in Hs. rewrite Forall_forall in Hs.
      destruct (Hs _ Hpair) as [s Hs']. cbn [compose fix_pair] in Hs'.
      rewrite Hfl in Hs'. by destruct v. }
  rewrite (load_stored _ _ Hp Hne). unfold load_try. rewrite Hobj.
  cbn [mbind option_bind]. unfold load_object.
  rewrite Hf. cbn [mbind option_bind differs_from_str String.eqb Ascii.eqb
                   Bool.eqb negb].
  rewrite Hd. cbn [mbind option_bind]. rewrite Hn. cbn [mbind option_bind].
  rewrite Hc. cbn [mbind option_bind dict_items negb Z.eqb Pos.eqb].
  rewrite Hfail. done.
Qed.

End Loader.

Lemma load_rejects_whole_payload_witness :
  _cells (_load_from_params_if_exists (H := TestLib.lib) demo_bad_key_stored) = ∅ ∧
  _params (_load_from_params_if_exists (H := TestLib.lib) demo_bad_key_stored)
    = None.
Proof.
  destruct (load_rejects_whole_payload (H := TestLib.lib) demo_bad_key_stored
    (TestLib.dumps
       (payload_of_cells
          [("1,2"%string, JList (replicate 8 (JList [JNull; JNull])));
           ("1,2,3"%string, JList [])]))
    (payload_of_cells
       [("1,2"%string, JList (replicate 8 (JList [JNull; JNull])));
        ("1,2,3"%string, JList [])])
    (JInt 8)
    [("1,2"%string, JList (replicate 8 (JList [JNull; JNull])));
     ("1,2,3"%string, JList [])]
    "1,2,3" (JList [])) as (Hc & Hp & _).
  - reflexivity.
  - by vm_compute.
  - vm_compute. reflexivity.
  - vm_compute. reflexivity.
  - vm_compute. reflexivity.
  - vm_compute. reflexivity.
  - vm_compute. reflexivity.
  - apply elem_of_cons; right. apply elem_of_cons; by left.
  - left. vm_compute. lia.
  - split; [exact Hc|exact Hp].
Defined.

(** ** What a query depends on *)

Section QueryDependence.
Context `{PyLib}.

Lemma try_offsets_ext a b now arr bk offs :
  neighbor_old_threshold_s a = neighbor_old_threshold_s b →
  try_offsets a now arr bk offs = try_offsets b now arr bk offs.
Proof.
  intros Ht. induction offs as [|off rest IH]; cbn [try_offsets]; [done|].
  destruct (py_getitem arr ((bk + off) `mod` buckets)) as [[[v|] [ts|]]|];
    cbn [mbind option_bind]; try done.
  by rewrite Ht, IH.
Qed.

Lemma scan_neighbors_ext a b now bk ns :
  _cells a = _cells b →
  neighbor_old_threshold_s a = neighbor_old_threshold_s b →
  scan_neighbors a now bk ns = scan_neighbors b now bk ns.
Proof.
  intros Hc Ht. induction ns as [|[ny nx] rest IH]; cbn [scan_neighbors]; [done|].
  unfold nonempty_cell, _try_cell_buckets_old. rewrite Hc, IH.
  destruct (_cells b !! (ny, nx)) as [[|s arr]|]; try done.
  by rewrite (try_offsets_ext a b) by done.
Qed.

Lemma scan_point_ext a b now bk nf gy gx :
  _cells a = _cells b →
  neighbor_old_threshold_s a = neighbor_old_threshold_s b →
  scan_point a now bk nf gy gx = scan_point b now bk nf gy gx.
Proof.
  intros Hc Ht. unfold scan_point, nonempty_cell, _try_cell_buckets_old.
  rewrite Hc, (scan_neighbors_ext a b) by done.
  destruct (_cells b !! (gy, gx)) as [[|s arr]|]; try done.
  by rewrite (try_offsets_ext a b) by done.
Qed.

Lemma scan_cands_ext a b now bk nf lat lon h ds :
  _cells a = _cells b →
  neighbor_old_threshold_s a = neighbor_old_threshold_s b →
  scan_cands a now bk nf lat lon h ds = scan_cands b now bk nf lat lon h ds.
Proof.
  intros Hc Ht. induction ds as [|d rest IH]; cbn [scan_cands]; [done|].
  destruct (project_point _ _ _ _ _ _) as [y x].
  destruct (quantize_1e4 y x) as [[gy gx]|]; cbn [mbind option_bind]; [|done].
  by rewrite (scan_point_ext a b), IH by done.
Qed.

Lemma query_hit_ext a b now lat lon h dist nf :
  _cells a = _cells b →
  neighbor_old_threshold_s a = neighbor_old_threshold_s b →
  query_hit a now lat lon h dist nf = query_hit b now lat lon h dist nf.
Proof.
  intros Hc Ht. unfold query_hit.
  destruct (heading_to_bucket h) as [bk|]; cbn [mbind option_bind]; [|done].
  by apply scan_cands_ext.
Qed.

Lemma query_value_ext a b now now_ms now_ms' lat lon h dist nf :
  _cells a = _cells b →
  neighbor_old_threshold_s a = neighbor_old_threshold_s b →
  snd <$> query_target_dist a now now_ms lat lon h dist nf
  = snd <$> query_target_dist b now now_ms' lat lon h dist nf.
Proof.
  intros Hc Ht. rewrite !query_target_dist_hit.
  rewrite (query_hit_ext a b) by done.
  by destruct (query_hit b now lat lon h dist nf) as [[[v [[gy gx] bi]]|]|].
Qed.

(** X23 - The answer of a query is a function of the grid, the age
    threshold, the time in seconds and the arguments only.  Two objects
    with the same cells and the same threshold find the same slot and
    return the same speed, or raise together, whatever their neighbour
    ring, compression settings, store, dirty flag and last-hit marker: in
    particular [neighbor_ring] has no effect on a query, whose fallback
    always looks at the 8 adjacent cells. *)
Theorem query_depends_on_grid_and_threshold a b now now_ms now_ms'
    lat lon heading_deg dist v_ego lookahead_s nf :
  _cells a = _cells b →
  neighbor_old_threshold_s a = neighbor_old_threshold_s b →
  query_hit a now lat lon heading_deg dist nf
    = query_hit b now lat lon heading_deg dist nf ∧
  snd <$> query_target_dist a now now_ms lat lon heading_deg dist nf
    = snd <$> query_target_dist b now now_ms' lat lon heading_deg dist nf ∧
  snd <$> query_target a now now_ms lat lon heading_deg v_ego lookahead_s nf
    = snd <$> query_target b now now_ms' lat lon heading_deg v_ego lookahead_s nf.
Proof.
  intros Hc Ht. split_and!.
  - by apply query_hit_ext.
  - by apply query_value_ext.
  - unfold query_target. by apply query_value_ext.
Qed.

End QueryDependence.

Lemma query_depends_on_grid_and_threshold_witness :
  snd <$> query_target_dist (H := TestLib.lib) demo_other_config 1121 5
            (of_ratio 375 10) (of_ratio 1269999 10000) (of_Z 90) (of_Z 10) true
  = snd <$> query_target_dist (H := TestLib.lib) demo_written 1121 1121000
              (of_ratio 375 10) (of_ratio 1269999 10000) (of_Z 90) (of_Z 10) true.
Proof.
  refine (proj1 (proj2 (query_depends_on_grid_and_threshold (H := TestLib.lib)
            demo_other_config demo_written 1121 5 1121000
            (of_ratio 375 10) (of_ratio 1269999 10000) (of_Z 90) (of_Z 10)
            zero zero true _ _))).
  - reflexivity.
  - vm_compute. reflexivity.
Defined.

(** ** Every object a program can hold *)

Section Reachable.
Context `{PyLib}.

Lemma save_keeps self now self' :
  save self now = Some self' →
  _cells self' = _cells self ∧ _last_hit self' = _last_hit self ∧
  same_config self' self.
Proof.
  unfold save. destruct (_encode_payload self); [|discriminate].
  by intros [= <-].
Qed.

Lemma maybe_save_keeps self now interval_s self' :
  maybe_save self now interval_s = Some self' →
  _cells self' = _cells self ∧ _last_hit self' = _last_hit self ∧
  same_config self' self.
Proof.
  unfold maybe_save. destruct (_ || _); [by intros [= <-]|apply save_keeps].
Qed.

Lemma close_keeps self now :
  _cells (close self now) = _cells self ∧
  _last_hit (close self now) = _last_hit self ∧
  same_config (close self now) self.
Proof.
  unfold close. destruct (_dirty self); [|done].
  destruct (save self now) as [self'|] eqn:Hs; [by apply save_keeps in Hs|done].
Qed.

(** One call on an object that satisfies the invariants. *)
Lemma run_call_keeps self c self' :
  wf_grid (_cells self) → wf_hit self →
  run_call self c = Some self' →
  wf_grid (_cells self') ∧ wf_hit self' ∧
  dom (_cells self) ⊆ dom (_cells self') ∧ same_config self' self.
Proof.
  intros Hwf Hhit. unfold wf_hit in *.
  assert (Hquery : ∀ now now_ms lat lon h dist nf,
    fst <$> query_target_dist self now now_ms lat lon h dist nf = Some self' →
    wf_grid (_cells self') ∧
    match _last_hit self' with Some (_, _, b, _) => 0 ≤ b < 8 | None => True end ∧
    dom (_cells self) ⊆ dom (_cells self') ∧ same_config self' self).
  { intros now now_ms lat lon h dist nf Hrun.
    destruct (query_target_dist self now now_ms lat lon h dist nf)
      as [[s v]|] eqn:Hq; [|discriminate]. injection Hrun as ->.
    destruct (query_target_dist_invariant _ _ _ _ _ _ _ _ _ _ Hhit Hq)
      as (Hc & _ & Hh).
    rewrite Hc. split_and!; try done.
    rewrite query_target_dist_hit in Hq.
    destruct (query_hit self now lat lon h dist nf) as [[[v0 [[gy gx] b]]|]|];
      [| |discriminate]; injection Hq as Hs _; by rewrite <- Hs. }
  destruct c; cbn [run_call].
  - intros Hrun. destruct (feqb (round1 speed_signed) zero) eqn:Hz.
    + rewrite add_sample_zero_step in Hrun by done. by injection Hrun as <-.
    + destruct (quantize_1e4 lat lon) as [[gy gx]|] eqn:Hq;
        [|unfold add_sample in Hrun; by rewrite Hz, Hq in Hrun].
      destruct (heading_to_bucket heading_deg) as [b|] eqn:Hb;
        [|unfold add_sample in Hrun; by rewrite Hz, Hq, Hb in Hrun].
      destruct (add_sample_run self now lat lon heading_deg speed_signed gy gx b
                  Hwf Hq Hb Hz) as (arr & Hlen & _ & Heq).
      rewrite Heq in Hrun. injection Hrun as <-. cbn. split_and!; try done.
      * apply wf_grid_insert; [done|]. by rewrite length_insert.
      * rewrite dom_insert_L. apply union_subseteq_r.
  - apply Hquery.
  - apply Hquery.
  - intros Hrun.
    destruct (invalidate_last_hit self now window_s action) as [[s r]|] eqn:Hi;
      [|discriminate]. injection Hrun as ->.
    destruct (invalidate_keeps_state _ _ _ _ _ _ Hwf Hi)
      as (Hw & Hh & Hd & Hcfg & _).
    split_and!; try done. by rewrite Hh. by rewrite Hd.
  - intros Hrun. apply maybe_save_keeps in Hrun as (Hc & Hh & Hcfg).
    by rewrite Hc, Hh.
  - intros Hrun. apply save_keeps in Hrun as (Hc & Hh & Hcfg).
    by rewrite Hc, Hh.
  - intros [= <-]. destruct (close_keeps self now) as (Hc & Hh & Hcfg).
    by rewrite Hc, Hh.
Qed.

Lemma reachable_keeps self :
  reachable self →
  wf_grid (_cells self) ∧ wf_hit self ∧ 0 ≤ neighbor_ring self.
Proof.
  induction 1 as [store ring threshold_s gz level|self c self' _ IH Hrun].
  - destruct (init_invariant store ring threshold_s gz level) as [Hwf Hhit].
    split_and!; [done|done|].
    unfold init. cbn [neighbor_ring].
    destruct (load_config
                (mkCarrotSpeed (Z.max 0 ring) threshold_s gz level ∅ false 0
                   store None 0)) as [-> _].
    cbn. lia.
  - destruct IH as (Hwf & Hhit & Hring).
    destruct (run_call_keeps _ _ _ Hwf Hhit Hrun) as (Hwf' & Hhit' & _ & Hcfg).
    split_and!; [done|done|]. destruct Hcfg as [-> _]. done.
Qed.

(** X18 - Every object a program can hold, whatever bytes the store held
    when it was built and whatever calls returned since, has 8 slots in each
    of its cells, a last-hit marker that names one of the 8 buckets when
    there is one, and a neighbour ring that is not negative. *)
Theorem reachable_invariant self :
  reachable self →
  wf_grid (_cells self) ∧ wf_hit self ∧ 0 ≤ neighbor_ring self.
Proof. apply reachable_keeps. Qed.

(** X19 - No call removes a cell or changes the configuration: along
    every call that returns on an object a program can hold, the cells of
    the grid are kept and the ring, the threshold and the compression
    settings are those of the constructor. *)
Theorem cells_are_never_removed self c self' :
  reachable self →
  run_call self c = Some self' →
  dom (_cells self) ⊆ dom (_cells self') ∧ same_config self' self.
Proof.
  intros Hreach Hrun.
  destruct (reachable_keeps self Hreach) as (Hwf & Hhit & _).
  by destruct (run_call_keeps _ _ _ Hwf Hhit Hrun) as (_ & _ & ? & ?).
Qed.

End Reachable.

Lemma reachable_invariant_witness :
  wf_grid (_cells demo_written) ∧ wf_hit demo_written ∧
  0 ≤ neighbor_ring demo_written.
Proof.
  apply (reachable_invariant (H := TestLib.lib) demo_written).
  apply (reachable_call (H := TestLib.lib) (init (H := TestLib.lib) None 1 120 true 5)
           (CallAddSample 1000 (of_ratio 375 10) (of_Z 127) (of_Z 90) (of_Z 15))).
  - apply reachable_init.
  - vm_compute. reflexivity.
Defined.

Lemma cells_are_never_removed_witness :
  dom (_cells demo_queried) ⊆ dom (_cells demo_cleared) ∧
  same_config demo_cleared demo_queried.
Proof.
  apply (cells_are_never_removed (H := TestLib.lib) demo_queried
           (CallInvalidateLastHit 1121 (of_Z 2) "clear")).
  - apply (reachable_call (H := TestLib.lib) demo_written
             (CallQueryTargetDist 1121 1121000 (of_ratio 375 10)
                (of_ratio 1269999 10000) (of_Z 90) (of_Z 10) true)).
    + apply (reachable_call (H := TestLib.lib) (init (H := TestLib.lib) None 1 120 true 5)
               (CallAddSample 1000 (of_ratio 375 10) (of_Z 127) (of_Z 90)
                  (of_Z 15))).
      * apply reachable_init.
      * vm_compute. reflexivity.
    + vm_compute. reflexivity.
  - vm_compute. reflexivity.
Defined.

(** ** Saving and restarting *)

Section Durability.
Context `{PyLib}.








(** X27 - Only saving writes the store.  Samples, queries and
    invalidations never change the stored bytes or the time of the last
    save, nor does [maybe_save] on a clean object or before the interval has
    passed since the last save, nor [close] on a clean object. *)
Theorem store_written_only_by_save self c self' :
  wf_grid (_cells self) →
  run_call self c = Some self' →
  may_write_store self c = false →
  _params self' = _params self ∧ _last_save self' = _last_save self.
Proof.
  intros Hwf Hrun Hw. destruct c; cbn [run_call may_write_store] in Hrun, Hw.
  - destruct (feqb (round1 speed_signed) zero) eqn:Hz.
    + rewrite add_sample_zero_step in Hrun by done. by injection Hrun as <-.
    + destruct (quantize_1e4 lat lon) as [[gy gx]|] eqn:Hq;
        [|unfold add_sample in Hrun; by rewrite Hz, Hq in Hrun].
      destruct (heading_to_bucket heading_deg) as [b|] eqn:Hb;
        [|unfold add_sample in Hrun; by rewrite Hz, Hq, Hb in Hrun].
      destruct (add_sample_run self now lat lon heading_deg speed_signed gy gx
                  b Hwf Hq Hb Hz) as (arr & _ & _ & Heq).
      rewrite Heq in Hrun. by injection Hrun as <-.
  - unfold query_target in Hrun. rewrite query_target_dist_hit in Hrun.
    destruct (query_hit _ _ _ _ _ _ _) as [[[v [[gy gx] bi]]|]|];
      [| |discriminate]; by injection Hrun as <-.
  - rewrite query_target_dist_hit in Hrun.
    destruct (query_hit _ _ _ _ _ _ _) as [[[v [[gy gx] bi]]|]|];
      [| |discriminate]; by injection Hrun as <-.
  - destruct (invalidate_last_hit self now window_s action) as [[s r]|] eqn:Hi;
      [|discriminate]. injection Hrun as ->.
    by destruct (invalidate_keeps_state _ _ _ _ _ _ Hwf Hi)
      as (_ & _ & _ & _ & ? & ? & _).
  - unfold maybe_save in Hrun.
    destruct (_dirty self); cbn [negb orb andb] in Hrun, Hw.
    + destruct (now - _last_save self <? interval_s); [|discriminate Hw].
      by injection Hrun as <-.
    + by injection Hrun as <-.
  - discriminate Hw.
  - injection Hrun as <-. unfold close. by rewrite Hw.
Qed.

End Durability.

Lemma demo_written_wf : wf_grid (_cells demo_written).
Proof.
  unfold wf_grid.
  refine (bool_decide_unpack (map_Forall _ (_cells demo_written)) _).
  vm_compute. reflexivity.
Qed.




Lemma store_written_only_by_save_witness :
  _params demo_queried = _params demo_written ∧
  _last_save demo_queried = _last_save demo_written.
Proof.
  refine (store_written_only_by_save (H := TestLib.lib) demo_written
            (CallQueryTargetDist 1121 1121000 (of_ratio 375 10)
               (of_ratio 1269999 10000) (of_Z 90) (of_Z 10) true)
            demo_queried _ _ _).
  - exact demo_written_wf.
  - vm_compute. reflexivity.
  - reflexivity.
Defined.
